(** * riban heating controller: a shallow embedding of heatingcontroller.cpp

    The controller runs on an AVR ATmega328: [byte] is 8 bits, [int] and
    [unsigned int] are 16 bits.  Data values are integers of [Z] with the
    conversions written out; array indices and the two record counters
    ([g_nSensorQuant], [g_nEventQuant]) are natural numbers, since the code
    only ever increments them below the array capacity and decrements them
    above zero.

    The global arrays have a fixed number of slots.  An access outside an
    array is undefined behaviour in C++; here it makes the operation return
    [None].  The persistent store is a byte-addressable memory whose capacity
    the source does not name: it is a total function from addresses to
    bytes.  The serial console, the LCD and the timers are not part of the
    modelled state (what a function prints is given apart, where a claim
    asks for it); the one-wire bus and the real-time clock are inputs. *)

From Stdlib Require Import ZArith Lia Bool.
From stdpp Require Import base option list.

Local Open Scope Z_scope.

(** ** Machine integers *)

Definition to_byte (x : Z) : Z := x mod 256.
Definition to_uint (x : Z) : Z := x mod 65536.
Definition to_int (x : Z) : Z := (x + 32768) mod 65536 - 32768.

(** ** Constants *)

Definition MAX_SENSORS : nat := 10.
Definition MAX_EVENTS : nat := 100.
Definition MAX_ZONES : nat := 10.   (* the literal size of g_zones *)
Definition EEPROM_SENSOR_START : Z := 0.
Definition EEPROM_SENSOR_SIZE : Z := 10.
Definition EEPROM_ZONE_START : Z := 100.
Definition EEPROM_ZONE_SIZE : Z := 2.
Definition EEPROM_EVENT_START : Z := 200.
Definition EEPROM_EVENT_SIZE : Z := 10.

(** ** Data model *)

Record timestamp := mk_timestamp {
  ts_nTime : Z;   (* unsigned int: minutes since 00:00 *)
  ts_nDay : Z     (* byte: bitwise flag of day *)
}.

Record sensor := mk_sensor {
  sn_address : list Z;  (* byte[8]: UID *)
  sn_nValue : Z;        (* int: current value *)
  sn_nZone : Z          (* byte *)
}.

Record event := mk_event {
  ev_nTime : Z;   (* unsigned int *)
  ev_nDays : Z;   (* byte: bitwise flag of days *)
  ev_nZone : Z;   (* byte *)
  ev_nValue : Z   (* int *)
}.

Record zone := mk_zone {
  zn_nSetpoint : Z;  (* int *)
  zn_nHyst : Z;      (* byte *)
  zn_bOn : bool;     (* calling for heat *)
  zn_bSpace : bool   (* space heating zone *)
}.

Record state := mk_state {
  g_nSensorQuant : nat;
  g_nEventQuant : nat;
  g_tsNow : timestamp;
  g_tsNextEvent : timestamp;
  g_sensors : list sensor;   (* sensor g_sensors[MAX_SENSORS] *)
  g_events : list event;     (* event g_events[MAX_EVENTS] *)
  g_zones : list zone;       (* zone g_zones[10] *)
  EEPROM : Z -> Z;           (* persistent store: address -> byte *)
  PIN_BOILER : bool;
  PIN_PUMP : bool
}.

Definition set_g_nSensorQuant (v : nat) (st : state) : state :=
  mk_state v (g_nEventQuant st) (g_tsNow st) (g_tsNextEvent st) (g_sensors st)
    (g_events st) (g_zones st) (EEPROM st) (PIN_BOILER st) (PIN_PUMP st).
Definition set_g_nEventQuant (v : nat) (st : state) : state :=
  mk_state (g_nSensorQuant st) v (g_tsNow st) (g_tsNextEvent st) (g_sensors st)
    (g_events st) (g_zones st) (EEPROM st) (PIN_BOILER st) (PIN_PUMP st).
Definition set_g_tsNow (v : timestamp) (st : state) : state :=
  mk_state (g_nSensorQuant st) (g_nEventQuant st) v (g_tsNextEvent st) (g_sensors st)
    (g_events st) (g_zones st) (EEPROM st) (PIN_BOILER st) (PIN_PUMP st).
Definition set_g_tsNextEvent (v : timestamp) (st : state) : state :=
  mk_state (g_nSensorQuant st) (g_nEventQuant st) (g_tsNow st) v (g_sensors st)
    (g_events st) (g_zones st) (EEPROM st) (PIN_BOILER st) (PIN_PUMP st).
Definition set_g_sensors (v : list sensor) (st : state) : state :=
  mk_state (g_nSensorQuant st) (g_nEventQuant st) (g_tsNow st) (g_tsNextEvent st) v
    (g_events st) (g_zones st) (EEPROM st) (PIN_BOILER st) (PIN_PUMP st).
Definition set_g_events (v : list event) (st : state) : state :=
  mk_state (g_nSensorQuant st) (g_nEventQuant st) (g_tsNow st) (g_tsNextEvent st)
    (g_sensors st) v (g_zones st) (EEPROM st) (PIN_BOILER st) (PIN_PUMP st).
Definition set_g_zones (v : list zone) (st : state) : state :=
  mk_state (g_nSensorQuant st) (g_nEventQuant st) (g_tsNow st) (g_tsNextEvent st)
    (g_sensors st) (g_events st) v (EEPROM st) (PIN_BOILER st) (PIN_PUMP st).
Definition set_EEPROM (v : Z -> Z) (st : state) : state :=
  mk_state (g_nSensorQuant st) (g_nEventQuant st) (g_tsNow st) (g_tsNextEvent st)
    (g_sensors st) (g_events st) (g_zones st) v (PIN_BOILER st) (PIN_PUMP st).
Definition set_PIN_BOILER (v : bool) (st : state) : state :=
  mk_state (g_nSensorQuant st) (g_nEventQuant st) (g_tsNow st) (g_tsNextEvent st)
    (g_sensors st) (g_events st) (g_zones st) (EEPROM st) v (PIN_PUMP st).
Definition set_PIN_PUMP (v : bool) (st : state) : state :=
  mk_state (g_nSensorQuant st) (g_nEventQuant st) (g_tsNow st) (g_tsNextEvent st)
    (g_sensors st) (g_events st) (g_zones st) (EEPROM st) (PIN_BOILER st) v.

(** ** Arrays and loops *)

(** [a[i] = x]: outside the array the behaviour is undefined. *)
Definition array_write {A} (a : list A) (i : nat) (x : A) : option (list A) :=
  if decide (i < length a)%nat then Some (<[i:=x]> a) else None.

(** [for (i = lo; i < lo + n; i++) body(i)] for a bound the body leaves alone. *)
Fixpoint for_loop {S} (n i : nat) (body : nat -> S -> option S) (s : S) : option S :=
  match n with
  | O => Some s
  | Datatypes.S n' => s' ← body i s; for_loop n' (Datatypes.S i) body s'
  end.

(** ** Persistent store *)

(** [EEPROM.write(addr, value)]: the value parameter is a [uint8_t]. *)
Definition EEPROM_write (addr v : Z) (st : state) : state :=
  set_EEPROM (fun a => if a =? addr then to_byte v else EEPROM st a) st.

Definition EEPROM_read (addr : Z) (st : state) : Z := EEPROM st addr.

(** [SaveEvent(nEvent)] *)
Definition SaveEvent (nEvent : nat) (st : state) : option state :=
  e ← g_events st !! nEvent;
  let base := Z.of_nat nEvent * EEPROM_EVENT_SIZE + EEPROM_EVENT_START in
  let st := EEPROM_write base (ev_nDays e) st in
  let st := EEPROM_write (base + 1) (Z.shiftr (Z.land (ev_nTime e) 0xFF00) 8) st in
  let st := EEPROM_write (base + 2) (Z.land (ev_nTime e) 0xFF) st in
  let st := EEPROM_write (base + 3) (ev_nZone e) st in
  let st := EEPROM_write (base + 4) (Z.shiftr (Z.land (ev_nValue e) 0xFF00) 8) st in
  let st := EEPROM_write (base + 5) (Z.land (ev_nValue e) 0xFF) st in
  Some st.

(** [SaveZone(nZone)] *)
Definition SaveZone (nZone : nat) (st : state) : option state :=
  z ← g_zones st !! nZone;
  let base := Z.of_nat nZone * EEPROM_ZONE_SIZE + EEPROM_ZONE_START in
  let st := EEPROM_write base (zn_nHyst z) st in
  let st := EEPROM_write (base + 1) (if zn_bSpace z then 1 else 0) st in
  Some st.

(** ** In-place updates of array elements

    [g_xs[i].field = v]: the slot must exist. *)

Definition sensor_update (i : nat) (f : sensor -> sensor) (st : state) : option state :=
  s ← g_sensors st !! i; Some (set_g_sensors (<[i := f s]> (g_sensors st)) st).

Definition event_update (i : nat) (f : event -> event) (st : state) : option state :=
  e ← g_events st !! i; Some (set_g_events (<[i := f e]> (g_events st)) st).

Definition zone_update (i : nat) (f : zone -> zone) (st : state) : option state :=
  z ← g_zones st !! i; Some (set_g_zones (<[i := f z]> (g_zones st)) st).

Definition with_address (a : list Z) (s : sensor) : sensor :=
  mk_sensor a (sn_nValue s) (sn_nZone s).
Definition with_sn_nValue (v : Z) (s : sensor) : sensor :=
  mk_sensor (sn_address s) v (sn_nZone s).
Definition with_sn_nZone (v : Z) (s : sensor) : sensor :=
  mk_sensor (sn_address s) (sn_nValue s) v.

Definition with_ev_nTime (v : Z) (e : event) : event :=
  mk_event v (ev_nDays e) (ev_nZone e) (ev_nValue e).
Definition with_ev_nDays (v : Z) (e : event) : event :=
  mk_event (ev_nTime e) v (ev_nZone e) (ev_nValue e).
Definition with_ev_nZone (v : Z) (e : event) : event :=
  mk_event (ev_nTime e) (ev_nDays e) v (ev_nValue e).
Definition with_ev_nValue (v : Z) (e : event) : event :=
  mk_event (ev_nTime e) (ev_nDays e) (ev_nZone e) v.

Definition with_nSetpoint (v : Z) (z : zone) : zone :=
  mk_zone v (zn_nHyst z) (zn_bOn z) (zn_bSpace z).
Definition with_nHyst (v : Z) (z : zone) : zone :=
  mk_zone (zn_nSetpoint z) v (zn_bOn z) (zn_bSpace z).
Definition with_bOn (v : bool) (z : zone) : zone :=
  mk_zone (zn_nSetpoint z) (zn_nHyst z) v (zn_bSpace z).
Definition with_bSpace (v : bool) (z : zone) : zone :=
  mk_zone (zn_nSetpoint z) (zn_nHyst z) (zn_bOn z) v.

(** ** ReadConfig *)

(** [g_sensors[q].address[i] = EEPROM.read(q * EEPROM_SENSOR_SIZE + EEPROM_SENSOR_START + i)] *)
Definition ReadConfig_address (q i : nat) (st : state) : option state :=
  s ← g_sensors st !! q;
  a ← array_write (sn_address s) i
        (EEPROM_read (Z.of_nat q * EEPROM_SENSOR_SIZE + EEPROM_SENSOR_START + Z.of_nat i) st);
  sensor_update q (with_address a) st.

(** The sensor loop: [g_nSensorQuant] is the loop variable; [n] counts the
    iterations left before it reaches [MAX_SENSORS]. *)
Fixpoint ReadConfig_sensors (n : nat) (st : state) : option state :=
  match n with
  | O => Some st
  | S n' =>
      let q := g_nSensorQuant st in
      if EEPROM_read (Z.of_nat q * EEPROM_SENSOR_SIZE + EEPROM_SENSOR_START) st =? 0
      then Some st
      else
        st ← for_loop 8 0 (ReadConfig_address q) st;
        st ← sensor_update q
               (with_sn_nZone
                  (EEPROM_read (Z.of_nat q * EEPROM_SENSOR_SIZE + EEPROM_SENSOR_START + 8) st)) st;
        ReadConfig_sensors n' (set_g_nSensorQuant (S q) st)
  end.

(** The event loop, with [g_nEventQuant] as the loop variable. *)
Fixpoint ReadConfig_events (n : nat) (st : state) : option state :=
  match n with
  | O => Some st
  | S n' =>
      let q := g_nEventQuant st in
      let base := Z.of_nat q * EEPROM_EVENT_SIZE + EEPROM_EVENT_START in
      st ← event_update q (with_ev_nDays (EEPROM_read base st)) st;
      e ← g_events st !! q;
      if 0 =? ev_nDays e
      then Some st
      else
        st ← event_update q
               (with_ev_nTime
                  (to_uint (Z.lor (Z.shiftl (EEPROM_read (base + 1) st) 8)
                                  (EEPROM_read (base + 2) st)))) st;
        st ← event_update q (with_ev_nZone (EEPROM_read (base + 3) st)) st;
        st ← event_update q
               (with_ev_nValue
                  (to_int (Z.lor (Z.shiftl (EEPROM_read (base + 4) st) 8)
                                 (EEPROM_read (base + 5) st)))) st;
        ReadConfig_events n' (set_g_nEventQuant (S q) st)
  end.

(** The zone loop body. *)
Definition ReadConfig_zone (nZone : nat) (st : state) : option state :=
  st ← zone_update nZone
         (with_nHyst
            (EEPROM_read (Z.of_nat nZone * EEPROM_ZONE_SIZE + EEPROM_ZONE_START) st)) st;
  zone_update nZone
    (with_bSpace
       (EEPROM_read (Z.of_nat nZone * EEPROM_ZONE_SIZE + EEPROM_ZONE_START + 1) st =? 1)) st.

Definition ReadConfig (st : state) : option state :=
  st ← ReadConfig_sensors MAX_SENSORS (set_g_nSensorQuant 0 st);
  st ← ReadConfig_events MAX_EVENTS (set_g_nEventQuant 0 st);
  for_loop 10 0 ReadConfig_zone st.

(** ** Sensors *)

(** [bool GetTemperature(unsigned int nSensor)].  [r] is what the bus read
    [GetTemperature(g_sensors[nSensor].address)] returns: a temperature, or
    -2000 after a failed transfer. *)
Definition GetTemperature (nSensor : nat) (r : Z) (st : state) : option (state * bool) :=
  if (MAX_SENSORS <=? nSensor)%nat then Some (st, false)
  else if r =? -2000 then Some (st, false)
  else st ← sensor_update nSensor (with_sn_nValue r) st; Some (st, true).

(** The inner comparison loop of [AddSensor], from byte [i], [n] bytes left. *)
Fixpoint AddSensor_compare (n i : nat) (pAddress addr : list Z) (bDuplicate : bool)
  : option bool :=
  match n with
  | O => Some bDuplicate
  | S n' =>
      p ← pAddress !! i;
      a ← addr !! i;
      if p =? a
      then AddSensor_compare n' (S i) pAddress addr true
      else Some false
  end.

(** The outer scan of [AddSensor]: returns [bDuplicate] and [nSensor] as the
    loop leaves them. *)
Fixpoint AddSensor_scan (n nSensor : nat) (pAddress : list Z) (st : state)
  (bDuplicate : bool) : option (bool * nat) :=
  match n with
  | O => Some (bDuplicate, nSensor)
  | S n' =>
      s ← g_sensors st !! nSensor;
      b ← AddSensor_compare 8 0 pAddress (sn_address s) bDuplicate;
      if (b : bool) then Some (true, nSensor)
      else AddSensor_scan n' (S nSensor) pAddress st b
  end.

(** One step of the loop that stores a new sensor's address. *)
Definition AddSensor_store (pAddress : list Z) (i : nat) (st : state) : option state :=
  p ← pAddress !! i;
  s ← g_sensors st !! g_nSensorQuant st;
  a ← array_write (sn_address s) i p;
  st ← sensor_update (g_nSensorQuant st) (with_address a) st;
  s ← g_sensors st !! g_nSensorQuant st;
  a ← sn_address s !! i;
  Some (EEPROM_write (Z.of_nat (g_nSensorQuant st) * 10 + Z.of_nat i) a st).

(** [AddSensor(pAddress, nZone)]; [r] is the result of the bus read at the end. *)
Definition AddSensor (pAddress : list Z) (nZone : Z) (r : Z) (st : state) : option state :=
  '(bDuplicate, nSensor) ← AddSensor_scan (g_nSensorQuant st) 0 pAddress st false;
  let finish (st : state) :=
    st ← sensor_update nSensor (with_sn_nZone nZone) st;
    let st := EEPROM_write (Z.of_nat nSensor * 10 + 8) nZone st in
    fst <$> GetTemperature nSensor r st in
  if negb bDuplicate then
    if (MAX_SENSORS <=? g_nSensorQuant st)%nat then Some st
    else
      st ← for_loop 8 0 (AddSensor_store pAddress) st;
      finish (set_g_nSensorQuant (S (g_nSensorQuant st)) st)
  else finish st.

(** ** Clock *)

Definition bcdToDec (nValue : Z) : Z := to_byte ((nValue / 16 * 10) + (nValue mod 16)).

(** The seven bytes read from the DS1307 registers. *)
Record rtc_regs := mk_rtc {
  rtc_second : Z; rtc_minute : Z; rtc_hour : Z; rtc_dow : Z;
  rtc_day : Z; rtc_month : Z; rtc_year : Z
}.

(** [getTime] (built without [_DEBUG_]): stores the time in [g_tsNow] and
    returns the seconds; what it shows on the LCD and the console is left out. *)
Definition getTime (regs : rtc_regs) (st : state) : state * Z :=
  let nSecond := bcdToDec (Z.land (rtc_second regs) 0x7f) in
  let nMinute := bcdToDec (rtc_minute regs) in
  let nHour := bcdToDec (Z.land (rtc_hour regs) 0x3f) in
  let nDay := bcdToDec (rtc_dow regs) in
  (set_g_tsNow (mk_timestamp (to_uint (nMinute + nHour * 60)) nDay) st, nSecond).

(** ** Events *)

(** [a & b] used as a condition. *)
Definition bit_and_nonzero (a b : Z) : bool := negb (Z.land a b =? 0).

(** The loop body of [ProcessEvents]. *)
Definition ProcessEvents_body (nEvent : nat) (st : state) : option state :=
  e ← g_events st !! nEvent;
  st ← (if (ev_nTime e =? ts_nTime (g_tsNow st))
            && bit_and_nonzero (ev_nDays e) (ts_nDay (g_tsNow st))
        then zone_update (Z.to_nat (ev_nZone e)) (with_nSetpoint (ev_nValue e)) st
        else Some st);
  if bit_and_nonzero (ev_nDays e) (ts_nDay (g_tsNow st))
     && (ts_nTime (g_tsNow st) <? ev_nTime e)
     && (ev_nTime e <? ts_nTime (g_tsNextEvent st))
  then Some (set_g_tsNextEvent (mk_timestamp (ev_nTime e) (ts_nDay (g_tsNow st))) st)
  else Some st.

(** The tail of [ProcessEvents]: no more events today. *)
Definition ProcessEvents_advance (st : state) : state :=
  if ts_nTime (g_tsNextEvent st) =? 0xFFFF then
    let nDay := to_byte (Z.shiftl (ts_nDay (g_tsNextEvent st)) 1) in
    set_g_tsNextEvent (mk_timestamp 0 (if 127 <? nDay then 1 else nDay)) st
  else st.

Definition ProcessEvents (st : state) : option state :=
  let st := set_g_tsNextEvent (mk_timestamp 0xFFFF (ts_nDay (g_tsNextEvent st))) st in
  st ← for_loop (g_nEventQuant st) 0 ProcessEvents_body st;
  Some (ProcessEvents_advance st).

(** [AddEvent(nZone, nDays, nTime, nSetpoint, bSave)]; the default of [bSave]
    is declared in the header. *)
Definition AddEvent (nZone nDays nTime nSetpoint : Z) (bSave : bool) (st : state)
  : option state :=
  if (MAX_EVENTS <=? g_nEventQuant st)%nat then Some st
  else
    st ← event_update (g_nEventQuant st) (with_ev_nDays nDays) st;
    st ← event_update (g_nEventQuant st) (with_ev_nTime nTime) st;
    st ← event_update (g_nEventQuant st) (with_ev_nZone nZone) st;
    st ← event_update (g_nEventQuant st) (with_ev_nValue nSetpoint) st;
    st ← (if bSave then SaveEvent (g_nEventQuant st) st else Some st);
    Some (set_g_nEventQuant (S (g_nEventQuant st)) st).

(** The loop body of [DeleteEvent]: four field copies from the next slot,
    then [SaveEvent]. *)
Definition DeleteEvent_body (nEventQuant : nat) (st : state) : option state :=
  src ← g_events st !! (nEventQuant + 1)%nat;
  st ← event_update nEventQuant (with_ev_nDays (ev_nDays src)) st;
  src ← g_events st !! (nEventQuant + 1)%nat;
  st ← event_update nEventQuant (with_ev_nTime (ev_nTime src)) st;
  src ← g_events st !! (nEventQuant + 1)%nat;
  st ← event_update nEventQuant (with_ev_nZone (ev_nZone src)) st;
  src ← g_events st !! (nEventQuant + 1)%nat;
  st ← event_update nEventQuant (with_ev_nValue (ev_nValue src)) st;
  SaveEvent nEventQuant st.

(** [DeleteEvent(nEvent)] *)
Definition DeleteEvent (nEvent : nat) (st : state) : option state :=
  if (g_nEventQuant st <=? nEvent)%nat then Some st
  else
    st ← for_loop (g_nEventQuant st - nEvent) nEvent DeleteEvent_body st;
    Some (set_g_nEventQuant (g_nEventQuant st - 1) st).

(** ** The control cycle of [loop] *)

(** The two comparisons made for a sensor on its zone. *)
Definition loop_thermostat (nValue : Z) (z : zone) : zone :=
  let z := if zn_nSetpoint z <? nValue then with_bOn false z else z in
  if Z.quot nValue 10 <? to_int (zn_nSetpoint z - zn_nHyst z) then with_bOn true z else z.

(** The body of the sensor loop; the accumulator carries [bPump] and [bBoiler]. *)
Definition loop_sensor (bus : nat -> Z) (nSensor : nat) (acc : state * bool * bool)
  : option (state * bool * bool) :=
  let '(st, bPump, bBoiler) := acc in
  '(st, _) ← GetTemperature nSensor (bus nSensor) st;
  s ← g_sensors st !! nSensor;
  st ← zone_update (Z.to_nat (sn_nZone s)) (loop_thermostat (sn_nValue s)) st;
  z ← g_zones st !! Z.to_nat (sn_nZone s);
  let bBoiler := bBoiler || zn_bOn z in
  let bPump := if zn_bSpace z then bPump || zn_bOn z else bPump in
  Some (st, bPump, bBoiler).

(** The clock read and the scheduler guard at the head of the cycle. *)
Definition loop_events (regs : rtc_regs) (st : state) : option state :=
  let st := fst (getTime regs st) in
  if (ts_nTime (g_tsNextEvent st) =? ts_nTime (g_tsNow st))
     && bit_and_nonzero (ts_nDay (g_tsNextEvent st)) (ts_nDay (g_tsNow st))
  then ProcessEvents st
  else Some st.

(** The sensor loop and the two [digitalWrite] calls. *)
Definition loop_outputs (bus : nat -> Z) (st : state) : option state :=
  '(st, bPump, bBoiler) ← for_loop (g_nSensorQuant st) 0 (loop_sensor bus) (st, false, false);
  Some (set_PIN_PUMP bPump (set_PIN_BOILER bBoiler st)).

(** One triggered pass of [loop]: [regs] and [regs'] are the two clock reads,
    [bus n] the result of the bus read for sensor [n]. *)
Definition loop (regs regs' : rtc_regs) (bus : nat -> Z) (st : state) : option state :=
  st ← loop_events regs st;
  st ← loop_outputs bus st;
  Some (fst (getTime regs' st)).

(** ** Well-formed states and sample states *)

(** The arrays have the sizes the source declares. *)
Record wf (st : state) : Prop := mk_wf {
  wf_sensors : length (g_sensors st) = MAX_SENSORS;
  wf_events : length (g_events st) = MAX_EVENTS;
  wf_zones : length (g_zones st) = MAX_ZONES;
  wf_address : forall i s, g_sensors st !! i = Some s -> length (sn_address s) = 8%nat
}.

(** The globals as static initialisation leaves them, over an all-zero store. *)
Definition blank_state : state :=
  mk_state 0 0 (mk_timestamp 0 0) (mk_timestamp 0 0)
    (replicate 10 (mk_sensor (replicate 8 0) 0 0))
    (replicate 100 (mk_event 0 0 0 0))
    (replicate 10 (mk_zone 0 0 false false))
    (fun _ => 0) false false.

(** [DeleteEvent] as the specification words it: records are copied for the
    slots in [index, count - 1) only. *)
Definition DeleteEvent_as_specified (nEvent : nat) (st : state) : option state :=
  if (g_nEventQuant st <=? nEvent)%nat then Some st
  else
    st ← for_loop (g_nEventQuant st - 1 - nEvent) nEvent DeleteEvent_body st;
    Some (set_g_nEventQuant (g_nEventQuant st - 1) st).

(** Three events in a blank state, with a stale record left in slot 3. *)
Definition three_events : state :=
  set_g_nEventQuant 3
    (set_g_events
       (<[0%nat := mk_event 420 2 1 200]>
          (<[1%nat := mk_event 480 4 2 210]>
             (<[2%nat := mk_event 1320 126 1 150]>
                (<[3%nat := mk_event 600 8 3 190]> (g_events blank_state)))))
       blank_state).

(** A full event table. *)
Definition full_events : state :=
  set_g_nEventQuant 100
    (set_g_events (replicate 100 (mk_event 420 2 1 200)) blank_state).

(** The record [SaveEvent] writes for an event, byte by byte. *)
Definition stored_event (e : event) (rom : Z -> Z) (base : Z) : Prop :=
  rom base = to_byte (ev_nDays e) /\
  rom (base + 1) = to_byte (Z.shiftr (Z.land (ev_nTime e) 0xFF00) 8) /\
  rom (base + 2) = to_byte (Z.land (ev_nTime e) 0xFF) /\
  rom (base + 3) = to_byte (ev_nZone e) /\
  rom (base + 4) = to_byte (Z.shiftr (Z.land (ev_nValue e) 0xFF00) 8) /\
  rom (base + 5) = to_byte (Z.land (ev_nValue e) 0xFF).

(** Two states that differ at most in the event table and the store. *)
Definition only_events_changed (st st' : state) : Prop :=
  g_nSensorQuant st' = g_nSensorQuant st /\ g_nEventQuant st' = g_nEventQuant st /\
  g_sensors st' = g_sensors st /\ g_zones st' = g_zones st /\
  g_tsNow st' = g_tsNow st /\ g_tsNextEvent st' = g_tsNextEvent st /\
  PIN_BOILER st' = PIN_BOILER st /\ PIN_PUMP st' = PIN_PUMP st.

(** The store addresses of event record [j]. *)
Definition in_event_record (j : nat) (a : Z) : Prop :=
  Z.of_nat j * 10 + 200 <= a < Z.of_nat j * 10 + 206.

(** An event is due at [now]: its time is now and its days include today. *)
Definition event_due (now : timestamp) (e : event) : bool :=
  (ev_nTime e =? ts_nTime now) && bit_and_nonzero (ev_nDays e) (ts_nDay now).

(** An event is still to come today. *)
Definition event_later_today (now : timestamp) (e : event) : bool :=
  bit_and_nonzero (ev_nDays e) (ts_nDay now) && (ts_nTime now <? ev_nTime e).

(** The slot of [g_zones] an event writes to. *)
Definition zone_index (e : event) : nat := Z.to_nat (ev_nZone e).

(** Two states that differ at most in zone set-points and the next event. *)
Definition only_setpoints_changed (st st' : state) : Prop :=
  g_nSensorQuant st' = g_nSensorQuant st /\ g_nEventQuant st' = g_nEventQuant st /\
  g_sensors st' = g_sensors st /\ g_events st' = g_events st /\
  g_tsNow st' = g_tsNow st /\ EEPROM st' = EEPROM st /\
  PIN_BOILER st' = PIN_BOILER st /\ PIN_PUMP st' = PIN_PUMP st /\
  length (g_zones st') = length (g_zones st) /\
  (forall z, with_nSetpoint 0 <$> g_zones st' !! z = with_nSetpoint 0 <$> g_zones st !! z).

(** The day after [nDay], as the tail of [ProcessEvents] computes it. *)
Definition next_day (nDay : Z) : Z :=
  if 127 <? to_byte (Z.shiftl nDay 1) then 1 else to_byte (Z.shiftl nDay 1).

(** Monday 07:00:00 and 07:01:00 in the clock registers (BCD; day of week 2). *)
Definition monday_0700 : rtc_regs := mk_rtc 0 0 7 2 1 1 0x14.
Definition monday_0701 : rtc_regs := mk_rtc 0 1 7 2 1 1 0x14.

(** Two events for zone 1, both on Monday at 07:00, with the next-event
    timestamp pointing at them. *)
Definition two_due_events : state :=
  set_g_tsNextEvent (mk_timestamp 420 2)
    (set_g_nEventQuant 2
       (set_g_events
          (<[0%nat := mk_event 420 2 1 200]>
             (<[1%nat := mk_event 420 2 1 150]> (g_events blank_state)))
          blank_state)).

(** One event on Monday at 07:00 in the table, the next-event timestamp as
    [setup] leaves it. *)
Definition one_event_after_setup : state :=
  set_g_nEventQuant 1
    (set_g_events (<[0%nat := mk_event 420 2 1 200]> (g_events blank_state)) blank_state).

(** One sensor with stored value [nValue] on zone 0, a space-heating zone
    with set-point 200 and hysteresis 20. *)
Definition one_sensor (nValue : Z) (bOn : bool) : state :=
  set_g_nSensorQuant 1
    (set_g_sensors (<[0%nat := mk_sensor [40; 1; 2; 3; 4; 5; 6; 7] nValue 0]>
                      (g_sensors blank_state))
       (set_g_zones (<[0%nat := mk_zone 200 20 bOn true]> (g_zones blank_state))
          blank_state)).

(** What a bus result does to a sensor record: -2000 leaves it alone. *)
Definition read_into (r : Z) (s : sensor) : sensor :=
  if r =? -2000 then s else with_sn_nValue r s.

(** Call-for-heat state of zone slot [z]; the second also asks for the
    space-heating flag. *)
Definition zone_on (st : state) (z : nat) : bool :=
  match g_zones st !! z with Some zn => zn_bOn zn | None => false end.

Definition zone_on_space (st : state) (z : nat) : bool :=
  match g_zones st !! z with Some zn => zn_bOn zn && zn_bSpace zn | None => false end.

(** The zone slot sensor [i] is assigned to. *)
Definition sensor_zone (st : state) (i : nat) : nat :=
  match g_sensors st !! i with Some s => Z.to_nat (sn_nZone s) | None => O end.

(** Zone 3 calling for heat with no sensor configured. *)
Definition zone_without_sensor : state :=
  set_g_zones (<[3%nat := mk_zone 200 20 true true]> (g_zones blank_state)) blank_state.

(** Two sensors, both assigned to zone 0. *)
Definition two_sensors_one_zone : state :=
  set_g_nSensorQuant 2
    (set_g_sensors
       (<[0%nat := mk_sensor [40; 1; 2; 3; 4; 5; 6; 7] 0 0]>
          (<[1%nat := mk_sensor [40; 9; 9; 9; 9; 9; 9; 9] 0 0]> (g_sensors blank_state)))
       (set_g_zones (<[0%nat := mk_zone 200 20 false true]> (g_zones blank_state))
          blank_state)).

(** Every sensor slot holds an eight-byte address. *)
Definition addresses_ok (st : state) : Prop :=
  forall i s, g_sensors st !! i = Some s -> length (sn_address s) = 8%nat.

(** Zone 0 configured with hysteresis 20 as a space-heating zone, over an
    all-zero store. *)
Definition zone0_configured : state :=
  set_g_zones (<[0%nat := mk_zone 0 20 false true]> (g_zones blank_state)) blank_state.

(** A store that holds a zone record (hysteresis 20, space heating) at
    addresses 1100 and 1101 and zeros elsewhere. *)
Definition record_at_1100 : state :=
  set_EEPROM (fun a => if a =? 1100 then 20 else if a =? 1101 then 1 else 0) blank_state.

(** All ten sensor slots in use, with addresses that differ in their first
    byte, and all hundred event slots in use. *)
Definition full_sensors : state :=
  set_g_nSensorQuant 10
    (set_g_sensors
       (map (fun b => mk_sensor [b; 1; 2; 3; 4; 5; 6; 7] 2000 1)
            [40; 41; 42; 43; 44; 45; 46; 47; 48; 49])
       full_events).

(** Two states that differ at most in the sensor table and the store. *)
Definition only_sensors_changed (st st' : state) : Prop :=
  g_nEventQuant st' = g_nEventQuant st /\ g_events st' = g_events st /\
  g_zones st' = g_zones st /\ g_tsNow st' = g_tsNow st /\
  g_tsNextEvent st' = g_tsNextEvent st /\
  PIN_BOILER st' = PIN_BOILER st /\ PIN_PUMP st' = PIN_PUMP st.

(** One configured sensor on zone 1 with a stored value of 1800. *)
Definition sensor_on_zone1 : state :=
  set_g_nSensorQuant 1
    (set_g_sensors (<[0%nat := mk_sensor [40; 1; 2; 3; 4; 5; 6; 7] 1800 1]>
                      (g_sensors blank_state)) blank_state).

(** ** Today's day flag

    [timestamp.nDay] is documented as the bitwise flag of the day, 1 =
    Sunday, and [setDate] stores [1 << (nDow - 1)]: bit [k] stands for day
    [k] of the week, Sunday = 0. *)
Definition day_bit (k : nat) : Z := Z.shiftl 1 (Z.of_nat k).

(** An event is due on day [k] at [minutes]: the day's flag is in its
    day mask and its time is [minutes]. *)
Definition due_on (k : nat) (minutes : Z) (e : event) : bool :=
  (ev_nTime e =? minutes) && Z.testbit (ev_nDays e) (Z.of_nat k).

(** ** What the add functions report

    [AddEvent] and [AddSensor] are [void]: nothing comes back to the
    caller.  What is left to tell a refusal by is the serial console. *)
Inductive console_line :=
| Cant_add_any_more_sensors             (* Can't add any more sensors. *)
| Adding_new_sensor (address : list Z)  (* Adding new sensor [ address in hex ] *)
| Updating_existing_sensor.             (* Updating existing sensor *)

(** The lines [AddSensor] prints: one per call, by the branch taken. *)
Definition AddSensor_console (pAddress : list Z) (st : state) : option (list console_line) :=
  '(bDuplicate, nSensor) ← AddSensor_scan (g_nSensorQuant st) 0 pAddress st false;
  if negb bDuplicate then
    if (MAX_SENSORS <=? g_nSensorQuant st)%nat then Some [Cant_add_any_more_sensors]
    else
      st' ← for_loop 8 0 (AddSensor_store pAddress) st;
      s ← g_sensors st' !! g_nSensorQuant st;
      Some [Adding_new_sensor (sn_address s)]
  else Some [Updating_existing_sensor].

(** [AddEvent] has no [Serial] call on any of its paths, nor has
    [SaveEvent]: it prints nothing. *)
Definition AddEvent_console (nZone nDays nTime nSetpoint : Z) (bSave : bool) (st : state)
  : list console_line := [].

(** * Further functions of heatingcontroller.cpp *)

(** [byte decToBcd(byte nValue)] *)
Definition decToBcd (nValue : Z) : Z := to_byte ((nValue / 10 * 16) + (nValue mod 10)).

(** [byte CharToHex(char nChar)]: the difference is stored in a [byte]. *)
Definition CharToHex (nChar : Z) : Z :=
  let nValue := to_byte (nChar - 48) in
  let nValue := if 9 <? nValue then to_byte (nValue - 7) else nValue in
  if 0x0F <? nValue then 0 else nValue.

(** The values an [event] can hold in its fields. *)
Definition event_in_range (e : event) : Prop :=
  0 <= ev_nTime e < 65536 /\ 0 <= ev_nDays e < 256 /\
  0 <= ev_nZone e < 256 /\ -32768 <= ev_nValue e < 32768.

(** The event [ReadConfig] builds from record [j] of the store. *)
Definition load_event (rom : Z -> Z) (j : nat) : event :=
  let base := Z.of_nat j * 10 + 200 in
  mk_event (to_uint (Z.lor (Z.shiftl (rom (base + 1)) 8) (rom (base + 2))))
           (rom base) (rom (base + 3))
           (to_int (Z.lor (Z.shiftl (rom (base + 4)) 8) (rom (base + 5)))).

(** The address and zone [ReadConfig] reads for sensor [j]. *)
Definition load_address (rom : Z -> Z) (j : nat) : list Z :=
  map (fun i => rom (Z.of_nat j * 10 + Z.of_nat i)) (seq 0 8).

Definition load_sensor (rom : Z -> Z) (j : nat) (nValue : Z) : sensor :=
  mk_sensor (load_address rom j) nValue (rom (Z.of_nat j * 10 + 8)).

(** The event table and the store agree: the events in use are saved, have
    their fields in range and a non-empty day mask, and every slot and
    every record from [g_nEventQuant] on has an empty day mask. *)
Definition events_in_sync (st : state) : Prop :=
  (g_nEventQuant st <= MAX_EVENTS)%nat /\
  (forall j e, (j < g_nEventQuant st)%nat -> g_events st !! j = Some e ->
     event_in_range e /\ ev_nDays e <> 0 /\
     stored_event e (EEPROM st) (Z.of_nat j * 10 + 200)) /\
  (forall j e, (g_nEventQuant st <= j)%nat -> g_events st !! j = Some e -> ev_nDays e = 0) /\
  (forall j, (g_nEventQuant st <= j < MAX_EVENTS)%nat -> EEPROM st (Z.of_nat j * 10 + 200) = 0).

(** One event (Monday 07:00, zone 1, 20.0 degrees) in the table and saved in
    the store. *)
Definition one_saved_event : state :=
  set_EEPROM (fun a => if a =? 200 then 2 else if a =? 201 then 1
                       else if a =? 202 then 164 else if a =? 203 then 1
                       else if a =? 205 then 200 else 0)
    one_event_after_setup.

(** The sensor table and the store agree: every sensor in use has the
    address and the zone its record holds and a non-zero first address
    byte, and every record from [g_nSensorQuant] on starts with a zero. *)
Definition sensors_in_sync (st : state) : Prop :=
  (g_nSensorQuant st <= MAX_SENSORS)%nat /\
  (forall j s, (j < g_nSensorQuant st)%nat -> g_sensors st !! j = Some s ->
     sn_address s = load_address (EEPROM st) j /\
     sn_nZone s = EEPROM st (Z.of_nat j * 10 + 8) /\
     EEPROM st (Z.of_nat j * 10) <> 0) /\
  (forall j, (g_nSensorQuant st <= j < MAX_SENSORS)%nat -> EEPROM st (Z.of_nat j * 10) = 0).

(** No two sensors in use have the same address. *)
Definition addresses_distinct (st : state) : Prop :=
  forall i j s t, (i < j < g_nSensorQuant st)%nat ->
    g_sensors st !! i = Some s -> g_sensors st !! j = Some t ->
    sn_address s <> sn_address t.

(** An eight-byte address with a non-zero first byte. *)
Definition valid_address (p : list Z) : Prop :=
  length p = 8%nat /\ (forall k x, p !! k = Some x -> 0 <= x < 256) /\
  (forall x, p !! 0%nat = Some x -> x <> 0).

(** The state at power-on: the globals as static initialisation leaves
    them, and the store as it was. *)
Definition power_on (rom : Z -> Z) : state := set_EEPROM rom blank_state.

(** [setup()]: the next-event timestamp is cleared and the configuration is
    read (pin modes, serial line, LCD and timer are outside the state). *)
Definition setup (st : state) : option state :=
  ReadConfig (set_g_tsNextEvent (mk_timestamp 0 0) st).

(** The sensor of [sensor_on_zone1] with its record in the store. *)
Definition one_saved_sensor : state :=
  set_EEPROM (fun a => nth (Z.to_nat a) [40; 1; 2; 3; 4; 5; 6; 7; 1] 0) sensor_on_zone1.

(** Monday 07:00 with the events of [three_events]; in the second state
    event 0 names zone 10. *)
Definition three_events_due : state := set_g_tsNow (mk_timestamp 420 2) three_events.

Definition event_for_zone_10 : state :=
  set_g_events (<[0%nat := mk_event 420 2 10 200]> (g_events three_events_due))
    three_events_due.

(** What a control cycle leaves alone: the store, the event table, the two
    counts, the address and zone of every sensor, and the hysteresis and
    space flag of every zone. *)
Definition configuration_kept (st st' : state) : Prop :=
  EEPROM st' = EEPROM st /\ g_events st' = g_events st /\
  g_nEventQuant st' = g_nEventQuant st /\ g_nSensorQuant st' = g_nSensorQuant st /\
  (forall j, with_sn_nValue 0 <$> g_sensors st' !! j = with_sn_nValue 0 <$> g_sensors st !! j) /\
  (forall z, with_bOn false <$> (with_nSetpoint 0 <$> g_zones st' !! z)
             = with_bOn false <$> (with_nSetpoint 0 <$> g_zones st !! z)).

(** ** Setting the clock *)

(** [setTime]: the new state and the bytes written to the clock chip, the
    register pointer first.  The parameters are [unsigned int]; [decToBcd]
    takes a [byte]. *)
Definition setTime (nHour nMinute nSecond : Z) (st : state) : state * list Z :=
  (set_g_tsNow (mk_timestamp (to_uint (nMinute + nHour * 60)) (ts_nDay (g_tsNow st))) st,
   [0; to_byte (Z.land (decToBcd (to_byte nSecond)) 0x7f);
    decToBcd (to_byte nMinute); decToBcd (to_byte nHour)]).

(** [setDate]: [1 << (nDow - 1)] is computed in a 16-bit [int] from an
    [unsigned int]; a shift by 16 or more has no defined result. *)
Definition setDate (nDow nDay nMonth nYear : Z) (st : state) : option (state * list Z) :=
  let n := to_uint (nDow - 1) in
  if n <? 16
  then Some (set_g_tsNow (mk_timestamp (ts_nTime (g_tsNow st)) (to_byte (Z.shiftl 1 n))) st,
             [3; decToBcd (to_byte nDow); decToBcd (to_byte nDay);
              decToBcd (to_byte nMonth); decToBcd (to_byte nYear)])
  else None.

(** ** The serial console *)

Definition MAX_SERIAL : nat := 30.

(** The address loop of the [S] command: [data] is a local [byte[8]], every
    element of which the loop assigns. *)
Definition ParseSerial_address (b : list Z) : option (list Z) :=
  for_loop 8 0
    (fun i data =>
       hi ← b !! (2 + i * 2)%nat;
       lo ← b !! (3 + i * 2)%nat;
       array_write data i (to_byte (Z.shiftl (CharToHex hi) 8 + CharToHex lo)))
    (replicate 8 0).

(** The two [C] commands. *)
Definition ParseSerial_clear_sensors (st : state) : option state :=
  for_loop MAX_SENSORS 0
    (fun i st => Some (EEPROM_write (Z.of_nat i * EEPROM_SENSOR_SIZE + EEPROM_SENSOR_START) 0 st))
    (set_g_nSensorQuant 0 st).

Definition ParseSerial_clear_events (st : state) : option state :=
  let st := set_g_nEventQuant 0 st in
  let st := set_g_tsNextEvent (mk_timestamp 0 (ts_nDay (g_tsNextEvent st))) st in
  for_loop MAX_EVENTS 0
    (fun i st => Some (EEPROM_write (Z.of_nat i * EEPROM_EVENT_SIZE + EEPROM_EVENT_START) 0 st))
    st.

(** [ParseSerial] on the buffer [b] with the cursor at [nCursor].  [r] is the
    result of the bus read that ends [AddSensor], [regs] what the clock chip
    returns to the final [getTime], [bSave] the default of [AddEvent]'s last
    parameter (declared in the header).  What the commands print is left
    out: the listing commands, [s] (Scan), [d] and the help text leave the
    state as it is.  Character arithmetic is done in [int] and narrowed on
    assignment. *)
Definition ParseSerial (b : list Z) (nCursor : nat) (r : Z) (regs : rtc_regs)
  (bSave : bool) (st : state) : option state :=
  c0 ← b !! 0%nat;
  if c0 =? 83 (* 'S' *) then
    if (20 <=? nCursor)%nat then
      data ← ParseSerial_address b;
      c19 ← b !! 19%nat;
      AddSensor data (to_byte (c19 - 48)) r st
    else Some st
  else if c0 =? 69 (* 'E' *) then
    if (5 <=? nCursor)%nat then
      c1 ← b !! 1%nat;
      if c1 =? 45 (* '-' *) then
        c3 ← b !! 3%nat;
        c4 ← b !! 4%nat;
        let nEvent := to_byte ((c3 - 48) * 10) in
        let nEvent := to_byte (nEvent + (c4 - 48)) in
        DeleteEvent (Z.to_nat nEvent) st
      else if negb (c1 =? 43 (* '+' *)) then Some st
      else if (nCursor <? 18)%nat then Some st
      else if (MAX_EVENTS <=? g_nEventQuant st)%nat then Some st
      else
        c3 ← b !! 3%nat;
        c4 ← b !! 4%nat;
        let nDays := to_byte (Z.shiftl (CharToHex c3) 4 + CharToHex c4) in
        c6 ← b !! 6%nat;
        c7 ← b !! 7%nat;
        c9 ← b !! 9%nat;
        c10 ← b !! 10%nat;
        let nTime := to_uint ((c6 - 48) * 600 + (c7 - 48) * 60 + (c9 - 48) * 10 + c10 - 48) in
        c12 ← b !! 12%nat;
        let nZone := to_byte (c12 - 48) in
        c15 ← b !! 15%nat;
        c16 ← b !! 16%nat;
        c17 ← b !! 17%nat;
        let nValue := to_int ((c15 - 48) * 100 + (c16 - 48) * 10 + c17 - 48) in
        c14 ← b !! 14%nat;
        let nValue := if c14 =? 45 (* '-' *) then to_int (- nValue) else nValue in
        st ← AddEvent nZone nDays nTime nValue bSave st;
        ProcessEvents st
    else Some st
  else if c0 =? 90 (* 'Z' *) then
    if (8 <=? nCursor)%nat then
      c2 ← b !! 2%nat;
      let nZone := to_byte (c2 - 48) in
      if 9 <? nZone then Some st
      else
        c4 ← b !! 4%nat;
        st ← zone_update (Z.to_nat nZone) (with_nHyst (to_byte ((c4 - 48) * 10))) st;
        c5 ← b !! 5%nat;
        st ← zone_update (Z.to_nat nZone)
               (fun z => with_nHyst (to_byte (zn_nHyst z + (c5 - 48))) z) st;
        c7 ← b !! 7%nat;
        st ← zone_update (Z.to_nat nZone) (with_bSpace (negb (c7 =? 48))) st;
        SaveZone (Z.to_nat nZone) st
    else Some st
  else if c0 =? 84 (* 'T' *) then
    if (7 <=? nCursor)%nat then
      c2 ← b !! 2%nat;
      c3 ← b !! 3%nat;
      let nHour := to_uint (to_uint (10 * (c2 - 48)) + (c3 - 48)) in
      c5 ← b !! 5%nat;
      c6 ← b !! 6%nat;
      let nMinute := to_uint (to_uint (10 * (c5 - 48)) + (c6 - 48)) in
      if (nCursor <? 10)%nat then Some st
      else
        c8 ← b !! 8%nat;
        c9 ← b !! 9%nat;
        let nSecond := to_uint (to_uint (10 * (c8 - 48)) + (c9 - 48)) in
        let st := fst (setTime nHour nMinute nSecond st) in
        if (nCursor <? 21)%nat then Some st
        else
          c11 ← b !! 11%nat;
          let nDow := to_uint (c11 - 48) in
          c13 ← b !! 13%nat;
          c14 ← b !! 14%nat;
          let nDay := to_uint (to_uint (10 * (c13 - 48)) + (c14 - 48)) in
          c16 ← b !! 16%nat;
          c17 ← b !! 17%nat;
          let nMonth := to_uint (to_uint (10 * (c16 - 48)) + (c17 - 48)) in
          c19 ← b !! 19%nat;
          c20 ← b !! 20%nat;
          let nYear := to_uint (to_uint (10 * (c19 - 48)) + (c20 - 48)) in
          p ← setDate nDow nDay nMonth nYear st;
          Some (fst (getTime regs (fst p)))
    else Some (fst (getTime regs st))
  else if c0 =? 67 (* 'C' *) then
    if (nCursor <? 2)%nat then Some st
    else
      c1 ← b !! 1%nat;
      if c1 =? 83 (* 'S' *) then ParseSerial_clear_sensors st
      else if c1 =? 69 (* 'E' *) then ParseSerial_clear_events st
      else Some st
  else Some st.

(** [ReadSerial] while the bytes of [incoming] are available: the state, the
    buffer, the cursor, the bytes not yet read and the result. *)
Fixpoint ReadSerial (incoming : list Z) (b : list Z) (nCursor : nat) (r : Z)
  (regs : rtc_regs) (bSave : bool) (st : state)
  : option (state * list Z * nat * list Z * bool) :=
  match incoming with
  | [] => Some (st, b, if (MAX_SERIAL <=? nCursor)%nat then 0%nat else nCursor, [], false)
  | c :: rest =>
      if (nCursor <? MAX_SERIAL)%nat then
        b ← array_write b nCursor (to_byte c);
        c' ← b !! nCursor;
        if (c' =? 10) || (c' =? 13) then
          st ← ParseSerial b nCursor r regs bSave st;
          Some (st, b, 0%nat, rest, true)
        else ReadSerial rest b (S nCursor) r regs bSave st
      else Some (st, b, 0%nat, incoming, false)
  end.

(** A line is free of line ends. *)
Definition no_eol (l : list Z) : Prop := Forall (fun c => to_byte c <> 10 /\ to_byte c <> 13) l.

(** The buffer after the characters of [l] went in from the cursor [c] on. *)
Fixpoint buffer_with (l : list Z) (c : nat) (b : list Z) : list Z :=
  match l with
  | [] => b
  | x :: l' => buffer_with l' (S c) (<[c := to_byte x]> b)
  end.

(** ** Reading a sensor over the bus *)

(** [nValue * 6.25] converted to the [int] the function returns: the product
    of a 16-bit integer and 6.25 is exact in the 32-bit [double] of the
    target, the conversion truncates, and has no defined result outside
    [int]. *)
Definition times_6_25 (nValue : Z) : option Z :=
  let v := Z.quot (nValue * 25) 4 in
  if (-32768 <=? v) && (v <=? 32767) then Some v else None.

(** [int GetTemperature(byte* pAddress)] on the nine scratchpad bytes [data]
    the sensor returns; [crc8] is the checksum of the OneWire library. *)
Definition GetTemperature_address (crc8 : list Z -> Z) (data : list Z) : option Z :=
  d8 ← data !! 8%nat;
  if crc8 (take 8 data) =? d8 then
    d0 ← data !! 0%nat;
    d1 ← data !! 1%nat;
    let nValue := to_int (d0 + Z.shiftl d1 8) in
    let nValue :=
      if negb (Z.land (to_uint nValue) 0x8000 =? 0)
      then to_int (to_uint (Z.lxor (to_uint nValue) 0xffff + 1))
      else nValue in
    times_6_25 nValue
  else Some (-2000).

(** The scratchpad of a sensor at [t] sixteenths of a degree. *)
Definition scratchpad (crc8 : list Z -> Z) (t : Z) (rest : list Z) : list Z :=
  let body := to_byte t :: to_byte (t / 256) :: rest in
  body ++ [crc8 body].

(** ** Buttons *)

Record ui := mk_ui {
  g_nSelectedZone : Z;   (* byte: 0xFF shows the clock *)
  g_bEdit : bool
}.

(** [ToggleEdit]; the timers and the display are left out. *)
Definition ToggleEdit (regs : rtc_regs) (u : ui) (st : state) : ui * state :=
  if g_bEdit u then (mk_ui (g_nSelectedZone u) false, st)
  else (mk_ui 0xFF (g_bEdit u), fst (getTime regs st)).

(** [OnButtonUp]: the set-point of the selected zone is read for the display. *)
Definition OnButtonUp (bState : bool) (regs : rtc_regs) (u : ui) (st : state)
  : option (ui * state) :=
  if bState then Some (u, st)
  else if g_bEdit u then Some (ToggleEdit regs u st)
  else
    let u := mk_ui (to_byte (g_nSelectedZone u + 1)) (g_bEdit u) in
    if 9 <? g_nSelectedZone u then Some (mk_ui 0xFF (g_bEdit u), fst (getTime regs st))
    else
      z ← g_zones st !! Z.to_nat (g_nSelectedZone u);
      Some (u, st).

Definition OnButtonOk (bState : bool) (u : ui) : ui :=
  if bState then u
  else if g_nSelectedZone u =? 0xFF then u
  else if negb (g_bEdit u) then mk_ui (g_nSelectedZone u) true
  else mk_ui (g_nSelectedZone u) false.

(** What the user does, or the display timer running out. *)
(** What [loop] passes on: a change of a button, or the display timer
    running out; [regs] is what the clock chip returns if it is read. *)
Inductive ui_event :=
| ButtonUp (bState : bool) (regs : rtc_regs)
| ButtonOk (bState : bool)
| DisplayTimeout (regs : rtc_regs).

Definition ui_step (ev : ui_event) (p : ui * state) : option (ui * state) :=
  match ev with
  | ButtonUp bState regs => OnButtonUp bState regs (fst p) (snd p)
  | ButtonOk bState => Some (OnButtonOk bState (fst p), snd p)
  | DisplayTimeout regs => Some (ToggleEdit regs (fst p) (snd p))
  end.

Fixpoint ui_run (evs : list ui_event) (p : ui * state) : option (ui * state) :=
  match evs with
  | [] => Some p
  | ev :: evs' => p' ← ui_step ev p; ui_run evs' p'
  end.

(** The selection is a zone of [g_zones] or the clock, and editing needs a
    selected zone. *)
Definition ui_ok (u : ui) : Prop :=
  (g_nSelectedZone u = 0xFF \/ 0 <= g_nSelectedZone u <= 9) /\
  (g_bEdit u = true -> 0 <= g_nSelectedZone u <= 9).

(** ** Command lines, as character codes in the 30-byte buffer *)

Definition in_buffer (l : list Z) : list Z := take 30 (l ++ replicate 30 0).

(** S 28FF4A1B2C3D4E5F 1 *)
Definition line_S : list Z :=
  [83; 32; 50; 56; 70; 70; 52; 65; 49; 66; 50; 67; 51; 68; 52; 69; 53; 70; 32; 49].
(** E+ 02 07:00 1 +200 *)
Definition line_E_plus : list Z :=
  [69; 43; 32; 48; 50; 32; 48; 55; 58; 48; 48; 32; 49; 32; 43; 50; 48; 48].
(** Z 3 15 1 *)
Definition line_Z : list Z := [90; 32; 51; 32; 49; 53; 32; 49].
(** CE and CS *)
Definition line_CE : list Z := [67; 69].
Definition line_CS : list Z := [67; 83].

(** The event an [E+] line spells: days as two hexadecimal characters, the
    time as hh:mm, the zone as one character, a sign and three digits. *)
Definition ParseSerial_event (b : list Z) : event :=
  let c k := default 0 (b !! k) in
  let v := (c 15%nat - 48) * 100 + (c 16%nat - 48) * 10 + (c 17%nat - 48) in
  mk_event ((10 * (c 6%nat - 48) + (c 7%nat - 48)) * 60
            + 10 * (c 9%nat - 48) + (c 10%nat - 48))
           (CharToHex (c 3%nat) * 16 + CharToHex (c 4%nat))
           (to_byte (c 12%nat - 48))
           (if c 14%nat =? 45 then - v else v).

Definition is_digit (c : Z) : Prop := 48 <= c <= 57.

(** E+ 02 07:00 : +200, the zone character being the one after 9. *)
Definition line_E_plus_zone_10 : list Z :=
  [69; 43; 32; 48; 50; 32; 48; 55; 58; 48; 48; 32; 58; 32; 43; 50; 48; 48].

(** The blank state on Monday at 07:00. *)
Definition blank_monday_0700 : state := set_g_tsNow (mk_timestamp 420 2) blank_state.

(** The selection at power-on: the clock is shown, nothing is edited. *)
Definition ui_power_on : ui := mk_ui 0xFF false.

(** A checksum for the examples: the sum of the bytes. *)
Definition sum_crc (l : list Z) : Z := to_byte (foldr Z.add 0 l).

(** Proof step: a buffer of 30 bytes, spelled out byte by byte. *)
Ltac buffer_cases b Hb :=
  do 30 (destruct b as [|? b]; [discriminate Hb|]);
  destruct b; [clear Hb | discriminate Hb].


(** * Basic facts *)

Lemma array_write_Some {A} (a : list A) i x :
  (i < length a)%nat -> array_write a i x = Some (<[i:=x]> a).
Proof. intros H. unfold array_write. destruct (decide (i < length a)%nat); [done | lia]. Qed.

Lemma event_update_Some i f st e :
  g_events st !! i = Some e ->
  event_update i f st = Some (set_g_events (<[i := f e]> (g_events st)) st).
Proof. intros H. unfold event_update. rewrite H. reflexivity. Qed.

Lemma zone_update_Some i f st z :
  g_zones st !! i = Some z ->
  zone_update i f st = Some (set_g_zones (<[i := f z]> (g_zones st)) st).
Proof. intros H. unfold zone_update. rewrite H. reflexivity. Qed.

Lemma sensor_update_Some i f st s :
  g_sensors st !! i = Some s ->
  sensor_update i f st = Some (set_g_sensors (<[i := f s]> (g_sensors st)) st).
Proof. intros H. unfold sensor_update. rewrite H. reflexivity. Qed.

Lemma for_loop_S {S} n i (body : nat -> S -> option S) s :
  for_loop (Datatypes.S n) i body s = body i s ≫= for_loop n (Datatypes.S i) body.
Proof. reflexivity. Qed.

Lemma existsb_pointwise {A} (f g : A -> bool) (l : list A) :
  (forall x, f x = g x) -> existsb f l = existsb g l.
Proof. intros H. induction l as [|x l IH]; simpl; [reflexivity|]. by rewrite H, IH. Qed.

(** * DeleteEvent *)

Lemma SaveEvent_Some i st e :
  g_events st !! i = Some e ->
  exists st', SaveEvent i st = Some st' /\
    g_events st' = g_events st /\ only_events_changed st st' /\
    stored_event e (EEPROM st') (Z.of_nat i * 10 + 200) /\
    (forall a, ~ in_event_record i a -> EEPROM st' a = EEPROM st a).
Proof.
  intros H. unfold SaveEvent. rewrite H. simpl. eexists. split; [reflexivity|].
  unfold EEPROM_EVENT_SIZE, EEPROM_EVENT_START, stored_event, only_events_changed,
    in_event_record. simpl.
  repeat split; try reflexivity;
    repeat match goal with
      | |- context [?a =? ?b] => destruct (Z.eqb_spec a b); try lia; try reflexivity
      end.
  intros a Ha.
  repeat match goal with
    | |- context [?a =? ?b] => destruct (Z.eqb_spec a b); try lia; try reflexivity
    end.
Qed.

(** One pass of the compaction loop copies the whole next record. *)
Lemma DeleteEvent_body_copy i st old src :
  g_events st !! i = Some old ->
  g_events st !! (i + 1)%nat = Some src ->
  DeleteEvent_body i st = SaveEvent i (set_g_events (<[i := src]> (g_events st)) st).
Proof.
  intros Hi Hn. unfold DeleteEvent_body.
  assert (Hlt : (i < length (g_events st))%nat) by (eapply lookup_lt_Some; eauto).
  rewrite Hn. simpl. rewrite (event_update_Some _ _ _ _ Hi). simpl.
  do 3 (rewrite list_lookup_insert_ne by lia; rewrite Hn; simpl;
        erewrite event_update_Some by (simpl; apply list_lookup_insert_eq; done);
        simpl; rewrite list_insert_insert_eq).
  destruct src; reflexivity.
Qed.

(** A pass needs the slot after the one it fills. *)
Lemma DeleteEvent_body_out_of_bounds i st :
  g_events st !! (i + 1)%nat = None -> DeleteEvent_body i st = None.
Proof. intros H. unfold DeleteEvent_body. rewrite H. reflexivity. Qed.

Lemma DeleteEvent_body_length i st st' :
  DeleteEvent_body i st = Some st' -> length (g_events st') = length (g_events st).
Proof.
  intros H.
  destruct (g_events st !! (i + 1)%nat) as [src|] eqn:Hn;
    [| rewrite DeleteEvent_body_out_of_bounds in H by done; discriminate].
  destruct (g_events st !! i) as [old|] eqn:Hi.
  - rewrite (DeleteEvent_body_copy _ _ _ _ Hi Hn) in H.
    destruct (SaveEvent_Some i (set_g_events (<[i:=src]> (g_events st)) st) src)
      as (st1 & E & Hev & _).
    { simpl. apply list_lookup_insert_eq. eapply lookup_lt_Some; eauto. }
    rewrite E in H. injection H as <-. rewrite Hev. simpl. apply length_insert.
  - apply lookup_ge_None in Hi. apply lookup_lt_Some in Hn. lia.
Qed.

Lemma only_events_changed_refl st : only_events_changed st st.
Proof. unfold only_events_changed. repeat split. Qed.

Lemma only_events_changed_trans st1 st2 st3 :
  only_events_changed st1 st2 -> only_events_changed st2 st3 ->
  only_events_changed st1 st3.
Proof.
  unfold only_events_changed.
  intros (?&?&?&?&?&?&?&?) (?&?&?&?&?&?&?&?). repeat split; congruence.
Qed.

(** The compaction loop over the slots [k, k + n), all of them and their
    successors inside the array. *)
Lemma DeleteEvent_loop n : forall k st,
  (k + n < length (g_events st))%nat ->
  exists st', for_loop n k DeleteEvent_body st = Some st' /\
    length (g_events st') = length (g_events st) /\
    only_events_changed st st' /\
    (forall j, (j < k)%nat -> g_events st' !! j = g_events st !! j) /\
    (forall j, (k <= j < k + n)%nat -> g_events st' !! j = g_events st !! (j + 1)%nat) /\
    (forall j, (k + n <= j)%nat -> g_events st' !! j = g_events st !! j) /\
    (forall j e, (k <= j < k + n)%nat -> g_events st !! (j + 1)%nat = Some e ->
                 stored_event e (EEPROM st') (Z.of_nat j * 10 + 200)) /\
    (forall a, (forall j, (k <= j < k + n)%nat -> ~ in_event_record j a) ->
               EEPROM st' a = EEPROM st a).
Proof.
  induction n as [|n IH]; intros k st Hlen.
  - exists st. simpl. split; [reflexivity|]. split; [reflexivity|].
    split; [apply only_events_changed_refl|].
    repeat split; intros; try reflexivity; lia.
  - destruct (lookup_lt_is_Some_2 (g_events st) k) as [old Hold]; [lia|].
    destruct (lookup_lt_is_Some_2 (g_events st) (k + 1)) as [src Hsrc]; [lia|].
    rewrite for_loop_S, (DeleteEvent_body_copy _ _ _ _ Hold Hsrc).
    destruct (SaveEvent_Some k (set_g_events (<[k:=src]> (g_events st)) st) src)
      as (st1 & E & Hev & Hfr & Hrec & Hrom).
    { simpl. apply list_lookup_insert_eq. lia. }
    rewrite E. simpl in Hev, Hfr |- *.
    destruct (IH (S k) st1) as (st' & E' & Hlen' & Hfr' & Hlo & Hmid & Hhi & Hst & Hrom').
    { rewrite Hev, length_insert. lia. }
    exists st'. split; [exact E'|].
    split; [rewrite Hlen', Hev; apply length_insert|].
    split.
    { eapply only_events_changed_trans; [|exact Hfr']. exact Hfr. }
    split; [|split; [|split; [|split]]].
    + intros j Hj. rewrite Hlo by lia. rewrite Hev.
      apply list_lookup_insert_ne. lia.
    + intros j Hj. destruct (decide (j = k)) as [->|Hne].
      * rewrite Hlo by lia. rewrite Hev, Hsrc. apply list_lookup_insert_eq. lia.
      * rewrite Hmid by lia. rewrite Hev. apply list_lookup_insert_ne. lia.
    + intros j Hj. rewrite Hhi by lia. rewrite Hev. apply list_lookup_insert_ne. lia.
    + intros j e Hj He. destruct (decide (j = k)) as [->|Hne].
      * assert (e = src) by congruence. subst e.
        unfold stored_event in *.
        rewrite !Hrom'; [exact Hrec | | | | | |];
          intros j' Hj'; unfold in_event_record; lia.
      * apply Hst; [lia|]. rewrite Hev. rewrite list_lookup_insert_ne by lia. exact He.
    + intros a Ha. rewrite Hrom'.
      * apply Hrom. apply Ha. lia.
      * intros j Hj. apply Ha. lia.
Qed.

(** C3 (as amended).  [DeleteEvent(nEvent)] with [nEvent >= g_nEventQuant]
    returns at once and leaves the whole state as it was.  With
    [nEvent < g_nEventQuant] and fewer than [MAX_EVENTS] events it copies
    record [j + 1] into slot [j] for every [j] in [nEvent, g_nEventQuant)
    (one slot more than [nEvent, g_nEventQuant - 1): slot
    [g_nEventQuant - 1] receives whatever lies just past the last event) and
    saves each of these slots, so every event that was at an index above
    [nEvent] ends one slot lower with the same fields and in the same
    order; the slots below [nEvent] and from [g_nEventQuant] on, the store
    outside the saved records and the rest of the state stay as they were,
    and the count goes down by exactly one. *)
Theorem DeleteEvent_compacts (nEvent : nat) (st : state) :
  length (g_events st) = MAX_EVENTS ->
  ((g_nEventQuant st <= nEvent)%nat -> DeleteEvent nEvent st = Some st) /\
  ((nEvent < g_nEventQuant st < MAX_EVENTS)%nat ->
   exists st', DeleteEvent nEvent st = Some st' /\
     g_nEventQuant st' = (g_nEventQuant st - 1)%nat /\
     (forall j, (j < nEvent)%nat -> g_events st' !! j = g_events st !! j) /\
     (forall j, (nEvent <= j < g_nEventQuant st)%nat ->
                g_events st' !! j = g_events st !! (j + 1)%nat) /\
     (forall j, (g_nEventQuant st <= j)%nat -> g_events st' !! j = g_events st !! j) /\
     (forall j e, (nEvent <= j < g_nEventQuant st)%nat ->
                  g_events st !! (j + 1)%nat = Some e ->
                  stored_event e (EEPROM st') (Z.of_nat j * 10 + 200)) /\
     (forall a, (forall j, (nEvent <= j < g_nEventQuant st)%nat -> ~ in_event_record j a) ->
                EEPROM st' a = EEPROM st a) /\
     g_nSensorQuant st' = g_nSensorQuant st /\ g_sensors st' = g_sensors st /\
     g_zones st' = g_zones st /\ g_tsNow st' = g_tsNow st /\
     g_tsNextEvent st' = g_tsNextEvent st /\
     PIN_BOILER st' = PIN_BOILER st /\ PIN_PUMP st' = PIN_PUMP st).
Proof.
  intros Hlen. split.
  - intros Hge. unfold DeleteEvent.
    destruct (Nat.leb_spec (g_nEventQuant st) nEvent); [reflexivity | lia].
  - intros [Hlt Hmax]. unfold DeleteEvent.
    destruct (Nat.leb_spec (g_nEventQuant st) nEvent); [lia|].
    destruct (DeleteEvent_loop (g_nEventQuant st - nEvent) nEvent st)
      as (st1 & E & _ & Hfr & Hlo & Hmid & Hhi & Hst & Hrom).
    { rewrite Hlen. lia. }
    rewrite E. simpl.
    destruct Hfr as (Hsq & Heq & Hse & Hzo & Hnow & Hnext & Hb & Hp).
    eexists. split; [reflexivity|]. simpl.
    replace (nEvent + (g_nEventQuant st - nEvent))%nat with (g_nEventQuant st)
      in * by lia.
    rewrite Heq. repeat split; try assumption.
    all: match goal with
         | Hj : (_ <= ?j < _)%nat, He : _ !! _ = Some ?e |- _ =>
             destruct (Hst j e Hj He) as (?&?&?&?&?&?); assumption
         end.
Qed.

Lemma DeleteEvent_compacts_witness :
  DeleteEvent 7 three_events = Some three_events /\
  exists st', DeleteEvent 1 three_events = Some st' /\
    g_nEventQuant st' = 2%nat /\
    g_events st' !! 1%nat = Some (mk_event 1320 126 1 150).
Proof.
  destruct (DeleteEvent_compacts 7 three_events eq_refl) as [Hnop _].
  destruct (DeleteEvent_compacts 1 three_events eq_refl) as [_ Hdel].
  split.
  - apply Hnop. vm_compute. lia.
  - destruct Hdel as (st' & E & Hn & _ & Hmid & _).
    + vm_compute. lia.
    + exists st'. split; [exact E|]. split; [exact Hn|].
      rewrite (Hmid 1%nat); [reflexivity | vm_compute; lia].
Defined.

(** C3, the claim as stated, fails: with three events and a stale record in
    slot 3, deleting event 1 by the code also copies slot 3 into slot 2 and
    saves it, where copying for the slots in [index, count - 1) only would
    leave slot 2 and its stored record alone. *)
Lemma DeleteEvent_copies_one_slot_more :
  (exists st', DeleteEvent 1 three_events = Some st' /\
     g_events st' !! 2%nat = Some (mk_event 600 8 3 190) /\ EEPROM st' 220 = 8) /\
  (exists st', DeleteEvent_as_specified 1 three_events = Some st' /\
     g_events st' !! 2%nat = Some (mk_event 1320 126 1 150) /\ EEPROM st' 220 = 0).
Proof.
  split; eexists; (split; [vm_compute; reflexivity|]); split; reflexivity.
Qed.

(** The last pass of the compaction loop reads the slot after the last event:
    with the table full that slot does not exist. *)
Lemma DeleteEvent_loop_overruns n : forall k st,
  (0 < n)%nat -> (k + n = length (g_events st))%nat ->
  for_loop n k DeleteEvent_body st = None.
Proof.
  induction n as [|n IH]; intros k st Hn Hlen; [lia|].
  rewrite for_loop_S.
  destruct (DeleteEvent_body k st) as [st1|] eqn:E; [|reflexivity].
  simpl. destruct n as [|n].
  - rewrite DeleteEvent_body_out_of_bounds in E; [discriminate|].
    apply lookup_ge_None_2. lia.
  - apply IH; [lia|]. rewrite (DeleteEvent_body_length _ _ _ E). lia.
Qed.

(** C10, evaluated on the code: with all [MAX_EVENTS] slots in use,
    [DeleteEvent] of any existing event runs its last pass with
    [nEventQuant = 99] and reads [g_events[100]], outside the array: the
    call has no defined result. *)
Theorem DeleteEvent_full_table_reads_past_array (nEvent : nat) (st : state) :
  length (g_events st) = MAX_EVENTS ->
  g_nEventQuant st = MAX_EVENTS ->
  (nEvent < MAX_EVENTS)%nat ->
  DeleteEvent nEvent st = None.
Proof.
  intros Hlen Hfull Hlt. unfold DeleteEvent. rewrite Hfull.
  destruct (Nat.leb_spec MAX_EVENTS nEvent); [lia|].
  rewrite DeleteEvent_loop_overruns; [reflexivity | lia | lia].
Qed.

Lemma DeleteEvent_full_table_reads_past_array_witness :
  DeleteEvent 0 full_events = None.
Proof.
  apply DeleteEvent_full_table_reads_past_array;
    [reflexivity | reflexivity | vm_compute; lia].
Defined.

(** * ProcessEvents *)

Lemma only_setpoints_changed_refl st : only_setpoints_changed st st.
Proof. unfold only_setpoints_changed. repeat split. Qed.

Lemma only_setpoints_changed_trans st1 st2 st3 :
  only_setpoints_changed st1 st2 -> only_setpoints_changed st2 st3 ->
  only_setpoints_changed st1 st3.
Proof.
  unfold only_setpoints_changed.
  intros (?&?&?&?&?&?&?&?&?&Hz) (?&?&?&?&?&?&?&?&?&Hz').
  repeat split; try congruence; intros z; rewrite Hz'; apply Hz.
Qed.

(** What one pass of the loop of [ProcessEvents] does, when it is defined. *)
Lemma ProcessEvents_body_Some k st st' :
  ProcessEvents_body k st = Some st' ->
  exists e, g_events st !! k = Some e /\
    only_setpoints_changed st st' /\
    (if event_due (g_tsNow st) e
     then exists zn, g_zones st !! zone_index e = Some zn /\
            g_zones st' = <[zone_index e := with_nSetpoint (ev_nValue e) zn]> (g_zones st)
     else g_zones st' = g_zones st) /\
    g_tsNextEvent st' =
      (if event_later_today (g_tsNow st) e && (ev_nTime e <? ts_nTime (g_tsNextEvent st))
       then mk_timestamp (ev_nTime e) (ts_nDay (g_tsNow st))
       else g_tsNextEvent st).
Proof.
  unfold ProcessEvents_body. intros H.
  destruct (g_events st !! k) as [e|] eqn:He; [|discriminate].
  simpl in H. exists e. split; [reflexivity|].
  fold (event_due (g_tsNow st) e) in H.
  destruct (event_due (g_tsNow st) e) eqn:Hdue.
  - unfold zone_update in H. fold (zone_index e) in H.
    destruct (g_zones st !! zone_index e) as [zn|] eqn:Hz; [|discriminate].
    simpl in H. fold (event_later_today (g_tsNow st) e) in H.
    assert (Hfr : only_setpoints_changed st
              (set_g_zones (<[zone_index e:=with_nSetpoint (ev_nValue e) zn]> (g_zones st)) st)).
    { unfold only_setpoints_changed. simpl. repeat split.
      - apply length_insert.
      - intros z. destruct (decide (z = zone_index e)) as [->|Hne].
        + rewrite list_lookup_insert_eq by (eapply lookup_lt_Some; eauto).
          rewrite Hz. reflexivity.
        + rewrite list_lookup_insert_ne by done. reflexivity. }
    destruct (event_later_today (g_tsNow st) e && (ev_nTime e <? ts_nTime (g_tsNextEvent st)));
      injection H as <-; simpl; (split; [exact Hfr|]); (split; [eauto | reflexivity]).
  - simpl in H. fold (event_later_today (g_tsNow st) e) in H.
    destruct (event_later_today (g_tsNow st) e && (ev_nTime e <? ts_nTime (g_tsNextEvent st)));
      injection H as <-; simpl;
      (split; [exact (only_setpoints_changed_refl st)|]); split; reflexivity.
Qed.

(** A pass is defined when the event slot exists and, if the event is due,
    its zone does. *)
Lemma ProcessEvents_body_total k st e :
  g_events st !! k = Some e ->
  (event_due (g_tsNow st) e = true -> (zone_index e < length (g_zones st))%nat) ->
  exists st', ProcessEvents_body k st = Some st'.
Proof.
  intros He Hz. unfold ProcessEvents_body. rewrite He. simpl.
  fold (event_due (g_tsNow st) e).
  destruct (event_due (g_tsNow st) e).
  - destruct (lookup_lt_is_Some_2 _ _ (Hz eq_refl)) as [zn Hzn].
    fold (zone_index e). rewrite (zone_update_Some _ _ _ _ Hzn). simpl.
    match goal with |- context [if ?b then _ else _] => destruct b end; eauto.
  - simpl. match goal with |- context [if ?b then _ else _] => destruct b end; eauto.
Qed.

(** The scan over the events [k, k + n), when it is defined: a zone that no
    due event names keeps its record; a due event that no later due event
    of the same zone follows leaves its value as the zone's set-point; and
    without an event later today the next-event timestamp is left alone. *)
Lemma ProcessEvents_loop_Some n : forall k st st',
  for_loop n k ProcessEvents_body st = Some st' ->
  only_setpoints_changed st st' /\
  (forall z,
     (forall j e, (k <= j < k + n)%nat -> g_events st !! j = Some e ->
                  event_due (g_tsNow st) e = true -> zone_index e <> z) ->
     g_zones st' !! z = g_zones st !! z) /\
  (forall j e, (k <= j < k + n)%nat -> g_events st !! j = Some e ->
     event_due (g_tsNow st) e = true ->
     (forall j' e', (j < j' < k + n)%nat -> g_events st !! j' = Some e' ->
                    event_due (g_tsNow st) e' = true -> zone_index e' <> zone_index e) ->
     zn_nSetpoint <$> g_zones st' !! zone_index e = Some (ev_nValue e)) /\
  ((forall j e, (k <= j < k + n)%nat -> g_events st !! j = Some e ->
                event_later_today (g_tsNow st) e = false) ->
   g_tsNextEvent st' = g_tsNextEvent st).
Proof.
  induction n as [|n IH]; intros k st st' H.
  - simpl in H. injection H as <-.
    split; [apply only_setpoints_changed_refl|].
    split; [reflexivity|]. split; [intros; lia | reflexivity].
  - rewrite for_loop_S in H.
    destruct (ProcessEvents_body k st) as [st1|] eqn:E; [|discriminate].
    simpl in H.
    destruct (ProcessEvents_body_Some _ _ _ E) as (e0 & He0 & Hfr1 & Hz1 & Hnext1).
    destruct (IH _ _ _ H) as (Hfr & Hkeep & Hlast & Hnext).
    assert (Hev : g_events st1 = g_events st) by apply Hfr1.
    assert (Hnow : g_tsNow st1 = g_tsNow st) by apply Hfr1.
    rewrite Hev, Hnow in Hkeep, Hlast, Hnext.
    split; [eapply only_setpoints_changed_trans; eauto|].
    split; [|split].
    + intros z Hz. rewrite Hkeep by (intros j e Hj; apply (Hz j); lia).
      destruct (event_due (g_tsNow st) e0) eqn:Hdue; [|by rewrite Hz1].
      destruct Hz1 as (zn & _ & ->).
      apply list_lookup_insert_ne. apply (Hz k e0); [lia | done | done].
    + intros j e Hj He Hdue Hlater.
      destruct (decide (j = k)) as [->|Hne].
      * assert (e = e0) by congruence. subst e0.
        rewrite Hkeep by (intros j' e' Hj'; apply (Hlater j'); lia).
        rewrite Hdue in Hz1. destruct Hz1 as (zn & Hzn & ->).
        rewrite list_lookup_insert_eq by (eapply lookup_lt_Some; eauto).
        reflexivity.
      * apply (Hlast j); [lia | done | done |].
        intros j' e' Hj'. apply (Hlater j'). lia.
    + intros Hnone. rewrite Hnext by (intros j e Hj; apply (Hnone j); lia).
      rewrite Hnext1, (Hnone k e0) by (done || lia). reflexivity.
Qed.

(** The scan is defined when every slot it visits exists and every due
    event names an existing zone. *)
Lemma ProcessEvents_loop_total n : forall k st,
  (k + n <= length (g_events st))%nat ->
  (forall j e, (k <= j < k + n)%nat -> g_events st !! j = Some e ->
               event_due (g_tsNow st) e = true ->
               (zone_index e < length (g_zones st))%nat) ->
  exists st', for_loop n k ProcessEvents_body st = Some st'.
Proof.
  induction n as [|n IH]; intros k st Hlen Hz; [simpl; eauto|].
  destruct (lookup_lt_is_Some_2 (g_events st) k) as [e He]; [lia|].
  destruct (ProcessEvents_body_total k st e He) as [st1 E].
  { apply (Hz k); [lia | done]. }
  rewrite for_loop_S, E. simpl.
  destruct (ProcessEvents_body_Some _ _ _ E) as (_ & _ & Hfr & _).
  destruct Hfr as (_ & _ & _ & Hev & Hnow & _ & _ & _ & Hzl & _).
  apply IH.
  - rewrite Hev. lia.
  - rewrite Hev, Hnow, Hzl. intros j e' Hj. apply (Hz j). lia.
Qed.

(** Without an event later today, [ProcessEvents] ends with minute 0 on the
    day after the one the next-event timestamp held on entry. *)
Lemma ProcessEvents_no_more_today st st' :
  ProcessEvents st = Some st' ->
  (forall j e, (j < g_nEventQuant st)%nat -> g_events st !! j = Some e ->
               event_later_today (g_tsNow st) e = false) ->
  g_tsNextEvent st' = mk_timestamp 0 (next_day (ts_nDay (g_tsNextEvent st))).
Proof.
  unfold ProcessEvents. intros H Hnone.
  match type of H with context [for_loop ?n ?k ?b ?s] =>
    destruct (for_loop n k b s) as [st1|] eqn:E; [|discriminate] end.
  simpl in H. injection H as <-.
  destruct (ProcessEvents_loop_Some _ _ _ _ E) as (_ & _ & _ & Hnext).
  simpl in Hnext. unfold ProcessEvents_advance.
  rewrite Hnext by (intros j e Hj; apply (Hnone j); lia). simpl.
  unfold next_day. reflexivity.
Qed.

(** C9, evaluated on the code.  After [setup] the next-event day is 0.  On
    Monday at 07:01 an event for Monday 07:00 is added and [ProcessEvents]
    runs: no event is later today, and the next-event timestamp becomes
    minute 0 on day 0, not on Tuesday (4): the tail shifts the day the
    next-event timestamp held before, not today's.  With the next-event day
    already on Tuesday the same call moves it on to Wednesday (8). *)
Theorem ProcessEvents_shifts_previous_day :
  g_tsNextEvent <$>
    (AddEvent 1 2 420 200 true (set_g_tsNow (mk_timestamp 421 2) blank_state)
       ≫= ProcessEvents) = Some (mk_timestamp 0 0) /\
  g_tsNextEvent <$>
    (AddEvent 1 2 420 200 true
       (set_g_tsNextEvent (mk_timestamp 0 4)
          (set_g_tsNow (mk_timestamp 421 2) blank_state))
       ≫= ProcessEvents) = Some (mk_timestamp 0 8).
Proof. split; vm_compute; reflexivity. Qed.

(** When the next-event day on entry is today's single day bit, the day
    after today results: Saturday (64) wraps to Sunday (1). *)
Lemma ProcessEvents_no_more_today_from_today st st' :
  ProcessEvents st = Some st' ->
  ts_nDay (g_tsNextEvent st) = ts_nDay (g_tsNow st) ->
  In (ts_nDay (g_tsNow st)) [1; 2; 4; 8; 16; 32; 64] ->
  (forall j e, (j < g_nEventQuant st)%nat -> g_events st !! j = Some e ->
               event_later_today (g_tsNow st) e = false) ->
  ts_nTime (g_tsNextEvent st') = 0 /\
  ts_nDay (g_tsNextEvent st') =
    (if ts_nDay (g_tsNow st) =? 64 then 1 else 2 * ts_nDay (g_tsNow st)).
Proof.
  intros H Hday Hbit Hnone.
  rewrite (ProcessEvents_no_more_today _ _ H Hnone), Hday. simpl.
  split; [reflexivity|].
  simpl in Hbit.
  destruct Hbit as [<-|[<-|[<-|[<-|[<-|[<-|[<-|[]]]]]]]]; reflexivity.
Qed.

(** * The scheduler in the control cycle *)

(** With today's flag in the day field of [now], the test the code makes is
    the test for the flag in the day mask. *)
Lemma bit_and_nonzero_day_bit (nDays : Z) (k : nat) :
  bit_and_nonzero nDays (day_bit k) = Z.testbit nDays (Z.of_nat k).
Proof.
  unfold bit_and_nonzero, day_bit.
  destruct (Z.testbit nDays (Z.of_nat k)) eqn:Hb.
  - destruct (Z.eqb_spec (Z.land nDays (Z.shiftl 1 (Z.of_nat k))) 0) as [E|]; [|reflexivity].
    apply (f_equal (fun x => Z.testbit x (Z.of_nat k))) in E.
    rewrite Z.land_spec, Hb, Z.shiftl_spec, Z.sub_diag, Z.bits_0 in E by lia.
    discriminate.
  - assert (E : Z.land nDays (Z.shiftl 1 (Z.of_nat k)) = 0).
    { apply Z.bits_inj'. intros n Hn.
      rewrite Z.land_spec, Z.shiftl_spec, Z.bits_0 by lia.
      destruct (Z.eq_dec n (Z.of_nat k)) as [->|Hne]; [by rewrite Hb|].
      destruct (Z.lt_ge_cases n (Z.of_nat k)).
      - rewrite (Z.testbit_neg_r 1) by lia. apply andb_false_r.
      - replace (Z.testbit 1 (n - Z.of_nat k)) with false; [apply andb_false_r|].
        symmetry. apply (Z.bits_above_log2 1); simpl; lia. }
    rewrite E. reflexivity.
Qed.

Lemma event_due_on (now : timestamp) (k : nat) (e : event) :
  ts_nDay now = day_bit k -> event_due now e = due_on k (ts_nTime now) e.
Proof.
  intros Hday. unfold event_due, due_on. by rewrite Hday, bit_and_nonzero_day_bit.
Qed.

(** C2 (as amended).  In a control cycle whose clock read leaves in [now]
    the minute and the flag of today (day [k] of the week), when the
    scheduler runs (the guard in [loop] is open: the next-event minute is
    [now]'s and the next-event day includes today's flag) and every event
    due now names an existing zone: an event whose day mask includes
    today's flag and whose time is [now]'s minute, and which no later event
    due now for the same zone follows in the table, has its value as its
    zone's set-point after the cycle's event evaluation. *)
Theorem loop_events_applies_last_due
  (regs : rtc_regs) (st : state) (k i : nat) (e : event) :
  let now := g_tsNow (fst (getTime regs st)) in
  (k < 7)%nat ->
  ts_nDay now = day_bit k ->
  (g_nEventQuant st <= length (g_events st))%nat ->
  ts_nTime (g_tsNextEvent st) = ts_nTime now ->
  Z.testbit (ts_nDay (g_tsNextEvent st)) (Z.of_nat k) = true ->
  (forall j e', (j < g_nEventQuant st)%nat -> g_events st !! j = Some e' ->
                due_on k (ts_nTime now) e' = true ->
                (zone_index e' < length (g_zones st))%nat) ->
  (i < g_nEventQuant st)%nat ->
  g_events st !! i = Some e ->
  due_on k (ts_nTime now) e = true ->
  (forall j e', (i < j < g_nEventQuant st)%nat -> g_events st !! j = Some e' ->
                due_on k (ts_nTime now) e' = true -> zone_index e' <> zone_index e) ->
  exists st', loop_events regs st = Some st' /\
    zn_nSetpoint <$> g_zones st' !! zone_index e = Some (ev_nValue e).
Proof.
  intros now Hk Hbit Hcount Hmin Hday Hzones Hi He Hdue Hlast.
  assert (Hdue_on : forall e', event_due now e' = due_on k (ts_nTime now) e')
    by (intros e'; by apply event_due_on).
  unfold loop_events. subst now.
  set (st1 := fst (getTime regs st)) in *.
  change (g_tsNextEvent st1) with (g_tsNextEvent st).
  rewrite Hmin, Z.eqb_refl, Hbit, bit_and_nonzero_day_bit, Hday. cbn [andb].
  unfold ProcessEvents.
  set (st0 := set_g_tsNextEvent _ st1).
  destruct (ProcessEvents_loop_total (g_nEventQuant st0) 0 st0) as [st2 E].
  { exact Hcount. }
  { intros j e' Hj He' Hd. apply (Hzones j); [simpl in Hj; lia | exact He' |].
    rewrite <- Hdue_on. exact Hd. }
  rewrite E. simpl. eexists. split; [reflexivity|].
  destruct (ProcessEvents_loop_Some _ _ _ _ E) as (_ & _ & Hset & _).
  assert (Hz : g_zones (ProcessEvents_advance st2) = g_zones st2).
  { unfold ProcessEvents_advance.
    destruct (ts_nTime (g_tsNextEvent st2) =? 65535); reflexivity. }
  rewrite Hz. apply (Hset i); [simpl; lia | exact He | |].
  - change (event_due (g_tsNow st1) e = true). rewrite Hdue_on. exact Hdue.
  - intros j e' Hj He' Hd. apply (Hlast j); [simpl in Hj; lia | exact He' |].
    rewrite <- Hdue_on. exact Hd.
Qed.

Lemma loop_events_applies_last_due_witness :
  exists st', loop_events monday_0700 two_due_events = Some st' /\
    zn_nSetpoint <$> g_zones st' !! 1%nat = Some 150.
Proof.
  apply (loop_events_applies_last_due monday_0700 two_due_events 1 1
           (mk_event 420 2 1 150)).
  - lia.
  - reflexivity.
  - vm_compute. lia.
  - reflexivity.
  - reflexivity.
  - intros j e' Hj He' _.
    assert (Hin : (j = 0 \/ j = 1)%nat) by (vm_compute in Hj; lia).
    destruct Hin as [-> | ->]; vm_compute in He'; injection He' as <-;
      vm_compute; lia.
  - vm_compute. lia.
  - reflexivity.
  - reflexivity.
  - intros j e' Hj. vm_compute in Hj. lia.
Defined.

(** C2, the claim as stated, fails: of two events due now for the same
    zone the later one overwrites the earlier.  On Monday at 07:00, with
    Monday's flag in [now] and the scheduler run, event 0 (Monday 07:00,
    zone 1, value 200) is due, yet zone 1 ends at the 150 of event 1. *)
Lemma loop_events_earlier_due_event_overwritten :
  let now := g_tsNow (fst (getTime monday_0700 two_due_events)) in
  ts_nDay now = day_bit 1 /\
  g_events two_due_events !! 0%nat = Some (mk_event 420 2 1 200) /\
  due_on 1 (ts_nTime now) (mk_event 420 2 1 200) = true /\
  exists st', loop_events monday_0700 two_due_events = Some st' /\
    zn_nSetpoint <$> g_zones st' !! 1%nat = Some 150.
Proof.
  split; [reflexivity|]. split; [reflexivity|]. split; [reflexivity|].
  eexists. split; [vm_compute; reflexivity | reflexivity].
Qed.

(** * The thermostat comparisons *)

(** The state the two comparisons leave: ON when a tenth of the sensor value
    is under the floor, else OFF when the sensor value itself is over the
    set-point, else as before. *)
Lemma loop_thermostat_bOn v z :
  zn_bOn (loop_thermostat v z) =
    if Z.quot v 10 <? to_int (zn_nSetpoint z - zn_nHyst z) then true
    else if zn_nSetpoint z <? v then false else zn_bOn z.
Proof.
  unfold loop_thermostat.
  destruct (zn_nSetpoint z <? v); simpl;
    destruct (Z.quot v 10 <? to_int (zn_nSetpoint z - zn_nHyst z)); reflexivity.
Qed.

Lemma loop_thermostat_frame v z :
  zn_nSetpoint (loop_thermostat v z) = zn_nSetpoint z /\
  zn_nHyst (loop_thermostat v z) = zn_nHyst z /\
  zn_bSpace (loop_thermostat v z) = zn_bSpace z.
Proof.
  unfold loop_thermostat.
  destruct (zn_nSetpoint z <? v); simpl;
    destruct (Z.quot v 10 <? to_int (zn_nSetpoint z - zn_nHyst z)); auto.
Qed.

(** C1, evaluated on the code, for a zone with set-point 200 and hysteresis
    20.  The first comparison takes the sensor value as it is stored, the
    second takes a tenth of it.  Previously OFF: 179 gives ON, but so does
    181 (stays OFF in the claim), and 201 is switched OFF and then ON again
    (OFF in the claim).  Read in tenths, a sensor value of 1900 (190 tenths,
    inside the dead band) switches a zone that was ON to OFF (retained in
    the claim).  The last two lines run the whole sensor loop. *)
Theorem loop_thermostat_compares_unlike_units :
  zn_bOn (loop_thermostat 179 (mk_zone 200 20 false true)) = true /\
  zn_bOn (loop_thermostat 181 (mk_zone 200 20 false true)) = true /\
  zn_bOn (loop_thermostat 201 (mk_zone 200 20 false true)) = true /\
  zn_bOn (loop_thermostat 1900 (mk_zone 200 20 true true)) = false /\
  (loop_outputs (fun _ => 181) (one_sensor 0 false) ≫= fun st => g_zones st !! 0%nat)
    = Some (mk_zone 200 20 true true) /\
  (loop_outputs (fun _ => 1900) (one_sensor 0 true) ≫= fun st => g_zones st !! 0%nat)
    = Some (mk_zone 200 20 false true).
Proof. repeat split; vm_compute; reflexivity. Qed.

(** * The sensor loop *)

Lemma read_into_nZone r s : sn_nZone (read_into r s) = sn_nZone s.
Proof. unfold read_into. destruct (r =? -2000); reflexivity. Qed.

Lemma set_g_sensors_id st : set_g_sensors (g_sensors st) st = st.
Proof. destruct st; reflexivity. Qed.

(** The bus read of the sensor loop, when the sensor slot exists. *)
Lemma GetTemperature_read k r st s :
  (k < MAX_SENSORS)%nat ->
  g_sensors st !! k = Some s ->
  fst <$> GetTemperature k r st =
    Some (set_g_sensors (<[k := read_into r s]> (g_sensors st)) st).
Proof.
  intros Hk Hs. unfold GetTemperature, read_into.
  destruct (Nat.leb_spec MAX_SENSORS k); [lia|].
  destruct (r =? -2000).
  - simpl. rewrite list_insert_id by done. rewrite set_g_sensors_id. reflexivity.
  - rewrite (sensor_update_Some _ _ _ _ Hs). reflexivity.
Qed.

Lemma loop_sensor_bind bus k st bP bB :
  loop_sensor bus k (st, bP, bB) =
    (fst <$> GetTemperature k (bus k) st) ≫= fun st =>
      s ← g_sensors st !! k;
      st ← zone_update (Z.to_nat (sn_nZone s)) (loop_thermostat (sn_nValue s)) st;
      z ← g_zones st !! Z.to_nat (sn_nZone s);
      Some (st, (if zn_bSpace z then bP || zn_bOn z else bP), bB || zn_bOn z).
Proof.
  unfold loop_sensor.
  destruct (GetTemperature k (bus k) st) as [[st1 b]|]; reflexivity.
Qed.

(** One pass of the sensor loop, when the sensor slot and its zone exist. *)
Lemma loop_sensor_eq bus k st bP bB s zn :
  length (g_sensors st) = MAX_SENSORS ->
  g_sensors st !! k = Some s ->
  g_zones st !! Z.to_nat (sn_nZone s) = Some zn ->
  loop_sensor bus k (st, bP, bB) =
    let s' := read_into (bus k) s in
    let zn' := loop_thermostat (sn_nValue s') zn in
    Some (set_g_zones (<[Z.to_nat (sn_nZone s) := zn']> (g_zones st))
            (set_g_sensors (<[k := s']> (g_sensors st)) st),
          (if zn_bSpace zn' then bP || zn_bOn zn' else bP), bB || zn_bOn zn').
Proof.
  intros Hlen Hs Hz.
  assert (Hk : (k < MAX_SENSORS)%nat) by (rewrite <- Hlen; eapply lookup_lt_Some; eauto).
  rewrite loop_sensor_bind, (GetTemperature_read _ _ _ _ Hk Hs). simpl.
  rewrite list_lookup_insert_eq by (rewrite Hlen; exact Hk). simpl.
  rewrite read_into_nZone.
  unfold zone_update. simpl. rewrite Hz. simpl.
  rewrite list_lookup_insert_eq by (eapply lookup_lt_Some; eauto). simpl.
  reflexivity.
Qed.

(** A pass that is defined found its sensor slot and its zone. *)
Lemma loop_sensor_Some bus k st bP bB acc :
  length (g_sensors st) = MAX_SENSORS ->
  loop_sensor bus k (st, bP, bB) = Some acc ->
  exists s zn, g_sensors st !! k = Some s /\
    g_zones st !! Z.to_nat (sn_nZone s) = Some zn.
Proof.
  intros Hlen H.
  destruct (g_sensors st !! k) as [s|] eqn:Hs.
  - destruct (g_zones st !! Z.to_nat (sn_nZone s)) as [zn|] eqn:Hz; [eauto|].
    exfalso.
    assert (Hk : (k < MAX_SENSORS)%nat) by (rewrite <- Hlen; eapply lookup_lt_Some; eauto).
    rewrite loop_sensor_bind, (GetTemperature_read _ _ _ _ Hk Hs) in H. simpl in H.
    rewrite list_lookup_insert_eq in H by (rewrite Hlen; exact Hk). simpl in H.
    rewrite read_into_nZone in H. unfold zone_update in H. simpl in H.
    rewrite Hz in H. discriminate.
  - exfalso. rewrite loop_sensor_bind in H. unfold GetTemperature in H.
    destruct (MAX_SENSORS <=? k)%nat; [simpl in H; rewrite Hs in H; discriminate|].
    destruct (bus k =? -2000); [simpl in H; rewrite Hs in H; discriminate|].
    unfold sensor_update in H. rewrite Hs in H. discriminate.
Qed.

Lemma read_into_stored s : read_into (sn_nValue s) s = s.
Proof. unfold read_into. destruct (sn_nValue s =? -2000); [reflexivity|]. by destruct s. Qed.

Lemma read_into_failed r s : r = -2000 -> read_into r s = s.
Proof. intros ->. reflexivity. Qed.

(** The sensor loop only looks at the bus results of the sensors it visits. *)
Lemma sensor_loop_bus_ext bus bus' m : forall k acc,
  (forall i, (k <= i < k + m)%nat -> bus i = bus' i) ->
  for_loop m k (loop_sensor bus) acc = for_loop m k (loop_sensor bus') acc.
Proof.
  induction m as [|m IH]; intros k acc Hext; [reflexivity|].
  rewrite !for_loop_S.
  assert (Hk : loop_sensor bus k acc = loop_sensor bus' k acc).
  { destruct acc as [[st bP] bB]. unfold loop_sensor. rewrite (Hext k) by lia. reflexivity. }
  rewrite Hk. destruct (loop_sensor bus' k acc) as [acc1|]; [|reflexivity].
  simpl. apply IH. intros i Hi. apply Hext. lia.
Qed.

(** What the passes over the sensors [k, k + m) do, when they are defined. *)
Lemma sensor_loop_Some bus m : forall k st bP bB st' bP' bB',
  length (g_sensors st) = MAX_SENSORS ->
  for_loop m k (loop_sensor bus) (st, bP, bB) = Some (st', bP', bB') ->
  length (g_sensors st') = MAX_SENSORS /\
  g_nSensorQuant st' = g_nSensorQuant st /\
  (forall i, sensor_zone st' i = sensor_zone st i) /\
  (forall i, (i < k \/ k + m <= i)%nat -> g_sensors st' !! i = g_sensors st !! i) /\
  (forall i s, (k <= i < k + m)%nat -> g_sensors st !! i = Some s ->
               g_sensors st' !! i = Some (read_into (bus i) s)) /\
  (forall z, (forall i, (k <= i < k + m)%nat -> sensor_zone st i <> z) ->
             g_zones st' !! z = g_zones st !! z) /\
  ((forall i j, (k <= i < j)%nat -> (j < k + m)%nat -> sensor_zone st i <> sensor_zone st j) ->
   bB' = bB || existsb (fun i => zone_on st' (sensor_zone st i)) (seq k m) /\
   bP' = bP || existsb (fun i => zone_on_space st' (sensor_zone st i)) (seq k m)).
Proof.
  induction m as [|m IH]; intros k st bP bB st' bP' bB' Hlen H.
  - simpl in H. injection H as <- <- <-.
    repeat split; try done; try (intros; lia); simpl; by rewrite orb_false_r.
  - rewrite for_loop_S in H.
    destruct (loop_sensor bus k (st, bP, bB)) as [[[st1 bP1] bB1]|] eqn:E; [|discriminate].
    simpl in H.
    destruct (loop_sensor_Some _ _ _ _ _ _ Hlen E) as (s0 & zn & Hs0 & Hzn).
    rewrite (loop_sensor_eq _ _ _ _ _ _ _ Hlen Hs0 Hzn) in E. simpl in E.
    injection E as <- <- <-.
    set (s' := read_into (bus k) s0) in *.
    set (zn' := loop_thermostat (sn_nValue s') zn) in *.
    set (st1 := set_g_zones _ _) in *.
    assert (Hk : (k < length (g_sensors st))%nat) by (eapply lookup_lt_Some; eauto).
    assert (Hsz : forall i, sensor_zone st1 i = sensor_zone st i).
    { intros i. unfold sensor_zone. simpl. destruct (decide (i = k)) as [->|Hne].
      - rewrite list_lookup_insert_eq, Hs0 by done. unfold s'.
        by rewrite read_into_nZone.
      - by rewrite list_lookup_insert_ne. }
    assert (Hzk : sensor_zone st k = Z.to_nat (sn_nZone s0)).
    { unfold sensor_zone. by rewrite Hs0. }
    destruct (IH (S k) st1 _ _ _ _ _ ltac:(simpl; by rewrite length_insert) H)
      as (Hlen' & Hq & Hsz' & Hout & Hin & Hzones & Hacc).
    split; [exact Hlen'|]. split; [exact Hq|].
    split; [intros i; by rewrite Hsz', Hsz|].
    split; [|split; [|split]].
    + intros i Hi. rewrite Hout by lia. simpl.
      apply list_lookup_insert_ne. lia.
    + intros i s Hi Hs. destruct (decide (i = k)) as [->|Hne].
      * rewrite Hout by lia. simpl. rewrite list_lookup_insert_eq by done.
        assert (s = s0) by congruence. subst s. reflexivity.
      * apply Hin; [lia|]. simpl. by rewrite list_lookup_insert_ne.
    + intros z Hz. rewrite Hzones.
      * simpl. apply list_lookup_insert_ne. rewrite <- Hzk. apply Hz. lia.
      * intros i Hi. rewrite Hsz. apply Hz. lia.
    + intros Hdist.
      destruct Hacc as [HB HP].
      { intros i j Hi Hj. rewrite !Hsz. apply Hdist; lia. }
      assert (Hzk' : g_zones st' !! sensor_zone st k = Some zn').
      { rewrite Hzones.
        - simpl. rewrite Hzk. apply list_lookup_insert_eq. eapply lookup_lt_Some; eauto.
        - intros i Hi. rewrite Hsz. intros Heq. apply (Hdist k i); [lia | lia | done]. }
      cbn [seq existsb]. unfold zone_on at 1, zone_on_space at 1. rewrite Hzk'.
      split.
      * rewrite HB. rewrite <- orb_assoc. f_equal. f_equal.
        apply existsb_pointwise. intros i. by rewrite Hsz.
      * rewrite HP.
        replace (if zn_bSpace zn' then bP || zn_bOn zn' else bP)
          with (bP || zn_bOn zn' && zn_bSpace zn')
          by (destruct (zn_bSpace zn'), (zn_bOn zn'), bP; reflexivity).
        rewrite <- orb_assoc. f_equal. f_equal.
        apply existsb_pointwise. intros i. by rewrite Hsz.
Qed.

(** A failed read of sensor [n0] and a read that returns the value already
    stored for it give the same sensor loop. *)
Lemma sensor_loop_failed_read bus n0 s m : forall k st bP bB,
  length (g_sensors st) = MAX_SENSORS ->
  ((k <= n0)%nat -> g_sensors st !! n0 = Some s) ->
  bus n0 = -2000 ->
  for_loop m k (loop_sensor bus) (st, bP, bB) =
  for_loop m k (loop_sensor (fun i => if (i =? n0)%nat then sn_nValue s else bus i))
    (st, bP, bB).
Proof.
  induction m as [|m IH]; intros k st bP bB Hlen Hs Hfail; [reflexivity|].
  set (bus' := fun i => if (i =? n0)%nat then sn_nValue s else bus i).
  rewrite !for_loop_S.
  destruct (decide (k = n0)) as [->|Hne].
  - specialize (Hs (Nat.le_refl _)).
    assert (Hk : (n0 < MAX_SENSORS)%nat) by (rewrite <- Hlen; eapply lookup_lt_Some; eauto).
    assert (Hbody : loop_sensor bus n0 (st, bP, bB) = loop_sensor bus' n0 (st, bP, bB)).
    { rewrite !loop_sensor_bind, !(GetTemperature_read _ _ _ _ Hk Hs).
      unfold bus'. rewrite Nat.eqb_refl, read_into_stored, (read_into_failed _ _ Hfail).
      reflexivity. }
    rewrite Hbody. destruct (loop_sensor bus' n0 (st, bP, bB)) as [acc|]; [|reflexivity].
    simpl. apply sensor_loop_bus_ext. intros i Hi. unfold bus'.
    destruct (Nat.eqb_spec i n0); [lia | reflexivity].
  - assert (Hbody : loop_sensor bus k (st, bP, bB) = loop_sensor bus' k (st, bP, bB)).
    { unfold loop_sensor, bus'. destruct (Nat.eqb_spec k n0); [lia | reflexivity]. }
    rewrite <- Hbody.
    destruct (loop_sensor bus k (st, bP, bB)) as [[[st1 bP1] bB1]|] eqn:E; [|reflexivity].
    simpl.
    destruct (sensor_loop_Some bus 1 k st bP bB st1 bP1 bB1 Hlen) as (Hlen1 & _ & _ & Hout & _).
    { rewrite for_loop_S, E. reflexivity. }
    apply IH; [exact Hlen1 | | exact Hfail].
    intros Hle. rewrite Hout by lia. apply Hs. lia.
Qed.

(** A failed read in the sensor loop: the stored record stays, and the loop
    does what it does after a read that returns the stored value. *)
Lemma loop_outputs_failed_read (bus : nat -> Z) (st : state) (n : nat) (s : sensor) :
  length (g_sensors st) = MAX_SENSORS ->
  (n < g_nSensorQuant st)%nat ->
  g_sensors st !! n = Some s ->
  bus n = -2000 ->
  (forall st', loop_outputs bus st = Some st' -> g_sensors st' !! n = Some s) /\
  loop_outputs bus st =
    loop_outputs (fun i => if (i =? n)%nat then sn_nValue s else bus i) st.
Proof.
  intros Hlen Hn Hs Hfail. split.
  - intros st' H. unfold loop_outputs in H.
    destruct (for_loop _ _ _ _) as [[[st1 bP] bB]|] eqn:E; [|discriminate].
    simpl in H. injection H as <-. simpl.
    destruct (sensor_loop_Some _ _ _ _ _ _ _ _ _ Hlen E) as (_ & _ & _ & _ & Hin & _).
    rewrite (Hin n s) by (done || lia). by rewrite (read_into_failed _ _ Hfail).
  - unfold loop_outputs.
    rewrite (sensor_loop_failed_read bus n s); [reflexivity | exact Hlen | | exact Hfail].
    intros _. exact Hs.
Qed.

(** * The outputs at the end of the cycle *)

(** The head of the cycle touches nothing but the clock, zone set-points and
    the next-event timestamp. *)
Lemma loop_events_frame regs st st' :
  loop_events regs st = Some st' ->
  g_sensors st' = g_sensors st /\ g_nSensorQuant st' = g_nSensorQuant st /\
  (forall z, with_nSetpoint 0 <$> g_zones st' !! z = with_nSetpoint 0 <$> g_zones st !! z).
Proof.
  unfold loop_events.
  set (st1 := fst (getTime regs st)).
  destruct (_ && _).
  - unfold ProcessEvents.
    set (st0 := set_g_tsNextEvent _ st1).
    destruct (for_loop _ _ _ _) as [st2|] eqn:E; [|discriminate].
    simpl. intros H. injection H as <-.
    destruct (ProcessEvents_loop_Some _ _ _ _ E) as (Hfr & _).
    destruct Hfr as (Hq & _ & Hs & _ & _ & _ & _ & _ & _ & Hz).
    unfold ProcessEvents_advance.
    destruct (ts_nTime (g_tsNextEvent st2) =? 65535); simpl; auto.
  - intros H. injection H as <-. auto.
Qed.

(** C6 (as amended).  When the read of a configured sensor fails in a
    control cycle, the sensor's stored record is unchanged by the cycle,
    and the cycle's outcome (zone states and outputs included) is the one a
    successful read returning the stored value would give: the sensor's
    zone is still compared against the stored value and may be switched ON
    or OFF by it. *)
Theorem loop_failed_read_uses_stored_value
  (regs regs' : rtc_regs) (bus : nat -> Z) (st : state) (n : nat) (s : sensor) :
  length (g_sensors st) = MAX_SENSORS ->
  (n < g_nSensorQuant st)%nat ->
  g_sensors st !! n = Some s ->
  bus n = -2000 ->
  (forall st', loop regs regs' bus st = Some st' -> g_sensors st' !! n = Some s) /\
  loop regs regs' bus st =
    loop regs regs' (fun i => if (i =? n)%nat then sn_nValue s else bus i) st.
Proof.
  intros Hlen Hn Hs Hfail. unfold loop.
  destruct (loop_events regs st) as [st1|] eqn:E1; [|split; [discriminate | reflexivity]].
  cbn [mbind option_bind].
  destruct (loop_events_frame _ _ _ E1) as (Hsen & Hq & _).
  destruct (loop_outputs_failed_read bus st1 n s) as [Hkeep Heq];
    [by rewrite Hsen | by rewrite Hq | by rewrite Hsen | exact Hfail |].
  split; [|by rewrite Heq].
  intros st' H.
  destruct (loop_outputs bus st1) as [st2|] eqn:E2; [|discriminate].
  simpl in H. injection H as <-. simpl. by apply Hkeep.
Qed.

Lemma loop_failed_read_uses_stored_value_witness :
  exists st', loop monday_0700 monday_0701 (fun _ => -2000) (one_sensor 150 false) = Some st' /\
    g_sensors st' !! 0%nat = Some (mk_sensor [40; 1; 2; 3; 4; 5; 6; 7] 150 0) /\
    loop monday_0700 monday_0701 (fun i => if (i =? 0)%nat then 150 else -2000)
      (one_sensor 150 false) = Some st'.
Proof.
  destruct (loop_failed_read_uses_stored_value monday_0700 monday_0701 (fun _ => -2000)
              (one_sensor 150 false) 0
              (mk_sensor [40; 1; 2; 3; 4; 5; 6; 7] 150 0)) as [Hkeep Heq].
  - reflexivity.
  - vm_compute. lia.
  - reflexivity.
  - reflexivity.
  - destruct (loop monday_0700 monday_0701 (fun _ => -2000) (one_sensor 150 false))
      as [st'|] eqn:E.
    + exists st'. split; [reflexivity|]. split; [by apply Hkeep|]. symmetry. exact Heq.
    + vm_compute in E. discriminate.
Defined.

(** C6, the claim as stated, fails: zone 0 (set-point 200, hysteresis 20)
    is OFF and the one sensor on it holds the stored value 150.  Its read
    fails; the stored value stays, but the zone is compared against it and
    switched ON, and boiler and pump with it. *)
Lemma loop_failed_read_switches_zone :
  zone_on (one_sensor 150 false) 0 = false /\
  exists st', loop monday_0700 monday_0701 (fun _ => -2000) (one_sensor 150 false) = Some st' /\
    sn_nValue <$> g_sensors st' !! 0%nat = Some 150 /\
    zone_on st' 0 = true /\ PIN_BOILER st' = true /\ PIN_PUMP st' = true.
Proof.
  split; [reflexivity|]. eexists. split; [vm_compute; reflexivity|].
  repeat split.
Qed.

(** With at most one sensor per zone and no zone ON without a sensor, the OR
    over the sensors' zones is the OR over all zones. *)
Lemma existsb_sensor_zones (P : zone -> bool) (zi : nat -> nat) (count : nat)
  (before after : list zone) :
  (forall zn, P zn = true -> zn_bOn zn = true) ->
  (forall z, (forall i, (i < count)%nat -> zi i <> z) -> after !! z = before !! z) ->
  (forall z zn, before !! z = Some zn -> zn_bOn zn = true ->
                exists i, (i < count)%nat /\ zi i = z) ->
  existsb (fun i => match after !! zi i with Some zn => P zn | None => false end)
    (seq 0 count) = existsb P after.
Proof.
  intros HP Hkeep Hcover. apply eq_true_iff_eq. rewrite !existsb_exists. split.
  - intros (i & _ & Hi).
    destruct (after !! zi i) as [zn|] eqn:Hz; [|discriminate].
    exists zn. split; [|exact Hi].
    apply list_elem_of_In. eapply list_elem_of_lookup_2; eauto.
  - intros (zn & Hin & Hzn).
    apply list_elem_of_In, list_elem_of_lookup in Hin as [z Hz].
    assert (Hex : exists i, (i < count)%nat /\ zi i = z).
    { destruct (existsb (fun i => Nat.eqb (zi i) z) (seq 0 count)) eqn:Hb.
      - apply existsb_exists in Hb as (i & Hi & Heq).
        apply in_seq in Hi. apply Nat.eqb_eq in Heq. exists i. split; [lia | done].
      - apply (Hcover z zn); [|by apply HP].
        rewrite <- Hkeep; [exact Hz|].
        intros i Hi Heq.
        assert (Ht : existsb (fun i => Nat.eqb (zi i) z) (seq 0 count) = true).
        { apply existsb_exists. exists i. split; [apply in_seq; lia | by apply Nat.eqb_eq]. }
        congruence. }
    destruct Hex as (i & Hi & <-).
    exists i. split; [apply in_seq; lia|]. by rewrite Hz.
Qed.

(** C5 (as amended).  At the end of a control cycle that makes no access
    outside an array, if no two configured sensors are assigned to the same
    zone and every zone that calls for heat at the start has a configured
    sensor, the boiler output is the OR of the ON state of every zone and
    the pump output is the OR of the ON state of the zones whose
    space-heating flag is set. *)
Theorem loop_outputs_or_of_zones
  (regs regs' : rtc_regs) (bus : nat -> Z) (st st' : state) :
  length (g_sensors st) = MAX_SENSORS ->
  loop regs regs' bus st = Some st' ->
  (forall i j, (i < j < g_nSensorQuant st)%nat -> sensor_zone st i <> sensor_zone st j) ->
  (forall z, zone_on st z = true ->
             exists i, (i < g_nSensorQuant st)%nat /\ sensor_zone st i = z) ->
  PIN_BOILER st' = existsb zn_bOn (g_zones st') /\
  PIN_PUMP st' = existsb (fun zn => zn_bOn zn && zn_bSpace zn) (g_zones st').
Proof.
  intros Hlen H Hdist Hcover. unfold loop in H.
  destruct (loop_events regs st) as [st1|] eqn:E1; [|discriminate]. simpl in H.
  destruct (loop_outputs bus st1) as [st2|] eqn:E2; [|discriminate]. simpl in H.
  injection H as <-. simpl.
  destruct (loop_events_frame _ _ _ E1) as (Hs & Hq & Hz).
  unfold loop_outputs in E2.
  destruct (for_loop _ _ _ _) as [[[st3 bP] bB]|] eqn:E3; [|discriminate].
  simpl in E2. injection E2 as <-. simpl.
  assert (Hlen1 : length (g_sensors st1) = MAX_SENSORS) by (by rewrite Hs).
  assert (Hsz : forall i, sensor_zone st1 i = sensor_zone st i).
  { intros i. unfold sensor_zone. by rewrite Hs. }
  destruct (sensor_loop_Some _ _ _ _ _ _ _ _ _ Hlen1 E3)
    as (_ & _ & _ & _ & _ & Hkeep & Hacc).
  destruct Hacc as [HB HP].
  { intros i j Hi Hj. rewrite !Hsz. apply Hdist. rewrite <- Hq. lia. }
  simpl in HB, HP.
  assert (Hkeep' : forall z, (forall i, (i < g_nSensorQuant st1)%nat -> sensor_zone st1 i <> z) ->
                             g_zones st3 !! z = g_zones st1 !! z).
  { intros z Hi. apply Hkeep. intros i Hi'. apply Hi. lia. }
  assert (Hcover' : forall z zn, g_zones st1 !! z = Some zn -> zn_bOn zn = true ->
                                 exists i, (i < g_nSensorQuant st1)%nat /\ sensor_zone st1 i = z).
  { intros z zn Hzn Hon.
    destruct (Hcover z) as (i & Hi & Hzi).
    - unfold zone_on. specialize (Hz z). rewrite Hzn in Hz. simpl in Hz.
      destruct (g_zones st !! z) as [zn0|]; [|discriminate].
      simpl in Hz. injection Hz as _ Hon' _. congruence.
    - exists i. rewrite Hq, Hsz. done. }
  split.
  - rewrite HB. apply (existsb_sensor_zones zn_bOn (sensor_zone st1) _ (g_zones st1)); auto.
  - rewrite HP.
    apply (existsb_sensor_zones (fun zn => zn_bOn zn && zn_bSpace zn)
             (sensor_zone st1) _ (g_zones st1)); auto.
    intros zn Hzn. by apply andb_true_iff in Hzn as [? _].
Qed.

Lemma loop_outputs_or_of_zones_witness :
  exists st', loop monday_0700 monday_0701 (fun _ => 1500) (one_sensor 0 false) = Some st' /\
    PIN_BOILER st' = existsb zn_bOn (g_zones st') /\
    PIN_PUMP st' = existsb (fun zn => zn_bOn zn && zn_bSpace zn) (g_zones st') /\
    PIN_BOILER st' = true.
Proof.
  destruct (loop monday_0700 monday_0701 (fun _ => 1500) (one_sensor 0 false))
    as [st'|] eqn:E; [|vm_compute in E; discriminate].
  exists st'. split; [reflexivity|].
  destruct (loop_outputs_or_of_zones monday_0700 monday_0701 (fun _ => 1500)
              (one_sensor 0 false) st') as [HB HP].
  - reflexivity.
  - exact E.
  - intros i j Hij. vm_compute in Hij. lia.
  - intros z Hz. exists 0%nat. split; [vm_compute; lia|].
    destruct z as [|z]; [reflexivity|].
    exfalso. unfold zone_on in Hz. simpl in Hz.
    do 9 (destruct z as [|z]; [discriminate|]). discriminate.
  - split; [exact HB|]. split; [exact HP|].
    vm_compute in E. injection E as <-. reflexivity.
Defined.

(** C5, the claim as stated, fails twice over.  A zone left calling for heat
    with no sensor configured does not reach the outputs: zone 3 is ON at
    the end of the cycle and the boiler output is OFF.  And of two sensors
    on one zone the first (cold) turns the zone ON and the boiler with it,
    the second (hot) turns the zone OFF again: at the end no zone is ON
    and both outputs are ON. *)
Lemma loop_outputs_differ_from_zone_states :
  (exists st', loop monday_0700 monday_0701 (fun _ => 0) zone_without_sensor = Some st' /\
     existsb zn_bOn (g_zones st') = true /\ PIN_BOILER st' = false) /\
  (exists st', loop monday_0700 monday_0701 (fun i => if (i =? 0)%nat then 1000 else 2500)
                 two_sensors_one_zone = Some st' /\
     existsb zn_bOn (g_zones st') = false /\
     PIN_BOILER st' = true /\ PIN_PUMP st' = true).
Proof.
  split; eexists; (split; [vm_compute; reflexivity|]); repeat split.
Qed.

(** * The zone records in the store *)

Lemma ReadConfig_address_Some q i st s :
  g_sensors st !! q = Some s -> (i < length (sn_address s))%nat ->
  ReadConfig_address q i st =
    Some (set_g_sensors
            (<[q := with_address
                      (<[i := EEPROM_read (Z.of_nat q * EEPROM_SENSOR_SIZE
                                           + EEPROM_SENSOR_START + Z.of_nat i) st]>
                         (sn_address s)) s]> (g_sensors st)) st).
Proof.
  intros Hs Hi. unfold ReadConfig_address. rewrite Hs. simpl.
  rewrite array_write_Some by done. simpl.
  by rewrite (sensor_update_Some _ _ _ _ Hs).
Qed.

Lemma ReadConfig_address_loop q m : forall i st,
  (i + m <= 8)%nat -> (q < length (g_sensors st))%nat -> addresses_ok st ->
  exists st', for_loop m i (ReadConfig_address q) st = Some st' /\
    addresses_ok st' /\ length (g_sensors st') = length (g_sensors st) /\
    g_nSensorQuant st' = g_nSensorQuant st /\ g_nEventQuant st' = g_nEventQuant st /\
    g_events st' = g_events st /\ g_zones st' = g_zones st /\ EEPROM st' = EEPROM st.
Proof.
  induction m as [|m IH]; intros i st Hi Hq Hok.
  - exists st. simpl. repeat split; done.
  - destruct (lookup_lt_is_Some_2 _ _ Hq) as [s Hs].
    rewrite for_loop_S, (ReadConfig_address_Some _ _ _ _ Hs)
      by (rewrite (Hok _ _ Hs); lia).
    simpl.
    match goal with |- context [for_loop m (S i) _ ?s1] =>
      destruct (IH (S i) s1) as (st' & E & Hok' & Hlen' & Hsq & Heq & Hev & Hz & Hrom) end.
    + lia.
    + simpl. by rewrite length_insert.
    + intros j s' Hj. simpl in Hj.
      destruct (decide (j = q)) as [->|Hne].
      * rewrite list_lookup_insert_eq in Hj by done. injection Hj as <-.
        simpl. rewrite length_insert. eauto.
      * rewrite list_lookup_insert_ne in Hj by done. eauto.
    + exists st'. split; [exact E|]. simpl in *.
      rewrite length_insert in Hlen'. repeat split; assumption.
Qed.

Lemma ReadConfig_sensors_S n st :
  ReadConfig_sensors (S n) st =
    let q := g_nSensorQuant st in
    if EEPROM_read (Z.of_nat q * EEPROM_SENSOR_SIZE + EEPROM_SENSOR_START) st =? 0
    then Some st
    else
      st ← for_loop 8 0 (ReadConfig_address q) st;
      st ← sensor_update q
             (with_sn_nZone
                (EEPROM_read (Z.of_nat q * EEPROM_SENSOR_SIZE + EEPROM_SENSOR_START + 8) st)) st;
      ReadConfig_sensors n (set_g_nSensorQuant (S q) st).
Proof. reflexivity. Qed.

Lemma ReadConfig_sensors_total n : forall st,
  (g_nSensorQuant st + n <= length (g_sensors st))%nat -> addresses_ok st ->
  exists st', ReadConfig_sensors n st = Some st' /\
    g_nEventQuant st' = g_nEventQuant st /\
    g_events st' = g_events st /\ g_zones st' = g_zones st /\ EEPROM st' = EEPROM st.
Proof.
  induction n as [|n IH]; intros st Hq Hok; [exists st; simpl; repeat split; done|].
  rewrite ReadConfig_sensors_S. cbv zeta.
  destruct (_ =? 0); [exists st; repeat split; done|].
  destruct (ReadConfig_address_loop (g_nSensorQuant st) 8 0 st)
    as (st1 & E & Hok1 & Hlen1 & Hsq1 & Heq1 & Hev1 & Hz1 & Hrom1); [lia | lia | done |].
  rewrite E. simpl.
  destruct (lookup_lt_is_Some_2 (g_sensors st1) (g_nSensorQuant st)) as [s Hs];
    [rewrite Hlen1; lia|].
  rewrite (sensor_update_Some _ _ _ _ Hs). cbn [mbind option_bind].
  match goal with |- context [ReadConfig_sensors n ?s2] =>
    destruct (IH s2) as (st' & E' & Heq & Hev & Hz & Hrom) end.
  - simpl. rewrite length_insert, Hlen1. lia.
  - intros j s' Hj. simpl in Hj.
    destruct (decide (j = g_nSensorQuant st)) as [->|Hne].
    + rewrite list_lookup_insert_eq in Hj by (eapply lookup_lt_Some; eauto).
      injection Hj as <-. simpl. eauto.
    + rewrite list_lookup_insert_ne in Hj by done. eauto.
  - exists st'. split; [exact E'|]. simpl in *. repeat split; congruence.
Qed.

Lemma ReadConfig_events_S n st :
  ReadConfig_events (S n) st =
    let q := g_nEventQuant st in
    let base := Z.of_nat q * EEPROM_EVENT_SIZE + EEPROM_EVENT_START in
    st ← event_update q (with_ev_nDays (EEPROM_read base st)) st;
    e ← g_events st !! q;
    if 0 =? ev_nDays e
    then Some st
    else
      st ← event_update q
             (with_ev_nTime
                (to_uint (Z.lor (Z.shiftl (EEPROM_read (base + 1) st) 8)
                                (EEPROM_read (base + 2) st)))) st;
      st ← event_update q (with_ev_nZone (EEPROM_read (base + 3) st)) st;
      st ← event_update q
             (with_ev_nValue
                (to_int (Z.lor (Z.shiftl (EEPROM_read (base + 4) st) 8)
                               (EEPROM_read (base + 5) st)))) st;
      ReadConfig_events n (set_g_nEventQuant (S q) st).
Proof. reflexivity. Qed.

(** An update of an event slot touches the event table only. *)
Lemma event_update_frame i f st :
  (i < length (g_events st))%nat ->
  exists st', event_update i f st = Some st' /\
    length (g_events st') = length (g_events st) /\
    g_nEventQuant st' = g_nEventQuant st /\
    g_zones st' = g_zones st /\ EEPROM st' = EEPROM st.
Proof.
  intros Hi. destruct (lookup_lt_is_Some_2 _ _ Hi) as [e He].
  rewrite (event_update_Some _ _ _ _ He). eexists. split; [reflexivity|].
  simpl. rewrite length_insert. repeat split.
Qed.

Lemma ReadConfig_events_total n : forall st,
  (g_nEventQuant st + n <= length (g_events st))%nat ->
  exists st', ReadConfig_events n st = Some st' /\
    g_zones st' = g_zones st /\ EEPROM st' = EEPROM st.
Proof.
  induction n as [|n IH]; intros st Hq; [exists st; simpl; repeat split; done|].
  rewrite ReadConfig_events_S. cbv zeta.
  set (q := g_nEventQuant st).
  destruct (event_update_frame q (with_ev_nDays
              (EEPROM_read (Z.of_nat q * EEPROM_EVENT_SIZE + EEPROM_EVENT_START) st)) st)
    as (st1 & E1 & Hl1 & Hq1 & Hz1 & Hr1); [unfold q; lia|].
  rewrite E1. cbn [mbind option_bind].
  destruct (lookup_lt_is_Some_2 (g_events st1) q) as [e He]; [rewrite Hl1; unfold q; lia|].
  rewrite He. cbn [mbind option_bind].
  destruct (0 =? ev_nDays e); [exists st1; split; [reflexivity|]; split; congruence|].
  match goal with |- context [event_update q ?f st1] =>
    destruct (event_update_frame q f st1) as (st2 & E2 & Hl2 & Hq2 & Hz2 & Hr2);
      [rewrite Hl1; unfold q; lia|] end.
  rewrite E2. cbn [mbind option_bind].
  match goal with |- context [event_update q ?f st2] =>
    destruct (event_update_frame q f st2) as (st3 & E3 & Hl3 & Hq3 & Hz3 & Hr3);
      [rewrite Hl2, Hl1; unfold q; lia|] end.
  rewrite E3. cbn [mbind option_bind].
  match goal with |- context [event_update q ?f st3] =>
    destruct (event_update_frame q f st3) as (st4 & E4 & Hl4 & Hq4 & Hz4 & Hr4);
      [rewrite Hl3, Hl2, Hl1; unfold q; lia|] end.
  rewrite E4. cbn [mbind option_bind].
  destruct (IH (set_g_nEventQuant (S q) st4)) as (st' & E' & Hz & Hrom).
  - simpl. rewrite Hl4, Hl3, Hl2, Hl1. unfold q. lia.
  - exists st'. split; [exact E'|]. simpl in *. split; congruence.
Qed.

(** The zone a record of the store loads into. *)
Lemma ReadConfig_zone_Some z st zn :
  g_zones st !! z = Some zn ->
  ReadConfig_zone z st =
    Some (set_g_zones
            (<[z := mk_zone (zn_nSetpoint zn) (EEPROM st (100 + 2 * Z.of_nat z)) (zn_bOn zn)
                      (EEPROM st (100 + 2 * Z.of_nat z + 1) =? 1)]> (g_zones st)) st).
Proof.
  intros Hz. unfold ReadConfig_zone.
  rewrite (zone_update_Some _ _ _ _ Hz). simpl.
  erewrite zone_update_Some
    by (simpl; apply list_lookup_insert_eq; eapply lookup_lt_Some; eauto).
  simpl. rewrite list_insert_insert_eq.
  unfold EEPROM_read, EEPROM_ZONE_SIZE, EEPROM_ZONE_START. simpl.
  replace (Z.of_nat z * 2 + 100) with (100 + 2 * Z.of_nat z) by lia.
  reflexivity.
Qed.

Lemma ReadConfig_zones_loop m : forall k st,
  (k + m <= length (g_zones st))%nat ->
  exists st', for_loop m k ReadConfig_zone st = Some st' /\ EEPROM st' = EEPROM st /\
    forall z zn, g_zones st !! z = Some zn ->
      g_zones st' !! z =
        Some (if decide (k <= z < k + m)%nat
              then mk_zone (zn_nSetpoint zn) (EEPROM st (100 + 2 * Z.of_nat z)) (zn_bOn zn)
                     (EEPROM st (100 + 2 * Z.of_nat z + 1) =? 1)
              else zn).
Proof.
  induction m as [|m IH]; intros k st Hk.
  - exists st. simpl. split; [done|]. split; [done|].
    intros z zn Hz. destruct (decide _); [lia | done].
  - destruct (lookup_lt_is_Some_2 (g_zones st) k) as [zk Hzk]; [lia|].
    rewrite for_loop_S, (ReadConfig_zone_Some _ _ _ Hzk). simpl.
    match goal with |- context [for_loop m (S k) _ ?s1] =>
      destruct (IH (S k) s1) as (st' & E & Hrom & Hload) end.
    { simpl. rewrite length_insert. lia. }
    exists st'. split; [exact E|]. split; [exact Hrom|].
    intros z zn Hz.
    destruct (decide (z = k)) as [->|Hne].
    + assert (zn = zk) by congruence. subst zk.
      erewrite Hload by (simpl; apply list_lookup_insert_eq; lia).
      simpl. repeat case_decide; try lia; reflexivity.
    + erewrite Hload by (simpl; rewrite list_lookup_insert_ne by done; exact Hz).
      simpl. repeat case_decide; try lia; reflexivity.
Qed.

(** [ReadConfig] is defined on every well-formed state and loads each zone
    from its two bytes of the store. *)
Lemma ReadConfig_zones st z zn :
  wf st -> g_zones st !! z = Some zn ->
  exists st', ReadConfig st = Some st' /\ EEPROM st' = EEPROM st /\
    g_zones st' !! z =
      Some (mk_zone (zn_nSetpoint zn) (EEPROM st (100 + 2 * Z.of_nat z)) (zn_bOn zn)
              (EEPROM st (100 + 2 * Z.of_nat z + 1) =? 1)).
Proof.
  intros [Hs He Hzl Ha] Hz. unfold ReadConfig.
  destruct (ReadConfig_sensors_total MAX_SENSORS (set_g_nSensorQuant 0 st))
    as (st1 & E1 & Heq1 & Hev1 & Hz1 & Hrom1); [simpl; lia | exact Ha |].
  rewrite E1. cbn [mbind option_bind]. simpl in Heq1, Hev1, Hz1, Hrom1.
  destruct (ReadConfig_events_total MAX_EVENTS (set_g_nEventQuant 0 st1))
    as (st2 & E2 & Hz2 & Hrom2); [simpl; rewrite Hev1; lia|].
  rewrite E2. cbn [mbind option_bind]. simpl in Hz2, Hrom2.
  destruct (ReadConfig_zones_loop 10 0 st2) as (st3 & E3 & Hrom3 & Hload).
  { rewrite Hz2, Hz1, Hzl. unfold MAX_ZONES. lia. }
  rewrite E3. exists st3. split; [reflexivity|].
  split; [congruence|].
  rewrite (Hload z zn) by congruence.
  assert (z < 10)%nat by (apply lookup_lt_Some in Hz; unfold MAX_ZONES in Hzl; lia).
  destruct (decide (0 <= z < 0 + 10)%nat); [|lia].
  rewrite Hrom2, Hrom1. reflexivity.
Qed.

(** C4 (as amended).  For every zone index [z] in 0-9, saving zone [z]
    writes its two-byte record (byte 0 the hysteresis, byte 1 equal to 1
    exactly when the space-heating flag is set) at store offsets
    [100 + 2 z] and [100 + 2 z + 1] and nowhere else, and [ReadConfig]
    reads the zone records back from the same region, base 100. *)
Theorem zone_records_at_base_100 (z : nat) (st : state) (zn : zone) :
  wf st ->
  g_zones st !! z = Some zn ->
  (z < 10)%nat /\
  (exists st', SaveZone z st = Some st' /\
     EEPROM st' (100 + 2 * Z.of_nat z) = to_byte (zn_nHyst zn) /\
     EEPROM st' (100 + 2 * Z.of_nat z + 1) = (if zn_bSpace zn then 1 else 0) /\
     (forall a, a <> 100 + 2 * Z.of_nat z -> a <> 100 + 2 * Z.of_nat z + 1 ->
                EEPROM st' a = EEPROM st a) /\
     g_zones st' = g_zones st) /\
  (exists st', ReadConfig st = Some st' /\
     g_zones st' !! z =
       Some (mk_zone (zn_nSetpoint zn) (EEPROM st (100 + 2 * Z.of_nat z)) (zn_bOn zn)
               (EEPROM st (100 + 2 * Z.of_nat z + 1) =? 1))).
Proof.
  intros Hwf Hz. split; [|split].
  - apply lookup_lt_Some in Hz. rewrite (wf_zones _ Hwf) in Hz. exact Hz.
  - unfold SaveZone. rewrite Hz. simpl. eexists. split; [reflexivity|].
    unfold EEPROM_ZONE_SIZE, EEPROM_ZONE_START. simpl.
    replace (Z.of_nat z * 2 + 100) with (100 + 2 * Z.of_nat z) by lia.
    repeat split.
    + destruct (Z.eqb_spec (100 + 2 * Z.of_nat z) (100 + 2 * Z.of_nat z + 1)); [lia|].
      by rewrite Z.eqb_refl.
    + rewrite Z.eqb_refl. by destruct (zn_bSpace zn).
    + intros a H0 H1.
      destruct (Z.eqb_spec a (100 + 2 * Z.of_nat z + 1)); [lia|].
      destruct (Z.eqb_spec a (100 + 2 * Z.of_nat z)); [lia | reflexivity].
  - destruct (ReadConfig_zones st z zn Hwf Hz) as (st' & E & _ & Hload). eauto.
Qed.

Lemma addresses_ok_Forall st :
  Forall (fun s => length (sn_address s) = 8%nat) (g_sensors st) -> addresses_ok st.
Proof. intros H i s Hs. exact (Forall_lookup_1 _ _ _ _ H Hs). Qed.

Lemma wf_blank_state : wf blank_state.
Proof.
  split; try reflexivity.
  apply addresses_ok_Forall. repeat constructor.
Qed.

Lemma wf_zone0_configured : wf zone0_configured.
Proof. destruct wf_blank_state. split; try reflexivity; assumption. Qed.

Lemma zone_records_at_base_100_witness :
  exists st', SaveZone 0 zone0_configured = Some st' /\
    EEPROM st' 100 = 20 /\ EEPROM st' 101 = 1.
Proof.
  destruct (zone_records_at_base_100 0 zone0_configured (mk_zone 0 20 false true)
              wf_zone0_configured eq_refl) as (_ & (st' & E & H0 & H1 & _) & _).
  exists st'. split; [exact E|]. split; [exact H0 | exact H1].
Defined.

(** C4, the claim as stated, fails: saving zone 0 (hysteresis 20, space
    heating) leaves offsets 1100 and 1101 as they were and writes 100 and
    101; and a record placed at 1100 and 1101 is not what [ReadConfig]
    loads into zone 0. *)
Lemma zone_records_not_at_base_1100 :
  (exists st', SaveZone 0 zone0_configured = Some st' /\
     EEPROM st' 1100 = 0 /\ EEPROM st' 1101 = 0 /\
     EEPROM st' 100 = 20 /\ EEPROM st' 101 = 1) /\
  (exists st', ReadConfig record_at_1100 = Some st' /\
     g_zones st' !! 0%nat = Some (mk_zone 0 0 false false)).
Proof.
  split; eexists; (split; [vm_compute; reflexivity|]); repeat split.
Qed.

(** * AddSensor and AddEvent *)

(** The inner loop of [AddSensor] compares the two addresses from byte [i]. *)
Lemma AddSensor_compare_spec n : forall i (p a : list Z) b,
  length p = (i + n)%nat -> length a = (i + n)%nat ->
  AddSensor_compare n i p a b =
    Some (match n with O => b | S _ => bool_decide (drop i p = drop i a) end).
Proof.
  induction n as [|n IH]; intros i p a b Hp Ha; [reflexivity|].
  destruct (lookup_lt_is_Some_2 p i) as [x Hx]; [lia|].
  destruct (lookup_lt_is_Some_2 a i) as [y Hy]; [lia|].
  cbn [AddSensor_compare]. rewrite Hx, Hy. cbn [mbind option_bind].
  rewrite (drop_S _ _ _ Hx), (drop_S _ _ _ Hy).
  destruct (Z.eqb_spec x y) as [->|Hne].
  - rewrite IH by lia. f_equal. destruct n as [|n].
    + rewrite !drop_ge by lia. symmetry. by apply bool_decide_eq_true.
    + apply bool_decide_ext. split; congruence.
  - f_equal. symmetry. apply bool_decide_eq_false. congruence.
Qed.

Lemma AddSensor_compare_8 (p a : list Z) b :
  length p = 8%nat -> length a = 8%nat ->
  AddSensor_compare 8 0 p a b = Some (bool_decide (p = a)).
Proof. intros Hp Ha. by rewrite AddSensor_compare_spec. Qed.

Lemma AddSensor_scan_S n k p st b :
  AddSensor_scan (S n) k p st b =
    s ← g_sensors st !! k;
    b' ← AddSensor_compare 8 0 p (sn_address s) b;
    if (b' : bool) then Some (true, k) else AddSensor_scan n (S k) p st b'.
Proof. reflexivity. Qed.

(** The scan over the sensors [k, k + n) when none of them has the address. *)
Lemma AddSensor_scan_absent (p : list Z) st n : forall k,
  (k + n <= length (g_sensors st))%nat -> addresses_ok st -> length p = 8%nat ->
  (forall j s, (k <= j < k + n)%nat -> g_sensors st !! j = Some s -> sn_address s <> p) ->
  AddSensor_scan n k p st false = Some (false, (k + n)%nat).
Proof.
  induction n as [|n IH]; intros k Hlen Hok Hp Habs.
  - simpl. by rewrite Nat.add_0_r.
  - destruct (lookup_lt_is_Some_2 (g_sensors st) k) as [s Hs]; [lia|].
    rewrite AddSensor_scan_S, Hs. cbn [mbind option_bind].
    rewrite AddSensor_compare_8 by eauto. cbn [mbind option_bind].
    rewrite bool_decide_eq_false_2 by (intros ->; by apply (Habs k s ltac:(lia))).
    rewrite IH; [f_equal; f_equal; lia | lia | done | done |].
    intros j s' Hj. apply Habs. lia.
Qed.

(** The scan stops at the first sensor that has the address. *)
Lemma AddSensor_scan_found (p : list Z) st i s n : forall k,
  (k + n <= length (g_sensors st))%nat -> addresses_ok st ->
  (k <= i < k + n)%nat -> g_sensors st !! i = Some s -> sn_address s = p ->
  (forall j s', (k <= j < i)%nat -> g_sensors st !! j = Some s' -> sn_address s' <> p) ->
  AddSensor_scan n k p st false = Some (true, i).
Proof.
  induction n as [|n IH]; intros k Hlen Hok Hi Hs Hp Hfirst; [lia|].
  assert (Hp8 : length p = 8%nat) by (rewrite <- Hp; eauto).
  destruct (lookup_lt_is_Some_2 (g_sensors st) k) as [sk Hsk]; [lia|].
  rewrite AddSensor_scan_S, Hsk. cbn [mbind option_bind].
  rewrite AddSensor_compare_8 by eauto. cbn [mbind option_bind].
  destruct (decide (k = i)) as [->|Hne].
  - assert (sk = s) by congruence. subst sk.
    by rewrite bool_decide_eq_true_2.
  - rewrite bool_decide_eq_false_2 by (intros ->; by apply (Hfirst k sk ltac:(lia))).
    apply IH; try done; try lia.
    intros j s' Hj. apply Hfirst. lia.
Qed.

(** C7 (as amended).  With [g_nEventQuant] at [MAX_EVENTS] (100),
    [AddEvent] takes its early return: the count, every event record, the
    store and the rest of the state are as before, and nothing is printed.
    With [g_nSensorQuant] at [MAX_SENSORS] (10) and an address that no
    sensor record has, [AddSensor] takes its refusal branch: it returns
    the state as it was - every sensor record and the count unchanged -
    and prints one line on the serial console.  Neither function hands a
    result to its caller. *)
Theorem add_at_capacity_changes_nothing (st : state) :
  (g_nEventQuant st = MAX_EVENTS ->
   forall nZone nDays nTime nSetpoint bSave,
     AddEvent nZone nDays nTime nSetpoint bSave st = Some st /\
     AddEvent_console nZone nDays nTime nSetpoint bSave st = []) /\
  (wf st -> g_nSensorQuant st = MAX_SENSORS ->
   forall pAddress nZone r,
     length pAddress = 8%nat ->
     (forall i s, g_sensors st !! i = Some s -> sn_address s <> pAddress) ->
     AddSensor pAddress nZone r st = Some st /\
     AddSensor_console pAddress st = Some [Cant_add_any_more_sensors]).
Proof.
  split.
  - intros Hfull nZone nDays nTime nSetpoint bSave. unfold AddEvent.
    rewrite Hfull. split; reflexivity.
  - intros Hwf Hfull pAddress nZone r Hp Habs. unfold AddSensor, AddSensor_console.
    rewrite (AddSensor_scan_absent pAddress st (g_nSensorQuant st) 0).
    + cbn [mbind option_bind negb]. rewrite Hfull. split; reflexivity.
    + rewrite Hfull, (wf_sensors _ Hwf). simpl. lia.
    + exact (wf_address _ Hwf).
    + exact Hp.
    + intros j s _. apply Habs.
Qed.

Lemma wf_full_sensors : wf full_sensors.
Proof.
  split; try reflexivity. apply addresses_ok_Forall. repeat constructor.
Qed.

Lemma add_at_capacity_changes_nothing_witness :
  (AddEvent 1 2 420 200 true full_sensors = Some full_sensors /\
   AddEvent_console 1 2 420 200 true full_sensors = []) /\
  (AddSensor [50; 1; 2; 3; 4; 5; 6; 7] 3 2150 full_sensors = Some full_sensors /\
   AddSensor_console [50; 1; 2; 3; 4; 5; 6; 7] full_sensors
     = Some [Cant_add_any_more_sensors]).
Proof.
  destruct (add_at_capacity_changes_nothing full_sensors) as [Hev Hsn].
  split.
  - apply Hev. reflexivity.
  - apply (Hsn wf_full_sensors eq_refl); [reflexivity|].
    intros i s Hs Heq.
    assert (Hhead : head (sn_address s) <> Some 50).
    { apply list_elem_of_lookup_2 in Hs. simpl in Hs.
      repeat (apply elem_of_cons in Hs as [->|Hs]; [simpl; congruence|]).
      by apply elem_of_nil in Hs. }
    apply Hhead. rewrite Heq. reflexivity.
Defined.

(** C7, the claim as stated, fails: [AddEvent] reports nothing.  With all
    100 event slots in use the call returns the state as it was and prints
    nothing - exactly what it prints when it adds an event, as it does in
    the blank state, where the count goes from 0 to 1.  The function is
    [void], so nothing else reaches the caller. *)
Lemma AddEvent_at_capacity_reports_nothing :
  g_nEventQuant full_events = MAX_EVENTS /\
  AddEvent 1 2 420 200 true full_events = Some full_events /\
  AddEvent_console 1 2 420 200 true full_events = [] /\
  (exists st', AddEvent 1 2 420 200 true blank_state = Some st' /\
     g_nEventQuant st' = 1%nat) /\
  AddEvent_console 1 2 420 200 true blank_state
    = AddEvent_console 1 2 420 200 true full_events.
Proof.
  split; [reflexivity|]. split; [reflexivity|]. split; [reflexivity|].
  split; [|reflexivity]. eexists. split; [vm_compute; reflexivity | reflexivity].
Qed.

(** C8 (as amended).  When the address equals the address of a sensor record
    ([i] the first such record), [AddSensor] leaves the sensor count as it
    was, sets the zone field of record [i] and, through the bus read that
    ends the call, replaces the stored value of record [i] by the reading
    unless the read fails; the address of record [i] and all other sensor
    records are unchanged, one byte of the store (the zone byte of record
    [i]) is written, and the rest of the state is untouched. *)
Theorem AddSensor_existing_address
  (pAddress : list Z) (nZone r : Z) (st : state) (i : nat) (s : sensor) :
  wf st ->
  (g_nSensorQuant st <= MAX_SENSORS)%nat ->
  (i < g_nSensorQuant st)%nat ->
  g_sensors st !! i = Some s ->
  sn_address s = pAddress ->
  (forall j s', (j < i)%nat -> g_sensors st !! j = Some s' -> sn_address s' <> pAddress) ->
  exists st', AddSensor pAddress nZone r st = Some st' /\
    g_nSensorQuant st' = g_nSensorQuant st /\
    g_sensors st' =
      <[i := mk_sensor (sn_address s) (if r =? -2000 then sn_nValue s else r) nZone]>
        (g_sensors st) /\
    EEPROM st' (Z.of_nat i * 10 + 8) = to_byte nZone /\
    (forall a, a <> Z.of_nat i * 10 + 8 -> EEPROM st' a = EEPROM st a) /\
    only_sensors_changed st st'.
Proof.
  intros Hwf Hmax Hi Hs Hp Hfirst. unfold AddSensor.
  assert (Hlen : length (g_sensors st) = MAX_SENSORS) by apply Hwf.
  rewrite (AddSensor_scan_found pAddress st i s (g_nSensorQuant st) 0);
    [| lia | exact (wf_address _ Hwf) | lia | exact Hs | exact Hp
     | intros j s' Hj; apply Hfirst; lia].
  cbn [mbind option_bind negb].
  rewrite (sensor_update_Some _ _ _ _ Hs). cbn [mbind option_bind].
  unfold GetTemperature.
  destruct (Nat.leb_spec MAX_SENSORS i); [lia|].
  destruct (r =? -2000) eqn:Hr.
  - eexists. split; [reflexivity|]. simpl.
    split; [reflexivity|]. split; [reflexivity|].
    split; [by rewrite Z.eqb_refl|].
    split; [|repeat split].
    intros a Ha. destruct (Z.eqb_spec a (Z.of_nat i * 10 + 8)); [lia | reflexivity].
  - erewrite sensor_update_Some
      by (simpl; apply list_lookup_insert_eq; rewrite Hlen; lia).
    eexists. split; [reflexivity|]. simpl.
    split; [reflexivity|]. split; [by rewrite list_insert_insert_eq|].
    split; [by rewrite Z.eqb_refl|].
    split; [|repeat split].
    intros a Ha. destruct (Z.eqb_spec a (Z.of_nat i * 10 + 8)); [lia | reflexivity].
Qed.

Lemma wf_sensor_on_zone1 : wf sensor_on_zone1.
Proof.
  split; try reflexivity. apply addresses_ok_Forall. repeat constructor.
Qed.

Lemma AddSensor_existing_address_witness :
  exists st', AddSensor [40; 1; 2; 3; 4; 5; 6; 7] 2 (-2000) sensor_on_zone1 = Some st' /\
    g_nSensorQuant st' = 1%nat /\
    g_sensors st' !! 0%nat = Some (mk_sensor [40; 1; 2; 3; 4; 5; 6; 7] 1800 2).
Proof.
  destruct (AddSensor_existing_address [40; 1; 2; 3; 4; 5; 6; 7] 2 (-2000)
              sensor_on_zone1 0 (mk_sensor [40; 1; 2; 3; 4; 5; 6; 7] 1800 1))
    as (st' & E & Hq & Hs & _).
  - exact wf_sensor_on_zone1.
  - vm_compute. lia.
  - vm_compute. lia.
  - reflexivity.
  - reflexivity.
  - intros j s' Hj. lia.
  - exists st'. split; [exact E|]. split; [exact Hq|]. rewrite Hs. reflexivity.
Defined.

(** C8, the claim as stated, fails: the sensor on zone 1 holds the value
    1800; adding its address again for zone 2 while the bus returns 2150
    changes the zone field and the stored value of the record. *)
Lemma AddSensor_existing_address_refreshes_value :
  g_sensors sensor_on_zone1 !! 0%nat = Some (mk_sensor [40; 1; 2; 3; 4; 5; 6; 7] 1800 1) /\
  exists st', AddSensor [40; 1; 2; 3; 4; 5; 6; 7] 2 2150 sensor_on_zone1 = Some st' /\
    g_nSensorQuant st' = 1%nat /\
    g_sensors st' !! 0%nat = Some (mk_sensor [40; 1; 2; 3; 4; 5; 6; 7] 2150 2).
Proof.
  split; [reflexivity|]. eexists. split; [vm_compute; reflexivity|]. split; reflexivity.
Qed.

(** The zone region at base 100 lies between the sensor records (0-99) and
    the event records (from 200 on); a zone region at base 1100 would share
    its first bytes with event record 90. *)
Lemma zone_region_clear_of_event_records :
  (forall (z j : nat) a, (z < 10)%nat ->
     a = 100 + 2 * Z.of_nat z \/ a = 100 + 2 * Z.of_nat z + 1 ->
     100 <= a < 120 /\ ~ in_event_record j a) /\
  in_event_record 90 1100 /\ in_event_record 90 1101.
Proof.
  unfold in_event_record. split; [|lia].
  intros z j a Hz Ha. lia.
Qed.

(** * Number conversions *)

Lemma to_byte_small x : 0 <= x < 256 -> to_byte x = x.
Proof. intros H. unfold to_byte. by apply Z.mod_small. Qed.

Lemma to_uint_small x : 0 <= x < 65536 -> to_uint x = x.
Proof. intros H. unfold to_uint. by apply Z.mod_small. Qed.

(** Two decimal digits survive the trip through binary coded decimal. *)
Theorem bcdToDec_decToBcd (n : Z) :
  0 <= n <= 99 -> bcdToDec (decToBcd n) = n /\ 0 <= decToBcd n <= 0x99.
Proof.
  intros Hn. unfold bcdToDec, decToBcd, to_byte.
  Z.to_euclidean_division_equations. lia.
Qed.

Lemma bcdToDec_decToBcd_witness : bcdToDec (decToBcd 59) = 59 /\ 0 <= decToBcd 59 <= 0x99.
Proof. apply bcdToDec_decToBcd. lia. Defined.

(** A byte whose two nibbles are decimal digits is the code of its value. *)
Theorem decToBcd_bcdToDec (b : Z) :
  0 <= b < 256 -> b / 16 <= 9 -> b mod 16 <= 9 ->
  decToBcd (bcdToDec b) = b /\ 0 <= bcdToDec b <= 99.
Proof.
  intros Hb Hhi Hlo. unfold bcdToDec, decToBcd, to_byte.
  Z.to_euclidean_division_equations. lia.
Qed.

Lemma decToBcd_bcdToDec_witness : decToBcd (bcdToDec 0x23) = 0x23 /\ 0 <= bcdToDec 0x23 <= 99.
Proof. apply decToBcd_bcdToDec; [lia | vm_compute; discriminate | vm_compute; discriminate]. Defined.

(** [CharToHex] always returns a nibble; it gives the value of a decimal
    digit and of an upper-case hexadecimal letter, and 0 for a lower-case
    letter. *)
Theorem CharToHex_digits (c : Z) :
  0 <= c < 256 ->
  0 <= CharToHex c <= 15 /\
  (48 <= c <= 57 -> CharToHex c = c - 48) /\
  (65 <= c <= 70 -> CharToHex c = c - 55) /\
  (97 <= c <= 122 -> CharToHex c = 0).
Proof.
  intros Hc. unfold CharToHex, to_byte.
  destruct (Z.ltb_spec 9 ((c - 48) mod 256));
    match goal with
    | |- context [15 <? ?b] => destruct (Z.ltb_spec 15 b)
    end;
    repeat split; intros; Z.to_euclidean_division_equations; lia.
Qed.

Lemma CharToHex_digits_witness :
  CharToHex 70 = 15 /\ CharToHex 102 = 0.
Proof.
  destruct (CharToHex_digits 70) as (_ & _ & Hup & _); [lia|].
  destruct (CharToHex_digits 102) as (_ & _ & _ & Hlow); [lia|].
  split; [rewrite Hup; lia | apply Hlow; lia].
Defined.

(** * Records in the store *)

Lemma lor_shiftl_byte hi lo :
  0 <= lo < 256 -> Z.lor (Z.shiftl hi 8) lo = hi * 256 + lo.
Proof.
  intros Hlo.
  assert (Hland : Z.land (Z.shiftl hi 8) lo = 0).
  { apply Z.bits_inj'. intros n Hn. rewrite Z.land_spec, Z.bits_0.
    destruct (Z.ltb_spec n 8).
    - rewrite Z.shiftl_spec_low by lia. reflexivity.
    - replace lo with (lo mod 2 ^ 8) by (apply Z.mod_small; lia).
      rewrite Z.mod_pow2_bits_high by lia. apply andb_false_r. }
  rewrite <- (Z.lxor_lor _ _ Hland), <- (Z.add_nocarry_lxor _ _ Hland).
  rewrite Z.shiftl_mul_pow2 by lia. reflexivity.
Qed.

Lemma low_byte x : Z.land x 0xFF = x mod 256.
Proof. change 0xFF with (Z.ones 8). rewrite Z.land_ones by lia. reflexivity. Qed.

Lemma high_byte x : Z.shiftr (Z.land x 0xFF00) 8 = (x / 256) mod 256.
Proof.
  rewrite Z.shiftr_land. change (Z.shiftr 0xFF00 8) with (Z.ones 8).
  rewrite Z.land_ones, Z.shiftr_div_pow2 by lia. reflexivity.
Qed.

(** The two bytes [SaveEvent] writes for a 16-bit field, put together again
    the way [ReadConfig] does. *)
Lemma bytes_of_word x :
  Z.lor (Z.shiftl (to_byte (Z.shiftr (Z.land x 0xFF00) 8)) 8) (to_byte (Z.land x 0xFF))
    = x mod 65536.
Proof.
  rewrite low_byte, high_byte. unfold to_byte.
  rewrite !Z.mod_mod by lia.
  rewrite lor_shiftl_byte by (apply Z.mod_pos_bound; lia).
  Z.to_euclidean_division_equations. lia.
Qed.

(** What [SaveEvent] stores for an event is what [ReadConfig] loads: the
    record of an event whose fields are in range decodes to the event. *)
Lemma stored_event_decodes (e : event) (rom : Z -> Z) (j : nat) :
  event_in_range e ->
  stored_event e rom (Z.of_nat j * 10 + 200) ->
  load_event rom j = e.
Proof.
  intros (Ht & Hd & Hz & Hv) (H0 & H1 & H2 & H3 & H4 & H5).
  unfold load_event. cbv zeta. rewrite H0, H1, H2, H3, H4, H5.
  rewrite !bytes_of_word, !to_byte_small by lia.
  unfold to_uint, to_int. rewrite Z.mod_mod by lia.
  destruct e as [t d z v]; simpl in *. f_equal.
  - apply Z.mod_small. lia.
  - Z.to_euclidean_division_equations. lia.
Qed.

(** One pass of the event loop of [ReadConfig]: an empty day mask ends the
    loop, anything else loads the record and moves on. *)
Lemma ReadConfig_events_step n st old :
  g_events st !! g_nEventQuant st = Some old ->
  ReadConfig_events (S n) st =
    if 0 =? EEPROM st (Z.of_nat (g_nEventQuant st) * 10 + 200)
    then Some (set_g_events
                 (<[g_nEventQuant st := with_ev_nDays 0 old]> (g_events st)) st)
    else ReadConfig_events n
           (set_g_nEventQuant (S (g_nEventQuant st))
              (set_g_events
                 (<[g_nEventQuant st := load_event (EEPROM st) (g_nEventQuant st)]>
                    (g_events st)) st)).
Proof.
  intros Hold. rewrite ReadConfig_events_S. cbv zeta.
  assert (Hlt : (g_nEventQuant st < length (g_events st))%nat)
    by (eapply lookup_lt_Some; eauto).
  rewrite (event_update_Some _ _ _ _ Hold). cbn [mbind option_bind].
  cbn [g_events set_g_events]. rewrite list_lookup_insert_eq by done.
  cbn [mbind option_bind ev_nDays with_ev_nDays].
  unfold EEPROM_read, EEPROM_EVENT_SIZE, EEPROM_EVENT_START.
  destruct (Z.eqb_spec 0 (EEPROM st (Z.of_nat (g_nEventQuant st) * 10 + 200))) as [<-|Hne];
    [reflexivity|].
  do 3 (erewrite event_update_Some
          by (cbn [g_events set_g_events]; apply list_lookup_insert_eq;
              rewrite ?length_insert; done);
        cbn [mbind option_bind g_events set_g_events g_nEventQuant EEPROM set_EEPROM];
        rewrite list_insert_insert_eq).
  reflexivity.
Qed.

(** The event loop of [ReadConfig] from the state it has reached: it stops
    at the first record with an empty day mask, or when the table is full,
    and every record before that is loaded. *)
Lemma ReadConfig_events_loads n : forall st,
  (g_nEventQuant st + n = length (g_events st))%nat ->
  exists st', ReadConfig_events n st = Some st' /\
    (g_nEventQuant st <= g_nEventQuant st' <= g_nEventQuant st + n)%nat /\
    (forall j, (g_nEventQuant st <= j < g_nEventQuant st')%nat ->
       EEPROM st (Z.of_nat j * 10 + 200) <> 0 /\
       g_events st' !! j = Some (load_event (EEPROM st) j)) /\
    ((g_nEventQuant st' < g_nEventQuant st + n)%nat ->
       EEPROM st (Z.of_nat (g_nEventQuant st') * 10 + 200) = 0 /\
       g_events st' !! g_nEventQuant st' =
         with_ev_nDays 0 <$> g_events st !! g_nEventQuant st') /\
    (forall j, (j < g_nEventQuant st \/ g_nEventQuant st' < j)%nat ->
       g_events st' !! j = g_events st !! j) /\
    length (g_events st') = length (g_events st) /\
    EEPROM st' = EEPROM st /\ g_zones st' = g_zones st /\
    g_sensors st' = g_sensors st /\ g_nSensorQuant st' = g_nSensorQuant st /\
    g_tsNow st' = g_tsNow st /\ g_tsNextEvent st' = g_tsNextEvent st /\
    PIN_BOILER st' = PIN_BOILER st /\ PIN_PUMP st' = PIN_PUMP st.
Proof.
  induction n as [|n IH]; intros st Hn.
  - exists st. split; [reflexivity|]. split; [lia|].
    repeat split; try done; intros; lia.
  - destruct (lookup_lt_is_Some_2 (g_events st) (g_nEventQuant st)) as [old Hold]; [lia|].
    rewrite (ReadConfig_events_step _ _ _ Hold).
    destruct (Z.eqb_spec 0 (EEPROM st (Z.of_nat (g_nEventQuant st) * 10 + 200))) as [Hz|Hnz].
    + eexists. split; [reflexivity|]. cbn. split; [lia|].
      split; [intros; lia|]. split.
      { intros _. split; [by rewrite <- Hz|].
        rewrite list_lookup_insert_eq, Hold by lia. reflexivity. }
      split; [|rewrite length_insert; repeat split].
      intros j Hj. apply list_lookup_insert_ne. lia.
    + match goal with |- context [ReadConfig_events n ?s1] =>
        destruct (IH s1) as (st' & E & Hq & Hload & Hend & Hout & Hlen & Hrom & Hrest) end.
      { cbn. rewrite length_insert. lia. }
      cbn in Hq, Hload, Hend, Hout, Hlen, Hrom, Hrest.
      exists st'. split; [exact E|]. split; [lia|].
      split; [|split; [|split; [|split; [|split]]]].
      * intros j Hj. destruct (decide (j = g_nEventQuant st)) as [->|Hne].
        -- split; [congruence|]. rewrite Hout by lia.
           apply list_lookup_insert_eq. lia.
        -- apply Hload. lia.
      * intros Hlt. destruct Hend as [Hz Hsame]; [lia|]. split; [exact Hz|].
        rewrite Hsame. rewrite list_lookup_insert_ne by lia. reflexivity.
      * intros j Hj. rewrite Hout by lia. apply list_lookup_insert_ne. lia.
      * rewrite Hlen. apply length_insert.
      * exact Hrom.
      * exact Hrest.
Qed.

Lemma load_address_length rom j : length (load_address rom j) = 8%nat.
Proof. reflexivity. Qed.

(** The address loop of [ReadConfig] from byte [i] on. *)
Lemma ReadConfig_address_loads q m : forall i st s,
  (i + m = 8)%nat -> g_sensors st !! q = Some s -> length (sn_address s) = 8%nat ->
  for_loop m i (ReadConfig_address q) st =
    Some (set_g_sensors
            (<[q := with_address
                      (take i (sn_address s) ++
                       map (fun k => EEPROM st (Z.of_nat q * 10 + Z.of_nat k)) (seq i m)) s]>
               (g_sensors st)) st).
Proof.
  induction m as [|m IH]; intros i st s Hi Hs Hlen.
  - simpl. rewrite app_nil_r, take_ge by lia.
    replace (with_address (sn_address s) s) with s by (by destruct s).
    rewrite list_insert_id by done. by rewrite set_g_sensors_id.
  - rewrite for_loop_S, (ReadConfig_address_Some _ _ _ _ Hs) by lia.
    cbn [mbind option_bind].
    assert (Hq : (q < length (g_sensors st))%nat) by (eapply lookup_lt_Some; eauto).
    set (v := EEPROM_read (Z.of_nat q * EEPROM_SENSOR_SIZE + EEPROM_SENSOR_START
                           + Z.of_nat i) st).
    set (s1 := with_address (<[i:=v]> (sn_address s)) s).
    rewrite (IH (S i) _ s1);
      [| lia | cbn; apply list_lookup_insert_eq; done
       | unfold s1; cbn; rewrite length_insert; done].
    cbn [g_sensors set_g_sensors EEPROM]. rewrite list_insert_insert_eq.
    change (set_g_sensors ?l (set_g_sensors ?l' st)) with (set_g_sensors l st).
    do 3 f_equal. unfold with_address, s1. cbn [sn_address sn_nValue sn_nZone]. f_equal.
    rewrite (take_S_r _ _ v) by (apply list_lookup_insert_eq; lia).
    cbn [sn_address with_address].
    rewrite take_insert_ge by lia. rewrite <- app_assoc. f_equal. cbn. f_equal.
    unfold v, EEPROM_read, EEPROM_SENSOR_SIZE, EEPROM_SENSOR_START. f_equal. lia.
Qed.

(** One pass of the sensor loop of [ReadConfig]. *)
Lemma ReadConfig_sensors_step n st s :
  g_sensors st !! g_nSensorQuant st = Some s -> length (sn_address s) = 8%nat ->
  ReadConfig_sensors (S n) st =
    if EEPROM st (Z.of_nat (g_nSensorQuant st) * 10) =? 0
    then Some st
    else ReadConfig_sensors n
           (set_g_nSensorQuant (S (g_nSensorQuant st))
              (set_g_sensors
                 (<[g_nSensorQuant st :=
                      load_sensor (EEPROM st) (g_nSensorQuant st) (sn_nValue s)]>
                    (g_sensors st)) st)).
Proof.
  intros Hs Hlen. rewrite ReadConfig_sensors_S. cbv zeta.
  unfold EEPROM_read at 1. unfold EEPROM_SENSOR_SIZE at 1, EEPROM_SENSOR_START at 1.
  rewrite Z.add_0_r.
  destruct (EEPROM st (Z.of_nat (g_nSensorQuant st) * 10) =? 0); [reflexivity|].
  rewrite (ReadConfig_address_loads _ 8 0 st s) by done.
  cbn [mbind option_bind].
  assert (Hq : (g_nSensorQuant st < length (g_sensors st))%nat)
    by (eapply lookup_lt_Some; eauto).
  erewrite sensor_update_Some by (cbn; apply list_lookup_insert_eq; done).
  cbn [mbind option_bind]. cbn. rewrite list_insert_insert_eq.
  unfold EEPROM_read, EEPROM_SENSOR_SIZE, EEPROM_SENSOR_START. cbn.
  rewrite Z.add_0_r. reflexivity.
Qed.

(** The sensor loop of [ReadConfig]: it stops at the first record whose
    first address byte is zero, or when the table is full, and loads the
    address and the zone of every record before that. *)
Lemma ReadConfig_sensors_loads n : forall st,
  (g_nSensorQuant st + n = length (g_sensors st))%nat -> addresses_ok st ->
  exists st', ReadConfig_sensors n st = Some st' /\
    (g_nSensorQuant st <= g_nSensorQuant st' <= g_nSensorQuant st + n)%nat /\
    (forall j, (g_nSensorQuant st <= j < g_nSensorQuant st')%nat ->
       EEPROM st (Z.of_nat j * 10) <> 0 /\
       exists s, g_sensors st !! j = Some s /\
         g_sensors st' !! j = Some (load_sensor (EEPROM st) j (sn_nValue s))) /\
    ((g_nSensorQuant st' < g_nSensorQuant st + n)%nat ->
       EEPROM st (Z.of_nat (g_nSensorQuant st') * 10) = 0) /\
    (forall j, (j < g_nSensorQuant st \/ g_nSensorQuant st' <= j)%nat ->
       g_sensors st' !! j = g_sensors st !! j) /\
    length (g_sensors st') = length (g_sensors st) /\ addresses_ok st' /\
    EEPROM st' = EEPROM st /\ g_zones st' = g_zones st /\
    g_events st' = g_events st /\ g_nEventQuant st' = g_nEventQuant st /\
    g_tsNow st' = g_tsNow st /\ g_tsNextEvent st' = g_tsNextEvent st /\
    PIN_BOILER st' = PIN_BOILER st /\ PIN_PUMP st' = PIN_PUMP st.
Proof.
  induction n as [|n IH]; intros st Hn Hok.
  - exists st. split; [reflexivity|]. split; [lia|].
    repeat split; try done; intros; lia.
  - destruct (lookup_lt_is_Some_2 (g_sensors st) (g_nSensorQuant st)) as [s Hs]; [lia|].
    rewrite (ReadConfig_sensors_step _ _ _ Hs (Hok _ _ Hs)).
    destruct (Z.eqb_spec (EEPROM st (Z.of_nat (g_nSensorQuant st) * 10)) 0) as [Hz|Hnz].
    + exists st. split; [reflexivity|]. split; [lia|].
      repeat split; try done; intros; lia.
    + match goal with |- context [ReadConfig_sensors n ?s1] =>
        destruct (IH s1) as (st' & E & Hq & Hload & Hend & Hout & Hlen & Hok' & Hrest) end.
      { cbn. rewrite length_insert. lia. }
      { intros j s' Hj. cbn in Hj.
        destruct (decide (j = g_nSensorQuant st)) as [->|Hne].
        - rewrite list_lookup_insert_eq in Hj by lia. by injection Hj as <-.
        - rewrite list_lookup_insert_ne in Hj by done. eauto. }
      cbn in Hq, Hload, Hend, Hout, Hlen, Hrest.
      exists st'. split; [exact E|]. split; [lia|].
      split; [|split; [|split; [|split; [|split]]]].
      * intros j Hj. destruct (decide (j = g_nSensorQuant st)) as [->|Hne].
        -- split; [done|]. exists s. split; [done|]. rewrite Hout by lia.
           apply list_lookup_insert_eq. lia.
        -- destruct (Hload j) as (Hnz' & s' & Hs' & Hs''); [lia|].
           split; [done|]. exists s'. split; [|done].
           by rewrite list_lookup_insert_ne in Hs'.
      * intros Hlt. apply Hend. lia.
      * intros j Hj. rewrite Hout by lia. apply list_lookup_insert_ne. lia.
      * rewrite Hlen. apply length_insert.
      * exact Hok'.
      * exact Hrest.
Qed.

(** The zone loop of [ReadConfig] touches the zones only. *)
Lemma ReadConfig_zones_frame m : forall k st st',
  for_loop m k ReadConfig_zone st = Some st' ->
  g_sensors st' = g_sensors st /\ g_nSensorQuant st' = g_nSensorQuant st /\
  g_events st' = g_events st /\ g_nEventQuant st' = g_nEventQuant st /\
  g_tsNow st' = g_tsNow st /\ g_tsNextEvent st' = g_tsNextEvent st /\
  PIN_BOILER st' = PIN_BOILER st /\ PIN_PUMP st' = PIN_PUMP st /\
  length (g_zones st') = length (g_zones st).
Proof.
  induction m as [|m IH]; intros k st st' H.
  - injection H as <-. repeat split.
  - rewrite for_loop_S in H.
    destruct (ReadConfig_zone k st) as [st1|] eqn:E; [|discriminate].
    cbn [mbind option_bind] in H.
    destruct (g_zones st !! k) as [zk|] eqn:Hzk.
    + rewrite (ReadConfig_zone_Some _ _ _ Hzk) in E. injection E as <-.
      destruct (IH _ _ _ H) as (?&?&?&?&?&?&?&?&Hl). cbn in *.
      rewrite length_insert in Hl. repeat split; assumption.
    + unfold ReadConfig_zone, zone_update in E. rewrite Hzk in E. discriminate.
Qed.

(** [ReadConfig] as a whole, on a well-formed state. *)
Lemma ReadConfig_loads st :
  wf st ->
  exists st', ReadConfig st = Some st' /\ wf st' /\ EEPROM st' = EEPROM st /\
    ((g_nSensorQuant st' <= MAX_SENSORS)%nat /\
     (forall j, (j < g_nSensorQuant st')%nat ->
        EEPROM st (Z.of_nat j * 10) <> 0 /\
        exists s, g_sensors st !! j = Some s /\
          g_sensors st' !! j = Some (load_sensor (EEPROM st) j (sn_nValue s))) /\
     ((g_nSensorQuant st' < MAX_SENSORS)%nat ->
        EEPROM st (Z.of_nat (g_nSensorQuant st') * 10) = 0) /\
     (forall j, (g_nSensorQuant st' <= j)%nat -> g_sensors st' !! j = g_sensors st !! j)) /\
    ((g_nEventQuant st' <= MAX_EVENTS)%nat /\
     (forall j, (j < g_nEventQuant st')%nat ->
        EEPROM st (Z.of_nat j * 10 + 200) <> 0 /\
        g_events st' !! j = Some (load_event (EEPROM st) j)) /\
     ((g_nEventQuant st' < MAX_EVENTS)%nat ->
        EEPROM st (Z.of_nat (g_nEventQuant st') * 10 + 200) = 0 /\
        g_events st' !! g_nEventQuant st' =
          with_ev_nDays 0 <$> g_events st !! g_nEventQuant st') /\
     (forall j, (g_nEventQuant st' < j)%nat -> g_events st' !! j = g_events st !! j)) /\
    g_tsNow st' = g_tsNow st /\ g_tsNextEvent st' = g_tsNextEvent st /\
    PIN_BOILER st' = PIN_BOILER st /\ PIN_PUMP st' = PIN_PUMP st.
Proof.
  intros [Hs He Hzl Ha]. unfold ReadConfig.
  destruct (ReadConfig_sensors_loads MAX_SENSORS (set_g_nSensorQuant 0 st))
    as (st1 & E1 & Hq1 & Hload1 & Hend1 & Hout1 & Hlen1 & Hok1 & Hrom1 & Hz1 & Hev1 &
        Heq1 & Hnow1 & Hnext1 & Hb1 & Hp1); [cbn; lia | exact Ha |].
  rewrite E1. cbn [mbind option_bind].
  cbn in Hq1, Hload1, Hend1, Hout1, Hlen1, Hrom1, Hz1, Hev1, Heq1, Hnow1, Hnext1, Hb1, Hp1.
  destruct (ReadConfig_events_loads MAX_EVENTS (set_g_nEventQuant 0 st1))
    as (st2 & E2 & Hq2 & Hload2 & Hend2 & Hout2 & Hlen2 & Hrom2 & Hz2 & Hs2 & Hsq2 &
        Hnow2 & Hnext2 & Hb2 & Hp2); [cbn; rewrite Hev1; lia|].
  rewrite E2. cbn [mbind option_bind].
  cbn in Hq2, Hload2, Hend2, Hout2, Hlen2, Hrom2, Hz2, Hs2, Hsq2, Hnow2, Hnext2, Hb2, Hp2.
  destruct (ReadConfig_zones_loop 10 0 st2) as (st3 & E3 & Hrom3 & Hload3).
  { rewrite Hz2, Hz1, Hzl. unfold MAX_ZONES. lia. }
  destruct (ReadConfig_zones_frame _ _ _ _ E3)
    as (Hs3 & Hsq3 & Hev3 & Heq3 & Hnow3 & Hnext3 & Hb3 & Hp3 & Hzl3).
  exists st3. split; [exact E3|].
  split.
  { split.
    - rewrite Hs3, Hs2, Hlen1. exact Hs.
    - rewrite Hev3, Hlen2, Hev1. exact He.
    - rewrite Hzl3, Hz2, Hz1. exact Hzl.
    - rewrite Hs3, Hs2. exact Hok1. }
  split; [congruence|].
  rewrite Hs3, Hsq3, Hev3, Heq3, Hs2, Hsq2, Hrom1 in *.
  split; [|split].
  - split; [lia|]. split; [intros j Hj; apply Hload1; lia|].
    split; [intros Hlt; apply Hend1; lia|].
    intros j Hj. apply Hout1. lia.
  - rewrite Hev1 in *. split; [lia|]. split; [intros j Hj; apply Hload2; lia|].
    split; [intros Hlt; apply Hend2; lia|].
    intros j Hj. apply Hout2. lia.
  - repeat split; congruence.
Qed.

(** On every well-formed state [ReadConfig] is defined and ends with at most
    [MAX_SENSORS] sensors: one for each record up to the first whose first
    address byte is 0, with the address and the zone the record holds and
    the value the slot held before. *)
Theorem ReadConfig_loads_sensors (st : state) :
  wf st ->
  exists st', ReadConfig st = Some st' /\ wf st' /\
    (g_nSensorQuant st' <= MAX_SENSORS)%nat /\
    (forall j, (j < g_nSensorQuant st')%nat ->
       EEPROM st (Z.of_nat j * 10) <> 0 /\
       exists s, g_sensors st !! j = Some s /\
         g_sensors st' !! j = Some (load_sensor (EEPROM st) j (sn_nValue s))) /\
    ((g_nSensorQuant st' < MAX_SENSORS)%nat ->
       EEPROM st (Z.of_nat (g_nSensorQuant st') * 10) = 0).
Proof.
  intros Hwf. destruct (ReadConfig_loads st Hwf)
    as (st' & E & Hwf' & _ & (Hmax & Hload & Hend & _) & _).
  exists st'. split; [exact E|]. split; [exact Hwf'|]. split; [exact Hmax|].
  split; [exact Hload | exact Hend].
Qed.

Lemma ReadConfig_loads_sensors_witness :
  exists st', ReadConfig blank_state = Some st' /\ g_nSensorQuant st' = 0%nat.
Proof.
  destruct (ReadConfig_loads_sensors blank_state wf_blank_state)
    as (st' & E & _ & _ & Hload & _).
  exists st'. split; [exact E|].
  destruct (g_nSensorQuant st') as [|n] eqn:Hn; [reflexivity|].
  destruct (Hload 0%nat) as [Hnz _]; [lia|]. by contradiction Hnz.
Defined.

(** On every well-formed state [ReadConfig] is defined and ends with at most
    [MAX_EVENTS] events: one for each record up to the first whose day mask
    is 0, decoded from the six bytes of the record. *)
Theorem ReadConfig_loads_events (st : state) :
  wf st ->
  exists st', ReadConfig st = Some st' /\ wf st' /\
    (g_nEventQuant st' <= MAX_EVENTS)%nat /\
    (forall j, (j < g_nEventQuant st')%nat ->
       EEPROM st (Z.of_nat j * 10 + 200) <> 0 /\
       g_events st' !! j = Some (load_event (EEPROM st) j)) /\
    ((g_nEventQuant st' < MAX_EVENTS)%nat ->
       EEPROM st (Z.of_nat (g_nEventQuant st') * 10 + 200) = 0).
Proof.
  intros Hwf. destruct (ReadConfig_loads st Hwf)
    as (st' & E & Hwf' & _ & _ & (Hmax & Hload & Hend & _) & _).
  exists st'. split; [exact E|]. split; [exact Hwf'|]. split; [exact Hmax|].
  split; [exact Hload | intros Hlt; by apply Hend].
Qed.

Lemma ReadConfig_loads_events_witness :
  exists st', ReadConfig blank_state = Some st' /\ g_nEventQuant st' = 0%nat.
Proof.
  destruct (ReadConfig_loads_events blank_state wf_blank_state)
    as (st' & E & _ & _ & Hload & _).
  exists st'. split; [exact E|].
  destruct (g_nEventQuant st') as [|n] eqn:Hn; [reflexivity|].
  destruct (Hload 0%nat) as [Hnz _]; [lia|]. by contradiction Hnz.
Defined.

Lemma stored_event_ext e (rom rom' : Z -> Z) base :
  (forall a, base <= a < base + 6 -> rom' a = rom a) ->
  stored_event e rom base -> stored_event e rom' base.
Proof.
  intros Hext (H0 & H1 & H2 & H3 & H4 & H5). unfold stored_event.
  rewrite !Hext by lia. repeat split; assumption.
Qed.

(** [ReadConfig] on any well-formed state whose store is that of a state
    with table and store in agreement: the events of that state come back. *)
Lemma ReadConfig_restores_events st0 st :
  wf st0 -> EEPROM st0 = EEPROM st ->
  length (g_events st) = MAX_EVENTS -> events_in_sync st ->
  exists st', ReadConfig st0 = Some st' /\ wf st' /\ EEPROM st' = EEPROM st /\
    g_nEventQuant st' = g_nEventQuant st /\
    (forall j, (j < g_nEventQuant st)%nat -> g_events st' !! j = g_events st !! j) /\
    ((g_nEventQuant st < MAX_EVENTS)%nat ->
       g_events st' !! g_nEventQuant st =
         with_ev_nDays 0 <$> g_events st0 !! g_nEventQuant st) /\
    (forall j, (g_nEventQuant st < j)%nat -> g_events st' !! j = g_events st0 !! j).
Proof.
  intros Hwf Hrom0 Hlen (Hmax & Hin & Hout & Hzero).
  destruct (ReadConfig_loads st0 Hwf)
    as (st' & E & Hwf' & Hrom & _ & (Hmax' & Hload & Hend & Hrest) & _).
  rewrite Hrom0 in *.
  assert (Hdays : forall j, (j < g_nEventQuant st)%nat ->
                            EEPROM st (Z.of_nat j * 10 + 200) <> 0).
  { intros j Hj.
    destruct (lookup_lt_is_Some_2 (g_events st) j) as [e He]; [lia|].
    destruct (Hin j e Hj He) as ((_ & Hd & _) & Hnz & (H0 & _)).
    rewrite H0, to_byte_small by lia. exact Hnz. }
  assert (Hcount : g_nEventQuant st' = g_nEventQuant st).
  { destruct (Nat.lt_trichotomy (g_nEventQuant st') (g_nEventQuant st)) as [Hlt|[Heq|Hgt]].
    - destruct Hend as [Hz _]; [lia|]. by apply Hdays in Hz.
    - exact Heq.
    - destruct (Hload (g_nEventQuant st)) as [Hnz _]; [lia|].
      exfalso. apply Hnz. apply Hzero. lia. }
  exists st'. split; [exact E|]. split; [exact Hwf'|]. split; [exact Hrom|].
  split; [exact Hcount|]. rewrite Hcount in *. split; [|split].
  - intros j Hj.
    destruct (lookup_lt_is_Some_2 (g_events st) j) as [e He]; [lia|].
    destruct (Hin j e Hj He) as (Hr & _ & Hst).
    destruct (Hload j) as [_ ->]; [lia|].
    rewrite (stored_event_decodes e _ j Hr Hst). by rewrite He.
  - intros Hlt. by apply Hend.
  - exact Hrest.
Qed.


Lemma wf_one_saved_event : wf one_saved_event.
Proof. split; try reflexivity. apply addresses_ok_Forall. repeat constructor. Qed.

Lemma events_in_sync_one_saved_event : events_in_sync one_saved_event.
Proof.
  split; [vm_compute; lia|]. split; [|split].
  - intros j e Hj He. assert (j = 0%nat) by (vm_compute in Hj; lia). subst j.
    vm_compute in He. injection He as <-.
    split; [unfold event_in_range; simpl; lia|]. split; [discriminate|].
    repeat split.
  - intros j e Hj He. change (g_nEventQuant one_saved_event) with 1%nat in Hj.
    destruct j as [|j]; [lia|].
    assert (HF : Forall (fun e => ev_nDays e = 0) (drop 1 (g_events one_saved_event)))
      by (vm_compute; repeat constructor).
    apply (Forall_lookup_1 _ _ j e HF). rewrite lookup_drop. exact He.
  - intros j Hj. change (g_nEventQuant one_saved_event) with 1%nat in Hj.
    cbn.
    repeat match goal with
      | |- context [?a =? ?b] => destruct (Z.eqb_spec a b); [lia|]
      end.
    reflexivity.
Qed.


Lemma set_g_events_twice a b st :
  set_g_events a (set_g_events b st) = set_g_events a st.
Proof. reflexivity. Qed.

(** [AddEvent] below capacity, spelled out. *)
Lemma AddEvent_appends nZone nDays nTime nSetpoint bSave st :
  (g_nEventQuant st < MAX_EVENTS)%nat -> length (g_events st) = MAX_EVENTS ->
  exists st', AddEvent nZone nDays nTime nSetpoint bSave st = Some st' /\
    g_nEventQuant st' = S (g_nEventQuant st) /\
    g_events st' =
      <[g_nEventQuant st := mk_event nTime nDays nZone nSetpoint]> (g_events st) /\
    (if bSave
     then stored_event (mk_event nTime nDays nZone nSetpoint) (EEPROM st')
            (Z.of_nat (g_nEventQuant st) * 10 + 200) /\
          (forall a, ~ in_event_record (g_nEventQuant st) a -> EEPROM st' a = EEPROM st a)
     else EEPROM st' = EEPROM st) /\
    g_nSensorQuant st' = g_nSensorQuant st /\ g_sensors st' = g_sensors st /\
    g_zones st' = g_zones st /\ g_tsNow st' = g_tsNow st /\
    g_tsNextEvent st' = g_tsNextEvent st /\
    PIN_BOILER st' = PIN_BOILER st /\ PIN_PUMP st' = PIN_PUMP st.
Proof.
  intros Hq Hlen. unfold AddEvent.
  destruct (Nat.leb_spec MAX_EVENTS (g_nEventQuant st)); [lia|].
  destruct (lookup_lt_is_Some_2 (g_events st) (g_nEventQuant st)) as [old Hold]; [lia|].
  rewrite (event_update_Some _ _ _ _ Hold). cbn [mbind option_bind].
  do 3 (erewrite event_update_Some
          by (cbn [g_events set_g_events g_nEventQuant]; apply list_lookup_insert_eq;
              rewrite ?length_insert; lia);
        cbn [mbind option_bind g_events set_g_events g_nEventQuant];
        rewrite list_insert_insert_eq).
  rewrite !set_g_events_twice.
  set (e := mk_event nTime nDays nZone nSetpoint).
  change (with_ev_nValue nSetpoint
            (with_ev_nZone nZone (with_ev_nTime nTime (with_ev_nDays nDays old))))
    with e.
  set (st1 := set_g_events (<[g_nEventQuant st := e]> (g_events st)) st).
  destruct bSave.
  - destruct (SaveEvent_Some (g_nEventQuant st) st1 e)
      as (st2 & E & Hev & Hfr & Hrec & Hrom).
    { cbn. apply list_lookup_insert_eq. lia. }
    change (g_nEventQuant st1) with (g_nEventQuant st). rewrite E.
    cbn [mbind option_bind].
    destruct Hfr as (Hsq & Heq & Hs & Hz & Hnow & Hnext & Hb & Hp).
    eexists. split; [reflexivity|]. cbn.
    rewrite Heq, Hev. repeat split; try assumption.
    all: destruct Hrec as (?&?&?&?&?&?); assumption.
  - cbn [mbind option_bind]. eexists. split; [reflexivity|]. cbn. repeat split.
Qed.





(** * AddSensor *)

(** One pass of the loop that stores a new address. *)
Lemma AddSensor_store_Some (p : list Z) i st s x :
  p !! i = Some x -> g_sensors st !! g_nSensorQuant st = Some s ->
  (i < length (sn_address s))%nat ->
  AddSensor_store p i st =
    Some (EEPROM_write (Z.of_nat (g_nSensorQuant st) * 10 + Z.of_nat i) x
            (set_g_sensors
               (<[g_nSensorQuant st := with_address (<[i := x]> (sn_address s)) s]>
                  (g_sensors st)) st)).
Proof.
  intros Hp Hs Hi. unfold AddSensor_store. rewrite Hp, Hs. cbn [mbind option_bind].
  rewrite array_write_Some by done. cbn [mbind option_bind].
  rewrite (sensor_update_Some _ _ _ _ Hs). cbn [mbind option_bind].
  cbn [g_sensors set_g_sensors g_nSensorQuant].
  rewrite list_lookup_insert_eq by (eapply lookup_lt_Some; eauto).
  cbn [mbind option_bind sn_address with_address].
  rewrite list_lookup_insert_eq by done. reflexivity.
Qed.

(** The address loop of [AddSensor] from byte [i] on. *)
Lemma AddSensor_store_loop (p : list Z) m : forall i st s,
  (i + m = 8)%nat -> length p = 8%nat ->
  g_sensors st !! g_nSensorQuant st = Some s -> length (sn_address s) = 8%nat ->
  exists st', for_loop m i (AddSensor_store p) st = Some st' /\
    g_sensors st' =
      <[g_nSensorQuant st := with_address (take i (sn_address s) ++ drop i p) s]>
        (g_sensors st) /\
    (forall k x, (i <= k)%nat -> p !! k = Some x ->
       EEPROM st' (Z.of_nat (g_nSensorQuant st) * 10 + Z.of_nat k) = to_byte x) /\
    (forall a, ~ (Z.of_nat (g_nSensorQuant st) * 10 + Z.of_nat i <= a
                  < Z.of_nat (g_nSensorQuant st) * 10 + 8) ->
       EEPROM st' a = EEPROM st a) /\
    g_nSensorQuant st' = g_nSensorQuant st /\ only_sensors_changed st st'.
Proof.
  induction m as [|m IH]; intros i st s Hi Hp Hs Hlen.
  - exists st. split; [reflexivity|]. split.
    { rewrite drop_ge, app_nil_r, take_ge by lia.
      replace (with_address (sn_address s) s) with s by (by destruct s).
      by rewrite list_insert_id. }
    split; [intros k x Hk Hx; apply lookup_lt_Some in Hx; lia|].
    repeat split.
  - destruct (lookup_lt_is_Some_2 p i) as [x Hx]; [lia|].
    assert (Hq : (g_nSensorQuant st < length (g_sensors st))%nat)
      by (eapply lookup_lt_Some; eauto).
    rewrite for_loop_S, (AddSensor_store_Some _ _ _ _ _ Hx Hs) by lia.
    cbn [mbind option_bind].
    set (s1 := with_address (<[i:=x]> (sn_address s)) s).
    match goal with |- context [for_loop m (S i) _ ?st1] =>
      destruct (IH (S i) st1 s1) as (st' & E & Hsen & Hnew & Hold & Hcnt & Hfr) end;
      [lia | done | cbn; by apply list_lookup_insert_eq
       | unfold s1; cbn; by rewrite length_insert |].
    cbn in Hsen, Hnew, Hold, Hcnt, Hfr.
    exists st'. split; [exact E|]. split; [|split; [|split; [|split]]].
    + rewrite Hsen, list_insert_insert_eq.
      assert (Haddr : take (S i) (<[i:=x]> (sn_address s)) ++ drop (S i) p
                      = take i (sn_address s) ++ drop i p).
      { rewrite (take_S_r _ _ x) by (apply list_lookup_insert_eq; lia).
        rewrite take_insert_ge by lia. rewrite <- app_assoc.
        by rewrite (drop_S _ _ _ Hx). }
      unfold s1, with_address. cbn [sn_address sn_nValue sn_nZone].
      by rewrite Haddr.
    + intros k y Hk Hy. destruct (decide (k = i)) as [->|Hne].
      * rewrite Hold by lia. rewrite Z.eqb_refl. congruence.
      * apply Hnew; [lia | done].
    + intros a Ha. rewrite Hold by lia.
      destruct (Z.eqb_spec a (Z.of_nat (g_nSensorQuant st) * 10 + Z.of_nat i)); [lia|].
      reflexivity.
    + exact Hcnt.
    + exact Hfr.
Qed.

(** [AddSensor] for an address that no sensor in use has, below capacity. *)
Lemma AddSensor_new (p : list Z) nZone r st s :
  wf st -> (g_nSensorQuant st < MAX_SENSORS)%nat -> length p = 8%nat ->
  g_sensors st !! g_nSensorQuant st = Some s ->
  (forall j s', (j < g_nSensorQuant st)%nat -> g_sensors st !! j = Some s' ->
                sn_address s' <> p) ->
  exists st', AddSensor p nZone r st = Some st' /\
    g_nSensorQuant st' = S (g_nSensorQuant st) /\
    g_sensors st' =
      <[g_nSensorQuant st := mk_sensor p (if r =? -2000 then sn_nValue s else r) nZone]>
        (g_sensors st) /\
    (forall k x, p !! k = Some x ->
       EEPROM st' (Z.of_nat (g_nSensorQuant st) * 10 + Z.of_nat k) = to_byte x) /\
    EEPROM st' (Z.of_nat (g_nSensorQuant st) * 10 + 8) = to_byte nZone /\
    (forall a, ~ (Z.of_nat (g_nSensorQuant st) * 10 <= a
                  <= Z.of_nat (g_nSensorQuant st) * 10 + 8) ->
       EEPROM st' a = EEPROM st a) /\
    only_sensors_changed st st'.
Proof.
  intros Hwf Hq Hp Hs Habs. unfold AddSensor.
  assert (Hlen : length (g_sensors st) = MAX_SENSORS) by apply Hwf.
  rewrite (AddSensor_scan_absent p st (g_nSensorQuant st) 0);
    [| lia | exact (wf_address _ Hwf) | exact Hp | intros j s' Hj; apply Habs; lia].
  cbn [mbind option_bind negb].
  destruct (Nat.leb_spec MAX_SENSORS (g_nSensorQuant st)); [lia|].
  destruct (AddSensor_store_loop p 8 0 st s)
    as (st1 & E & Hsen & Hnew & Hold & Hcnt & Hfr);
    [lia | done | done | exact (wf_address _ Hwf _ _ Hs) |].
  rewrite E. cbn [mbind option_bind]. rewrite Hcnt.
  cbn [take drop app] in Hsen.
  replace (0 + g_nSensorQuant st)%nat with (g_nSensorQuant st) by lia.
  assert (Hq1 : (g_nSensorQuant st < length (g_sensors st))%nat) by lia.
  erewrite sensor_update_Some
    by (cbn; rewrite Hsen; apply list_lookup_insert_eq; done).
  cbn [mbind option_bind]. unfold GetTemperature.
  destruct (Nat.leb_spec MAX_SENSORS (g_nSensorQuant st)); [lia|].
  destruct Hfr as (Heq & Hev & Hz & Hnow & Hnext & Hb & Hpp).
  destruct (r =? -2000) eqn:Hr.
  - eexists. split; [reflexivity|]. cbn. rewrite Hsen, list_insert_insert_eq.
    split; [reflexivity|]. split; [reflexivity|].
    split; [|split; [|split]].
    + intros k x Hx.
      destruct (Z.eqb_spec (Z.of_nat (g_nSensorQuant st) * 10 + Z.of_nat k)
                  (Z.of_nat (g_nSensorQuant st) * 10 + 8)) as [Heq8|_].
      * apply lookup_lt_Some in Hx. lia.
      * apply Hnew; [lia | done].
    + by rewrite Z.eqb_refl.
    + intros a Ha.
      destruct (Z.eqb_spec a (Z.of_nat (g_nSensorQuant st) * 10 + 8)); [lia|].
      apply Hold. lia.
    + repeat split; assumption.
  - erewrite sensor_update_Some
      by (cbn; rewrite Hsen, list_insert_insert_eq; apply list_lookup_insert_eq; done).
    eexists. split; [reflexivity|]. cbn. rewrite Hsen, !list_insert_insert_eq.
    split; [reflexivity|]. split; [reflexivity|].
    split; [|split; [|split]].
    + intros k x Hx.
      destruct (Z.eqb_spec (Z.of_nat (g_nSensorQuant st) * 10 + Z.of_nat k)
                  (Z.of_nat (g_nSensorQuant st) * 10 + 8)) as [Heq8|_].
      * apply lookup_lt_Some in Hx. lia.
      * apply Hnew; [lia | done].
    + by rewrite Z.eqb_refl.
    + intros a Ha.
      destruct (Z.eqb_spec a (Z.of_nat (g_nSensorQuant st) * 10 + 8)); [lia|].
      apply Hold. lia.
    + repeat split; assumption.
Qed.

(** [AddSensor] for the address of sensor [i], the first that has it. *)
Lemma AddSensor_known (p : list Z) nZone r st i s :
  wf st -> (g_nSensorQuant st <= MAX_SENSORS)%nat -> (i < g_nSensorQuant st)%nat ->
  g_sensors st !! i = Some s -> sn_address s = p ->
  (forall j s', (j < i)%nat -> g_sensors st !! j = Some s' -> sn_address s' <> p) ->
  exists st', AddSensor p nZone r st = Some st' /\
    g_nSensorQuant st' = g_nSensorQuant st /\
    g_sensors st' =
      <[i := mk_sensor (sn_address s) (if r =? -2000 then sn_nValue s else r) nZone]>
        (g_sensors st) /\
    EEPROM st' (Z.of_nat i * 10 + 8) = to_byte nZone /\
    (forall a, a <> Z.of_nat i * 10 + 8 -> EEPROM st' a = EEPROM st a) /\
    only_sensors_changed st st'.
Proof.
  intros Hwf Hmax Hi Hs Hp Hfirst. unfold AddSensor.
  assert (Hlen : length (g_sensors st) = MAX_SENSORS) by apply Hwf.
  rewrite (AddSensor_scan_found p st i s (g_nSensorQuant st) 0);
    [| lia | exact (wf_address _ Hwf) | lia | exact Hs | exact Hp
     | intros j s' Hj; apply Hfirst; lia].
  cbn [mbind option_bind negb].
  rewrite (sensor_update_Some _ _ _ _ Hs). cbn [mbind option_bind].
  unfold GetTemperature.
  destruct (Nat.leb_spec MAX_SENSORS i); [lia|].
  destruct (r =? -2000) eqn:Hr.
  - eexists. split; [reflexivity|]. simpl.
    split; [reflexivity|]. split; [reflexivity|].
    split; [by rewrite Z.eqb_refl|].
    split; [|repeat split].
    intros a Ha. destruct (Z.eqb_spec a (Z.of_nat i * 10 + 8)); [lia | reflexivity].
  - erewrite sensor_update_Some
      by (simpl; apply list_lookup_insert_eq; rewrite Hlen; lia).
    eexists. split; [reflexivity|]. simpl.
    split; [reflexivity|]. split; [by rewrite list_insert_insert_eq|].
    split; [by rewrite Z.eqb_refl|].
    split; [|repeat split].
    intros a Ha. destruct (Z.eqb_spec a (Z.of_nat i * 10 + 8)); [lia | reflexivity].
Qed.

(** Either no sensor among [k, k + n) has the address, or there is a first
    one that has it. *)
Lemma first_with_address (p : list Z) st n : forall k,
  (k + n <= length (g_sensors st))%nat ->
  (forall j s, (k <= j < k + n)%nat -> g_sensors st !! j = Some s -> sn_address s <> p) \/
  (exists i s, (k <= i < k + n)%nat /\ g_sensors st !! i = Some s /\ sn_address s = p /\
     forall j s', (k <= j < i)%nat -> g_sensors st !! j = Some s' -> sn_address s' <> p).
Proof.
  induction n as [|n IH]; intros k Hlen; [left; intros; lia|].
  destruct (lookup_lt_is_Some_2 (g_sensors st) k) as [sk Hsk]; [lia|].
  destruct (decide (sn_address sk = p)) as [Heq|Hne].
  - right. exists k, sk. repeat split; try done; try lia; intros; lia.
  - destruct (IH (S k)) as [Habs|(i & s & Hi & Hs & Hp & Hfirst)]; [lia| |].
    + left. intros j s Hj Hs. destruct (decide (j = k)) as [->|Hjk].
      * congruence.
      * apply (Habs j); [lia | done].
    + right. exists i, s. split; [lia|]. split; [done|]. split; [done|].
      intros j s' Hj Hs'. destruct (decide (j = k)) as [->|Hjk].
      * congruence.
      * apply (Hfirst j); [lia | done].
Qed.

Lemma load_address_lookup rom j k :
  (k < 8)%nat -> load_address rom j !! k = Some (rom (Z.of_nat j * 10 + Z.of_nat k)).
Proof.
  intros Hk. unfold load_address. rewrite list_lookup_fmap, lookup_seq_lt by done.
  reflexivity.
Qed.

Lemma load_address_ext rom rom' j :
  (forall a, Z.of_nat j * 10 <= a < Z.of_nat j * 10 + 8 -> rom' a = rom a) ->
  load_address rom' j = load_address rom j.
Proof.
  intros Hext. unfold load_address. apply map_ext_in. intros k Hk.
  apply in_seq in Hk. apply Hext. lia.
Qed.

(** [AddSensor] keeps the sensor table and the store in agreement and the
    addresses in use distinct: for a valid address and a zone byte, below
    capacity or with the address already in use, the address afterwards
    belongs to exactly one sensor in use, which has the given zone. *)
Theorem AddSensor_keeps_sync (p : list Z) (nZone r : Z) (st : state) :
  wf st -> sensors_in_sync st -> addresses_distinct st ->
  valid_address p -> 0 <= nZone < 256 ->
  (g_nSensorQuant st < MAX_SENSORS)%nat \/
    (exists i s, (i < g_nSensorQuant st)%nat /\ g_sensors st !! i = Some s /\
                 sn_address s = p) ->
  exists st', AddSensor p nZone r st = Some st' /\
    wf st' /\ sensors_in_sync st' /\ addresses_distinct st' /\
    (g_nSensorQuant st <= g_nSensorQuant st' <= S (g_nSensorQuant st))%nat /\
    exists i s, (i < g_nSensorQuant st')%nat /\ g_sensors st' !! i = Some s /\
      sn_address s = p /\ sn_nZone s = nZone.
Proof.
  intros Hwf (Hmax & Hin & Hzero) Hdist (Hp8 & Hbytes & Hhead) Hz Hroom.
  assert (Hlen : length (g_sensors st) = MAX_SENSORS) by apply Hwf.
  destruct (first_with_address p st (g_nSensorQuant st) 0)
    as [Habs|(i & s & Hi & Hs & Hp & Hfirst)]; [lia| |].
  - (* a new sensor *)
    assert (Hq : (g_nSensorQuant st < MAX_SENSORS)%nat).
    { destruct Hroom as [?|(i & s & Hi & Hs & Hp)]; [done|].
      exfalso. apply (Habs i s); [lia | done | done]. }
    destruct (lookup_lt_is_Some_2 (g_sensors st) (g_nSensorQuant st)) as [s Hs]; [lia|].
    destruct (AddSensor_new p nZone r st s Hwf Hq Hp8 Hs)
      as (st' & E & Hq' & Hsen & Hnew & Hzone & Hold & Hfr).
    { intros j s' Hj. apply Habs. lia. }
    exists st'. split; [exact E|].
    destruct Hfr as (Heq & Hev & Hzo & _).
    split.
    { destruct Hwf as [H1 H2 H3 H4]. split.
      - by rewrite Hsen, length_insert.
      - by rewrite Hev.
      - by rewrite Hzo.
      - intros j s' Hj. rewrite Hsen in Hj.
        destruct (decide (j = g_nSensorQuant st)) as [->|Hne].
        + rewrite list_lookup_insert_eq in Hj by lia. by injection Hj as <-.
        + rewrite list_lookup_insert_ne in Hj by done. eauto. }
    assert (Hload : load_address (EEPROM st') (g_nSensorQuant st) = p).
    { apply list_eq. intros k. destruct (Nat.lt_ge_cases k 8) as [Hk|Hk].
      - rewrite load_address_lookup by done.
        destruct (lookup_lt_is_Some_2 p k) as [x Hx]; [lia|].
        rewrite Hx, (Hnew k x Hx), to_byte_small by eauto. reflexivity.
      - rewrite !lookup_ge_None_2; [done | lia | by rewrite load_address_length]. }
    split; [|split; [|split]].
    + unfold sensors_in_sync. rewrite Hq', Hsen. split; [lia|]. split.
      * intros j s' Hj Hs'. destruct (decide (j = g_nSensorQuant st)) as [->|Hne].
        -- rewrite list_lookup_insert_eq in Hs' by lia. injection Hs' as <-. cbn [sn_address sn_nZone sn_nValue].
           split; [by rewrite Hload|]. split; [by rewrite Hzone, to_byte_small|].
           destruct (lookup_lt_is_Some_2 p 0) as [x Hx]; [lia|].
           pose proof (Hnew 0%nat x Hx) as H0. cbn in H0. rewrite Z.add_0_r in H0.
           rewrite H0, to_byte_small by eauto. eauto.
        -- rewrite list_lookup_insert_ne in Hs' by done.
           destruct (Hin j s' ltac:(lia) Hs') as (Ha & Hzo' & Hnz).
           rewrite (load_address_ext (EEPROM st)), !Hold by (intros; try apply Hold; lia).
           done.
      * intros j Hj. rewrite Hold by lia. apply Hzero. lia.
    + intros a b sa sb Hab Hsa Hsb. rewrite Hq' in Hab. rewrite Hsen in Hsa, Hsb.
      rewrite list_lookup_insert_ne in Hsa by lia.
      destruct (decide (b = g_nSensorQuant st)) as [->|Hne].
      * rewrite list_lookup_insert_eq in Hsb by lia. injection Hsb as <-. cbn [sn_address sn_nZone sn_nValue].
        apply (Habs a); [lia | done].
      * rewrite list_lookup_insert_ne in Hsb by done.
        apply (Hdist a b); [lia | done | done].
    + lia.
    + exists (g_nSensorQuant st). eexists. split; [lia|].
      rewrite Hsen. split; [apply list_lookup_insert_eq; lia|]. split; reflexivity.
  - (* a sensor in use *)
    destruct (AddSensor_known p nZone r st i s Hwf Hmax ltac:(lia) Hs Hp)
      as (st' & E & Hq' & Hsen & Hzone & Hold & Hfr).
    { intros j s' Hj. apply Hfirst. lia. }
    exists st'. split; [exact E|].
    destruct Hfr as (Heq & Hev & Hzo & _).
    assert (Hi' : (i < length (g_sensors st))%nat) by lia.
    split.
    { destruct Hwf as [H1 H2 H3 H4]. split.
      - by rewrite Hsen, length_insert.
      - by rewrite Hev.
      - by rewrite Hzo.
      - intros j s' Hj. rewrite Hsen in Hj.
        destruct (decide (j = i)) as [->|Hne].
        + rewrite list_lookup_insert_eq in Hj by done. injection Hj as <-. cbn [sn_address sn_nZone sn_nValue]. eauto.
        + rewrite list_lookup_insert_ne in Hj by done. eauto. }
    split; [|split; [|split]].
    + unfold sensors_in_sync. rewrite Hq', Hsen. split; [lia|]. split.
      * intros j s' Hj Hs'.
        rewrite (load_address_ext (EEPROM st)) by (intros; apply Hold; lia).
        rewrite (Hold (Z.of_nat j * 10)) by lia.
        destruct (decide (j = i)) as [->|Hne].
        -- rewrite list_lookup_insert_eq in Hs' by done. injection Hs' as <-. cbn [sn_address sn_nZone sn_nValue].
           destruct (Hin i s ltac:(lia) Hs) as (Ha & _ & Hnz).
           rewrite Hzone, to_byte_small by done. done.
        -- rewrite list_lookup_insert_ne in Hs' by done.
           rewrite Hold by lia. apply Hin; [lia | done].
      * intros j Hj. rewrite Hold by lia. apply Hzero. lia.
    + intros a b sa sb Hab Hsa Hsb. rewrite Hq' in Hab. rewrite Hsen in Hsa, Hsb.
      assert (Haddr : forall c sc, <[i:=mk_sensor (sn_address s)
                        (if r =? -2000 then sn_nValue s else r) nZone]> (g_sensors st) !! c
                        = Some sc ->
                      exists sc', g_sensors st !! c = Some sc' /\ sn_address sc' = sn_address sc).
      { intros c sc Hc. destruct (decide (c = i)) as [->|Hne].
        - rewrite list_lookup_insert_eq in Hc by done. injection Hc as <-. eauto.
        - rewrite list_lookup_insert_ne in Hc by done. eauto. }
      destruct (Haddr a sa Hsa) as (sa' & Hsa' & <-).
      destruct (Haddr b sb Hsb) as (sb' & Hsb' & <-).
      apply (Hdist a b); [lia | done | done].
    + lia.
    + exists i. eexists. split; [lia|].
      rewrite Hsen. split; [by apply list_lookup_insert_eq|]. split; [exact Hp | reflexivity].
Qed.

Lemma wf_power_on rom : wf (set_g_tsNextEvent (mk_timestamp 0 0) (power_on rom)).
Proof. destruct wf_blank_state. split; try reflexivity; assumption. Qed.

Lemma sensors_in_sync_blank : sensors_in_sync blank_state.
Proof.
  split; [vm_compute; lia|]. split; [|reflexivity].
  intros j s Hj. vm_compute in Hj. lia.
Qed.

Lemma addresses_distinct_blank : addresses_distinct blank_state.
Proof. intros i j s t Hij. vm_compute in Hij. lia. Qed.

Lemma AddSensor_keeps_sync_witness :
  exists st', AddSensor [40; 1; 2; 3; 4; 5; 6; 7] 1 2150 blank_state = Some st' /\
    sensors_in_sync st' /\ addresses_distinct st' /\ g_nSensorQuant st' = 1%nat.
Proof.
  destruct (AddSensor_keeps_sync [40; 1; 2; 3; 4; 5; 6; 7] 1 2150 blank_state
              wf_blank_state sensors_in_sync_blank addresses_distinct_blank)
    as (st' & E & _ & Hsync & Hdist & Hq & (i & s & Hi & _)).
  - split; [reflexivity|]. split.
    + intros k x Hx. apply list_elem_of_lookup_2 in Hx.
      repeat (apply elem_of_cons in Hx as [->|Hx]; [lia|]). by apply elem_of_nil in Hx.
    + intros x Hx. injection Hx as <-. discriminate.
  - lia.
  - left. vm_compute. lia.
  - exists st'. split; [exact E|]. split; [exact Hsync|]. split; [exact Hdist|].
    change (g_nSensorQuant blank_state) with 0%nat in Hq. lia.
Defined.

(** After a power cycle [setup] brings back the sensor table: when table and
    store agreed before, the same number of sensors is there afterwards,
    each with its address and zone and with the value 0, and table and
    store agree again. *)
Theorem setup_restores_sensors (st : state) :
  wf st -> sensors_in_sync st ->
  exists st', setup (power_on (EEPROM st)) = Some st' /\
    g_nSensorQuant st' = g_nSensorQuant st /\
    (forall j s, (j < g_nSensorQuant st)%nat -> g_sensors st !! j = Some s ->
       g_sensors st' !! j = Some (mk_sensor (sn_address s) 0 (sn_nZone s))) /\
    sensors_in_sync st'.
Proof.
  intros Hwf (Hmax & Hin & Hzero). unfold setup.
  set (st0 := set_g_tsNextEvent (mk_timestamp 0 0) (power_on (EEPROM st))).
  destruct (ReadConfig_loads st0 (wf_power_on _))
    as (st' & E & Hwf' & Hrom & (Hmax' & Hload & Hend & _) & _).
  change (EEPROM st0) with (EEPROM st) in *.
  assert (Hlen : length (g_sensors st) = MAX_SENSORS) by apply Hwf.
  assert (Hnz : forall j, (j < g_nSensorQuant st)%nat -> EEPROM st (Z.of_nat j * 10) <> 0).
  { intros j Hj. destruct (lookup_lt_is_Some_2 (g_sensors st) j) as [s Hs]; [lia|].
    by destruct (Hin j s Hj Hs) as (_ & _ & ?). }
  assert (Hcount : g_nSensorQuant st' = g_nSensorQuant st).
  { destruct (Nat.lt_trichotomy (g_nSensorQuant st') (g_nSensorQuant st)) as [Hlt|[Heq|Hgt]].
    - exfalso. apply (Hnz (g_nSensorQuant st')); [done|]. apply Hend. lia.
    - exact Heq.
    - destruct (Hload (g_nSensorQuant st)) as [Hn _]; [lia|].
      exfalso. apply Hn. apply Hzero. lia. }
  assert (Hback : forall j s, (j < g_nSensorQuant st)%nat -> g_sensors st !! j = Some s ->
                    g_sensors st' !! j = Some (mk_sensor (sn_address s) 0 (sn_nZone s))).
  { intros j s Hj Hs.
    destruct (Hload j) as (_ & s0 & Hs0 & ->); [lia|].
    destruct (Hin j s Hj Hs) as (-> & -> & _).
    assert (HF : Forall (fun s => sn_nValue s = 0) (g_sensors st0))
      by (vm_compute; repeat constructor).
    rewrite (Forall_lookup_1 _ _ _ _ HF Hs0). reflexivity. }
  exists st'. split; [exact E|]. split; [exact Hcount|]. split; [exact Hback|].
  unfold sensors_in_sync. rewrite Hcount, Hrom. split; [exact Hmax|].
  split; [|exact Hzero].
  intros j s' Hj Hs'.
  destruct (lookup_lt_is_Some_2 (g_sensors st) j) as [s Hs]; [lia|].
  rewrite (Hback j s Hj Hs) in Hs'. injection Hs' as <-. cbn [sn_address sn_nZone].
  by apply Hin.
Qed.

Lemma wf_one_saved_sensor : wf one_saved_sensor.
Proof. split; try reflexivity. apply addresses_ok_Forall. repeat constructor. Qed.

Lemma sensors_in_sync_one_saved_sensor : sensors_in_sync one_saved_sensor.
Proof.
  split; [vm_compute; lia|]. split.
  - intros j s Hj Hs. assert (j = 0%nat) by (vm_compute in Hj; lia). subst j.
    vm_compute in Hs. injection Hs as <-. repeat split. discriminate.
  - intros j Hj. change (g_nSensorQuant one_saved_sensor) with 1%nat in Hj.
    cbn [EEPROM one_saved_sensor set_EEPROM].
    apply nth_overflow. cbn [length]. lia.
Qed.

Lemma setup_restores_sensors_witness :
  exists st', setup (power_on (EEPROM one_saved_sensor)) = Some st' /\
    g_nSensorQuant st' = 1%nat /\
    g_sensors st' !! 0%nat = Some (mk_sensor [40; 1; 2; 3; 4; 5; 6; 7] 0 1).
Proof.
  destruct (setup_restores_sensors one_saved_sensor wf_one_saved_sensor
              sensors_in_sync_one_saved_sensor) as (st' & E & Hq & Hback & _).
  exists st'. split; [exact E|]. split; [exact Hq|].
  apply (Hback 0%nat (mk_sensor [40; 1; 2; 3; 4; 5; 6; 7] 1800 1));
    [vm_compute; lia | reflexivity].
Defined.

(** A saved zone survives a power cycle in its hysteresis and its space
    flag only: after [SaveZone] and a restart the zone has the saved
    hysteresis and flag, set-point 0 and no call for heat. *)
Theorem SaveZone_survives_restart (z : nat) (st : state) (zn : zone) :
  g_zones st !! z = Some zn -> (z < 10)%nat -> 0 <= zn_nHyst zn < 256 ->
  exists st1 st', SaveZone z st = Some st1 /\
    setup (power_on (EEPROM st1)) = Some st' /\
    g_zones st' !! z = Some (mk_zone 0 (zn_nHyst zn) false (zn_bSpace zn)).
Proof.
  intros Hz Hlt Hh. unfold SaveZone. rewrite Hz. cbn [mbind option_bind].
  eexists. 
  match goal with |- exists st', Some ?s = Some _ /\ _ => set (st1 := s) end.
  destruct (lookup_lt_is_Some_2 (g_zones blank_state) z) as [zn0 Hzn0]; [cbn; lia|].
  assert (Hzn0' : zn0 = mk_zone 0 0 false false).
  { change (g_zones blank_state) with (replicate 10 (mk_zone 0 0 false false)) in Hzn0.
    by apply lookup_replicate in Hzn0 as [-> _]. }
  subst zn0.
  destruct (ReadConfig_zones (set_g_tsNextEvent (mk_timestamp 0 0) (power_on (EEPROM st1)))
              z _ (wf_power_on _) Hzn0) as (st' & E & _ & Hload).
  exists st'. split; [reflexivity|]. split; [exact E|].
  rewrite Hload. cbn [zn_nSetpoint zn_bOn EEPROM set_g_tsNextEvent power_on set_EEPROM].
  unfold st1, EEPROM_ZONE_SIZE, EEPROM_ZONE_START. cbn [EEPROM EEPROM_write set_EEPROM].
  replace (Z.of_nat z * 2 + 100) with (100 + 2 * Z.of_nat z) by lia.
  rewrite !Z.eqb_refl.
  destruct (Z.eqb_spec (100 + 2 * Z.of_nat z) (100 + 2 * Z.of_nat z + 1)); [lia|].
  rewrite to_byte_small by lia.
  destruct (zn_bSpace zn); reflexivity.
Qed.

Lemma SaveZone_survives_restart_witness :
  exists st1 st', SaveZone 0 zone0_configured = Some st1 /\
    setup (power_on (EEPROM st1)) = Some st' /\
    g_zones st' !! 0%nat = Some (mk_zone 0 20 false true).
Proof.
  apply (SaveZone_survives_restart 0 zone0_configured (mk_zone 0 20 false true));
    [reflexivity | lia | simpl; lia].
Defined.

(** * The scheduler: next event and bounds *)

(** The next-event timestamp over the events [k, k + n): it never moves
    later, it is no later than any event of the range that is still to come
    today, and when it moves it moves to such an event. *)
Lemma ProcessEvents_loop_next n : forall k st st',
  for_loop n k ProcessEvents_body st = Some st' ->
  ts_nTime (g_tsNextEvent st') <= ts_nTime (g_tsNextEvent st) /\
  (forall j e, (k <= j < k + n)%nat -> g_events st !! j = Some e ->
     event_later_today (g_tsNow st) e = true ->
     ts_nTime (g_tsNextEvent st') <= ev_nTime e) /\
  (g_tsNextEvent st' = g_tsNextEvent st \/
   exists j e, (k <= j < k + n)%nat /\ g_events st !! j = Some e /\
     event_later_today (g_tsNow st) e = true /\
     g_tsNextEvent st' = mk_timestamp (ev_nTime e) (ts_nDay (g_tsNow st))).
Proof.
  induction n as [|n IH]; intros k st st' H.
  - injection H as <-. split; [lia|]. split; [intros; lia | by left].
  - rewrite for_loop_S in H.
    destruct (ProcessEvents_body k st) as [st1|] eqn:E; [|discriminate].
    cbn [mbind option_bind] in H.
    destruct (ProcessEvents_body_Some _ _ _ E) as (e0 & He0 & Hfr & _ & Hnext1).
    destruct (IH _ _ _ H) as (Hle & Hmin & Hcase).
    assert (Hev : g_events st1 = g_events st) by apply Hfr.
    assert (Hnow : g_tsNow st1 = g_tsNow st) by apply Hfr.
    rewrite Hev, Hnow in Hmin, Hcase.
    assert (Hle1 : ts_nTime (g_tsNextEvent st1) <= ts_nTime (g_tsNextEvent st) /\
                   (event_later_today (g_tsNow st) e0 = true ->
                    ts_nTime (g_tsNextEvent st1) <= ev_nTime e0)).
    { rewrite Hnext1. destruct (event_later_today (g_tsNow st) e0); cbn [andb].
      - destruct (Z.ltb_spec (ev_nTime e0) (ts_nTime (g_tsNextEvent st))); cbn; lia.
      - split; [lia | discriminate]. }
    destruct Hle1 as [Hle1 Hle0].
    split; [lia|]. split.
    + intros j e Hj He Hlater. destruct (decide (j = k)) as [->|Hne].
      * assert (e = e0) by congruence. subst e0. specialize (Hle0 Hlater). lia.
      * apply (Hmin j); [lia | done | done].
    + destruct Hcase as [Hsame|(j & e & Hj & He & Hlater & Heq)].
      * rewrite Hsame, Hnext1.
        destruct (event_later_today (g_tsNow st) e0) eqn:Hl0; cbn [andb]; [|by left].
        destruct (ev_nTime e0 <? ts_nTime (g_tsNextEvent st)); [|by left].
        right. exists k, e0. repeat split; try done; lia.
      * right. exists j, e. repeat split; try done; lia.
Qed.

(** When some event is still to come today, [ProcessEvents] leaves the
    earliest such event as the next event, on today's day. *)
Theorem ProcessEvents_next_is_earliest (st st' : state) (j : nat) (e : event) :
  ProcessEvents st = Some st' ->
  (j < g_nEventQuant st)%nat -> g_events st !! j = Some e ->
  event_later_today (g_tsNow st) e = true -> ev_nTime e < 0xFFFF ->
  ts_nDay (g_tsNextEvent st') = ts_nDay (g_tsNow st) /\
  ts_nTime (g_tsNow st) < ts_nTime (g_tsNextEvent st') <= ev_nTime e /\
  (forall j' e', (j' < g_nEventQuant st)%nat -> g_events st !! j' = Some e' ->
     event_later_today (g_tsNow st) e' = true ->
     ts_nTime (g_tsNextEvent st') <= ev_nTime e') /\
  exists j' e', (j' < g_nEventQuant st)%nat /\ g_events st !! j' = Some e' /\
    event_later_today (g_tsNow st) e' = true /\
    ev_nTime e' = ts_nTime (g_tsNextEvent st').
Proof.
  unfold ProcessEvents. intros H Hj He Hlater Ht.
  match type of H with context [for_loop ?n ?k ?b ?s] =>
    destruct (for_loop n k b s) as [st1|] eqn:E; [|discriminate] end.
  cbn [mbind option_bind] in H. injection H as <-.
  destruct (ProcessEvents_loop_next _ _ _ _ E) as (_ & Hmin & Hcase).
  cbn in Hmin, Hcase.
  pose proof (Hmin j e ltac:(lia) He Hlater) as Hle.
  destruct Hcase as [Hsame|(j' & e' & Hj' & He' & Hl' & Heq)].
  { rewrite Hsame in Hle. cbn in Hle. lia. }
  assert (Hadv : ProcessEvents_advance st1 = st1).
  { unfold ProcessEvents_advance. rewrite Heq. cbn [ts_nTime].
    rewrite Heq in Hle. cbn in Hle.
    destruct (Z.eqb_spec (ev_nTime e') 65535); [lia | reflexivity]. }
  rewrite Hadv, Heq. cbn [ts_nTime ts_nDay]. rewrite Heq in Hle, Hmin. cbn in Hle, Hmin.
  split; [reflexivity|]. split.
  { split; [|exact Hle]. unfold event_later_today in Hl'.
    apply andb_true_iff in Hl' as [_ Hl']. by apply Z.ltb_lt in Hl'. }
  split.
  { intros j0 e0 Hj0 He0 Hl0. apply (Hmin j0); [lia | done | done]. }
  exists j', e'. repeat split; try done; lia.
Qed.

Lemma ProcessEvents_next_is_earliest_witness :
  exists st', ProcessEvents (set_g_tsNow (mk_timestamp 400 2) three_events) = Some st' /\
    g_tsNextEvent st' = mk_timestamp 420 2.
Proof.
  destruct (ProcessEvents (set_g_tsNow (mk_timestamp 400 2) three_events))
    as [st'|] eqn:E; [|vm_compute in E; discriminate].
  exists st'. split; [reflexivity|].
  destruct (ProcessEvents_next_is_earliest _ st' 2 (mk_event 1320 126 1 150) E)
    as (Hday & [Hlo Hhi] & Hmin & (j' & e' & Hj' & He' & Hl' & Ht')).
  - vm_compute. lia.
  - reflexivity.
  - reflexivity.
  - simpl. lia.
  - vm_compute in E. injection E as <-. reflexivity.
Defined.

(** The scan is undefined as soon as a due event names a zone that does not
    exist. *)
Lemma ProcessEvents_loop_out_of_range n : forall k st j e,
  (k <= j < k + n)%nat -> g_events st !! j = Some e ->
  event_due (g_tsNow st) e = true -> (length (g_zones st) <= zone_index e)%nat ->
  for_loop n k ProcessEvents_body st = None.
Proof.
  induction n as [|n IH]; intros k st j e Hj He Hdue Hz; [lia|].
  rewrite for_loop_S.
  destruct (ProcessEvents_body k st) as [st1|] eqn:E; [|reflexivity].
  cbn [mbind option_bind].
  destruct (ProcessEvents_body_Some _ _ _ E) as (e0 & He0 & Hfr & Hz1 & _).
  destruct (decide (j = k)) as [->|Hne].
  - assert (e0 = e) by congruence. subst e0. rewrite Hdue in Hz1.
    destruct Hz1 as (zn & Hzn & _). apply lookup_lt_Some in Hzn. lia.
  - destruct Hfr as (_ & _ & _ & Hev & Hnow & _ & _ & _ & Hzl & _).
    apply (IH (S k) st1 j e); [lia | by rewrite Hev | by rewrite Hnow | by rewrite Hzl].
Qed.

(** [ProcessEvents] is defined exactly when every event due now names an
    existing zone: a due event for a zone beyond the ten of [g_zones] makes
    it write outside the array. *)
Theorem ProcessEvents_defined_iff (st : state) :
  (g_nEventQuant st <= length (g_events st))%nat ->
  ((exists st', ProcessEvents st = Some st') <->
   (forall j e, (j < g_nEventQuant st)%nat -> g_events st !! j = Some e ->
      event_due (g_tsNow st) e = true -> (zone_index e < length (g_zones st))%nat)).
Proof.
  intros Hcount. split.
  - intros [st' H] j e Hj He Hdue.
    destruct (Nat.lt_ge_cases (zone_index e) (length (g_zones st))) as [|Hge]; [done|].
    exfalso. unfold ProcessEvents in H.
    rewrite (ProcessEvents_loop_out_of_range _ _ _ j e) in H;
      [discriminate | cbn; lia | exact He | exact Hdue | exact Hge].
  - intros Hz. unfold ProcessEvents.
    match goal with |- context [for_loop ?n ?k ?b ?s] =>
      destruct (ProcessEvents_loop_total n k s) as [st1 E] end.
    + exact Hcount.
    + intros j e Hj. apply (Hz j). cbn in Hj. lia.
    + rewrite E. cbn [mbind option_bind]. eauto.
Qed.

Lemma ProcessEvents_defined_iff_witness :
  (exists st', ProcessEvents three_events_due = Some st') /\
  ProcessEvents event_for_zone_10 = None.
Proof.
  assert (Hc : (g_nEventQuant three_events_due <= length (g_events three_events_due))%nat)
    by (vm_compute; lia).
  assert (Hc' : (g_nEventQuant event_for_zone_10 <= length (g_events event_for_zone_10))%nat)
    by (vm_compute; lia).
  split.
  - apply (ProcessEvents_defined_iff three_events_due Hc).
    intros j e Hj He Hdue.
    assert (Hin : (j = 0 \/ j = 1 \/ j = 2)%nat) by (vm_compute in Hj; lia).
    destruct Hin as [->|[->| ->]]; vm_compute in He; injection He as <-;
      vm_compute; lia.
  - destruct (ProcessEvents event_for_zone_10) as [st'|] eqn:E; [|reflexivity].
    exfalso.
    pose proof (proj1 (ProcessEvents_defined_iff event_for_zone_10 Hc')
                  (ex_intro _ st' E) 0%nat (mk_event 420 2 10 200)) as Hall.
    assert (Hlt : (zone_index (mk_event 420 2 10 200)
                   < length (g_zones event_for_zone_10))%nat).
    { apply Hall; [vm_compute; lia | reflexivity | reflexivity]. }
    vm_compute in Hlt. lia.
Defined.

(** * The control cycle: what it keeps and when it is defined *)



Lemma configuration_kept_refl st : configuration_kept st st.
Proof. unfold configuration_kept. repeat split. Qed.

Lemma configuration_kept_trans st1 st2 st3 :
  configuration_kept st1 st2 -> configuration_kept st2 st3 -> configuration_kept st1 st3.
Proof.
  unfold configuration_kept.
  intros (?&?&?&?&Hs&Hz) (?&?&?&?&Hs'&Hz').
  repeat split; try congruence; intros x; rewrite ?Hs', ?Hz'; auto.
Qed.

(** The head of the cycle keeps the configuration. *)
Lemma loop_events_keeps regs st st' :
  loop_events regs st = Some st' -> configuration_kept st st'.
Proof.
  unfold loop_events.
  set (st1 := fst (getTime regs st)).
  assert (H1 : configuration_kept st st1) by exact (configuration_kept_refl st).
  destruct (_ && _).
  - unfold ProcessEvents.
    set (st0 := set_g_tsNextEvent _ st1).
    destruct (for_loop _ _ _ _) as [st2|] eqn:E; [|discriminate].
    cbn [mbind option_bind]. intros H. injection H as <-.
    destruct (ProcessEvents_loop_Some _ _ _ _ E) as (Hfr & _).
    assert (H2 : configuration_kept st st2).
    { unfold configuration_kept. cbn in Hfr.
      destruct Hfr as (Hsq & Heq & Hs & Hev & _ & Hrom & _ & _ & _ & Hz).
      repeat split; try assumption.
      - intros j. by rewrite Hs.
      - intros z. f_equal. exact (Hz z). }
    unfold ProcessEvents_advance.
    destruct (ts_nTime (g_tsNextEvent st2) =? 65535); exact H2.
  - intros H. injection H as <-. exact H1.
Qed.

(** The sensor loop keeps the configuration. *)
Lemma sensor_loop_keeps bus m : forall k st bP bB st' bP' bB',
  length (g_sensors st) = MAX_SENSORS ->
  for_loop m k (loop_sensor bus) (st, bP, bB) = Some (st', bP', bB') ->
  configuration_kept st st' /\ length (g_zones st') = length (g_zones st) /\
  g_tsNow st' = g_tsNow st /\ g_tsNextEvent st' = g_tsNextEvent st.
Proof.
  induction m as [|m IH]; intros k st bP bB st' bP' bB' Hlen H.
  - injection H as <- <- <-. split; [apply configuration_kept_refl | done].
  - rewrite for_loop_S in H.
    destruct (loop_sensor bus k (st, bP, bB)) as [[[st1 bP1] bB1]|] eqn:E; [|discriminate].
    cbn [mbind option_bind] in H.
    destruct (loop_sensor_Some _ _ _ _ _ _ Hlen E) as (s0 & zn & Hs0 & Hzn).
    rewrite (loop_sensor_eq _ _ _ _ _ _ _ Hlen Hs0 Hzn) in E. cbv zeta in E.
    injection E as <- <- <-.
    match type of H with for_loop _ _ _ (?s1, _, _) = _ =>
      destruct (IH _ s1 _ _ _ _ _ ltac:(cbn; by rewrite length_insert) H)
        as (Hk & Hzl & Hnow & Hnext);
      assert (H1 : configuration_kept st s1) end.
    { unfold configuration_kept. cbn. repeat split.
      - intros j. destruct (decide (j = k)) as [->|Hne].
        + rewrite list_lookup_insert_eq, Hs0 by (eapply lookup_lt_Some; eauto).
          cbn. unfold read_into. by destruct (bus k =? -2000).
        + by rewrite list_lookup_insert_ne.
      - intros z. destruct (decide (z = Z.to_nat (sn_nZone s0))) as [->|Hne].
        + rewrite list_lookup_insert_eq, Hzn by (eapply lookup_lt_Some; eauto).
          cbn. destruct (loop_thermostat_frame (sn_nValue (read_into (bus k) s0)) zn)
            as (Hsp & Hh & Hspace).
          unfold with_bOn, with_nSetpoint. cbn. by rewrite Hh, Hspace.
        + by rewrite list_lookup_insert_ne. }
    split; [eapply configuration_kept_trans; eauto|].
    cbn in Hzl, Hnow, Hnext. rewrite length_insert in Hzl. done.
Qed.

(** Two arrays whose slots agree under a field projection have the same size. *)
Lemma lookup_fmap_same_length {A B} (f : A -> B) (l l' : list A) :
  (forall j, f <$> l' !! j = f <$> l !! j) -> length l' = length l.
Proof.
  intros H. apply Nat.le_antisymm; apply Nat.nlt_ge; intros Hlt.
  - specialize (H (length l)).
    rewrite (lookup_ge_None_2 l (length l)) in H by lia.
    destruct (lookup_lt_is_Some_2 l' (length l) Hlt) as [x Hx].
    rewrite Hx in H. discriminate.
  - specialize (H (length l')).
    rewrite (lookup_ge_None_2 l' (length l')) in H by lia.
    destruct (lookup_lt_is_Some_2 l (length l') Hlt) as [x Hx].
    rewrite Hx in H. discriminate.
Qed.

(** A control cycle never writes the store and never changes the
    configuration: the event table, the sensor and event counts, the
    address and zone of every sensor and the hysteresis and space flag of
    every zone are as before. *)
Theorem loop_keeps_configuration
  (regs regs' : rtc_regs) (bus : nat -> Z) (st st' : state) :
  length (g_sensors st) = MAX_SENSORS ->
  loop regs regs' bus st = Some st' ->
  configuration_kept st st'.
Proof.
  intros Hlen H. unfold loop in H.
  destruct (loop_events regs st) as [st1|] eqn:E1; [|discriminate].
  cbn [mbind option_bind] in H.
  destruct (loop_outputs bus st1) as [st2|] eqn:E2; [|discriminate].
  cbn [mbind option_bind] in H. injection H as <-.
  pose proof (loop_events_keeps _ _ _ E1) as H1.
  unfold loop_outputs in E2.
  destruct (for_loop _ _ _ _) as [[[st3 bP] bB]|] eqn:E3; [|discriminate].
  cbn [mbind option_bind] in E2. injection E2 as <-.
  assert (Hlen1 : length (g_sensors st1) = MAX_SENSORS).
  { destruct H1 as (_ & _ & _ & _ & Hs & _).
    rewrite <- Hlen. exact (lookup_fmap_same_length _ _ _ Hs). }
  destruct (sensor_loop_keeps _ _ _ _ _ _ _ _ _ Hlen1 E3) as (H3 & _).
  eapply configuration_kept_trans; [exact H1|].
  eapply configuration_kept_trans; [exact H3|].
  unfold configuration_kept. by cbn.
Qed.

Lemma loop_keeps_configuration_witness :
  exists st', loop monday_0700 monday_0701 (fun _ => 1500) (one_sensor 0 false) = Some st' /\
    EEPROM st' = EEPROM (one_sensor 0 false) /\
    g_nSensorQuant st' = 1%nat.
Proof.
  destruct (loop monday_0700 monday_0701 (fun _ => 1500) (one_sensor 0 false))
    as [st'|] eqn:E; [|vm_compute in E; discriminate].
  exists st'. split; [reflexivity|].
  assert (Hl : length (g_sensors (one_sensor 0 false)) = MAX_SENSORS) by reflexivity.
  destruct (loop_keeps_configuration _ _ _ _ _ Hl E) as (Hrom & _ & _ & Hq & _).
  split; [exact Hrom | exact Hq].
Defined.

(** The sensor loop is defined when every sensor it visits is assigned to an
    existing zone. *)
Lemma sensor_loop_total bus m : forall k st bP bB,
  length (g_sensors st) = MAX_SENSORS -> (k + m <= MAX_SENSORS)%nat ->
  (forall j, (k <= j < k + m)%nat -> (sensor_zone st j < length (g_zones st))%nat) ->
  exists acc, for_loop m k (loop_sensor bus) (st, bP, bB) = Some acc.
Proof.
  induction m as [|m IH]; intros k st bP bB Hlen Hk Hz; [cbn; eauto|].
  destruct (lookup_lt_is_Some_2 (g_sensors st) k) as [s Hs]; [lia|].
  destruct (lookup_lt_is_Some_2 (g_zones st) (Z.to_nat (sn_nZone s))) as [zn Hzn].
  { specialize (Hz k ltac:(lia)). unfold sensor_zone in Hz. by rewrite Hs in Hz. }
  rewrite for_loop_S.
  pose proof (loop_sensor_eq bus k st bP bB s zn Hlen Hs Hzn) as E. cbv zeta in E.
  rewrite E. cbn [mbind option_bind].
  destruct (sensor_loop_Some bus 1 k st bP bB _ _ _ Hlen
              ltac:(rewrite for_loop_S, E; reflexivity))
    as (Hlen1 & _ & Hsz & _).
  apply IH; [exact Hlen1 | lia |].
  intros j Hj. rewrite Hsz. cbn [g_zones set_g_zones]. rewrite length_insert.
  apply Hz. lia.
Qed.



(** * The clock *)

Lemma decToBcd_small n : 0 <= n <= 99 -> decToBcd n = n / 10 * 16 + n mod 10.
Proof.
  intros Hn. unfold decToBcd, to_byte. apply Z.mod_small.
  Z.to_euclidean_division_equations. lia.
Qed.

Lemma bcdToDec_inverts n : 0 <= n <= 99 -> bcdToDec (decToBcd n) = n.
Proof.
  intros Hn. unfold bcdToDec, decToBcd, to_byte.
  Z.to_euclidean_division_equations. lia.
Qed.

Lemma land_low_bits x n : 0 <= n -> 0 <= x < 2 ^ n -> Z.land x (Z.ones n) = x.
Proof. intros Hn Hx. rewrite Z.land_ones by done. by apply Z.mod_small. Qed.

(** What [setTime] sends to the clock is what [getTime] reads back: with
    the seconds, minutes and hours registers holding the bytes sent for a
    time of day, [getTime] stores the minute of the day [setTime] stored,
    below 1440, and returns the seconds. *)
Theorem getTime_reads_setTime (h m s : Z) (regs : rtc_regs) (st st0 : state) :
  0 <= h < 24 -> 0 <= m < 60 -> 0 <= s < 60 ->
  snd (setTime h m s st) = [0; rtc_second regs; rtc_minute regs; rtc_hour regs] ->
  ts_nTime (g_tsNow (fst (getTime regs st0))) = m + h * 60 /\
  ts_nTime (g_tsNow (fst (setTime h m s st))) = m + h * 60 /\
  m + h * 60 < 1440 /\
  snd (getTime regs st0) = s.
Proof.
  intros Hh Hm Hs Hsent. cbn in Hsent. injection Hsent as Hsec Hmin Hhour.
  rewrite (to_byte_small s) in Hsec by lia.
  rewrite (to_byte_small m) in Hmin by lia.
  rewrite (to_byte_small h) in Hhour by lia.
  assert (Hbs : 0 <= decToBcd s < 2 ^ 7).
  { rewrite decToBcd_small by lia. Z.to_euclidean_division_equations. lia. }
  assert (Hbh : 0 <= decToBcd h < 2 ^ 6).
  { rewrite decToBcd_small by lia. Z.to_euclidean_division_equations. lia. }
  change 127 with (Z.ones 7) in Hsec. rewrite land_low_bits in Hsec by lia.
  rewrite to_byte_small in Hsec by lia.
  cbn [getTime fst snd g_tsNow set_g_tsNow ts_nTime setTime].
  rewrite <- Hsec, <- Hmin, <- Hhour.
  change 127 with (Z.ones 7). change 63 with (Z.ones 6).
  rewrite !land_low_bits by lia.
  rewrite !bcdToDec_inverts by lia.
  rewrite to_uint_small by lia. repeat split; lia.
Qed.

Lemma getTime_reads_setTime_witness :
  ts_nTime (g_tsNow (fst (getTime (mk_rtc 0x30 0x59 0x23 1 1 1 0x14) blank_state))) = 1439 /\
  snd (getTime (mk_rtc 0x30 0x59 0x23 1 1 1 0x14) blank_state) = 30.
Proof.
  destruct (getTime_reads_setTime 23 59 30 (mk_rtc 0x30 0x59 0x23 1 1 1 0x14)
              blank_state blank_state) as (Ht & _ & _ & Hs);
    [lia | lia | lia | reflexivity |].
  split; [exact Ht | exact Hs].
Defined.

(** [setDate] and [getTime] disagree on [g_tsNow.nDay]: for a day of week
    1-7, [setDate] stores the bit [1 << (nDow - 1)] and sends the number to
    the clock; [getTime], reading that number back, stores the number
    itself.  The two are equal for days 1 and 2 only. *)
Theorem getTime_overwrites_day_bit
  (nDow nDay nMonth nYear : Z) (regs : rtc_regs) (st st1 : state) (sent : list Z) :
  1 <= nDow <= 7 ->
  setDate nDow nDay nMonth nYear st = Some (st1, sent) ->
  sent !! 1%nat = Some (rtc_dow regs) ->
  ts_nDay (g_tsNow st1) = 2 ^ (nDow - 1) /\
  ts_nDay (g_tsNow (fst (getTime regs st1))) = nDow /\
  (2 ^ (nDow - 1) = nDow <-> nDow <= 2).
Proof.
  intros Hd H Hsent. unfold setDate in H.
  rewrite (to_uint_small (nDow - 1)) in H by lia.
  destruct (Z.ltb_spec (nDow - 1) 16); [|lia].
  injection H as <- <-. cbn [lookup list_lookup] in Hsent. injection Hsent as Hsent.
  rewrite (to_byte_small nDow) in Hsent by lia.
  cbn [g_tsNow set_g_tsNow ts_nDay getTime fst rtc_dow].
  rewrite <- Hsent, bcdToDec_inverts by lia.
  rewrite Z.shiftl_1_l.
  assert (Hcases : nDow = 1 \/ nDow = 2 \/ nDow = 3 \/ nDow = 4 \/ nDow = 5
                   \/ nDow = 6 \/ nDow = 7) by lia.
  destruct Hcases as [->|[->|[->|[->|[->|[->| ->]]]]]]; cbn; repeat split; lia.
Qed.

Lemma getTime_overwrites_day_bit_witness :
  exists st1 sent, setDate 3 28 10 14 blank_state = Some (st1, sent) /\
    ts_nDay (g_tsNow st1) = 4 /\
    ts_nDay (g_tsNow (fst (getTime (mk_rtc 0 0 7 3 0x28 0x10 0x14) st1))) = 3.
Proof.
  eexists. eexists. split; [reflexivity|].
  destruct (getTime_overwrites_day_bit 3 28 10 14 (mk_rtc 0 0 7 3 0x28 0x10 0x14)
              blank_state _ _ ltac:(lia) eq_refl eq_refl) as (H1 & H2 & _).
  split; [exact H1 | exact H2].
Defined.

(** * The serial console *)

Lemma to_byte_eol c : c = 10 \/ c = 13 -> to_byte c = c.
Proof. intros [-> | ->]; reflexivity. Qed.

Lemma buffer_with_length l : forall c b, length (buffer_with l c b) = length b.
Proof.
  induction l as [|x l IH]; intros c b; cbn [buffer_with]; [reflexivity|].
  rewrite IH. apply length_insert.
Qed.

Lemma ReadSerial_step c rest b nCursor r regs bSave st :
  (nCursor < MAX_SERIAL)%nat -> length b = MAX_SERIAL ->
  ReadSerial (c :: rest) b nCursor r regs bSave st =
    let b' := <[nCursor := to_byte c]> b in
    if (to_byte c =? 10) || (to_byte c =? 13) then
      st ← ParseSerial b' nCursor r regs bSave st; Some (st, b', 0%nat, rest, true)
    else ReadSerial rest b' (S nCursor) r regs bSave st.
Proof.
  intros Hc Hb. cbn [ReadSerial].
  destruct (Nat.ltb_spec nCursor MAX_SERIAL) as [_|]; [|lia].
  unfold array_write. destruct (decide (nCursor < length b)%nat) as [Hlt|]; [|lia].
  cbn [mbind option_bind]. rewrite list_lookup_insert_eq by exact Hlt.
  cbn [mbind option_bind]. reflexivity.
Qed.

(** ReadSerial, complete line: a line that fits the buffer is handed to
    ParseSerial with the cursor on the line end, its characters in the
    buffer from the cursor on; the cursor is then back at 0 and the bytes
    after the line end are not read. *)
Theorem ReadSerial_parses_line
  (line rest b : list Z) (eol : Z) (c : nat) (r : Z) (regs : rtc_regs) (bSave : bool)
  (st : state) :
  length b = MAX_SERIAL -> no_eol line -> (c + length line < MAX_SERIAL)%nat ->
  eol = 10 \/ eol = 13 ->
  ReadSerial (line ++ eol :: rest) b c r regs bSave st =
    let b' := <[(c + length line)%nat := eol]> (buffer_with line c b) in
    st' ← ParseSerial b' (c + length line) r regs bSave st;
    Some (st', b', 0%nat, rest, true).
Proof.
  intros Hb Hline Hc Heol. revert b c Hb Hc.
  induction Hline as [|x line [Hx1 Hx2] Hline IH]; intros b c Hb Hc.
  - cbn [app length buffer_with]. rewrite ReadSerial_step by (cbn in Hc; lia || exact Hb).
    rewrite Nat.add_0_r, (to_byte_eol eol Heol).
    destruct Heol as [-> | ->]; reflexivity.
  - cbn [app length buffer_with] in *. rewrite ReadSerial_step by (lia || exact Hb).
    cbn zeta.
    destruct (Z.eqb_spec (to_byte x) 10) as [|_]; [contradiction|].
    destruct (Z.eqb_spec (to_byte x) 13) as [|_]; [contradiction|].
    cbn [orb]. rewrite IH by (rewrite ?length_insert; lia || exact Hb).
    replace (S c + length line)%nat with (c + S (length line))%nat by lia. reflexivity.
Qed.

(** ReadSerial, buffer full: once the cursor reaches the end of the buffer
    without a line end the message is dropped, the state is as before and
    the cursor is back at 0; the bytes that follow are left to be read as a
    new line. *)
Theorem ReadSerial_drops_long_line
  (junk rest b : list Z) (c : nat) (r : Z) (regs : rtc_regs) (bSave : bool) (st : state) :
  length b = MAX_SERIAL -> no_eol junk -> (c + length junk = MAX_SERIAL)%nat ->
  ReadSerial (junk ++ rest) b c r regs bSave st =
    Some (st, buffer_with junk c b, 0%nat, rest, false).
Proof.
  intros Hb Hjunk. revert b c Hb.
  induction Hjunk as [|x junk [Hx1 Hx2] Hjunk IH]; intros b c Hb Hc.
  - cbn [app length buffer_with] in *. rewrite Nat.add_0_r in Hc. subst c.
    destruct rest as [|y rest]; reflexivity.
  - cbn [app length buffer_with] in *. rewrite ReadSerial_step by (lia || exact Hb).
    cbn zeta.
    destruct (Z.eqb_spec (to_byte x) 10) as [|_]; [contradiction|].
    destruct (Z.eqb_spec (to_byte x) 13) as [|_]; [contradiction|].
    cbn [orb]. apply IH; [rewrite length_insert; exact Hb | lia].
Qed.

(** ReadSerial, in general: whatever arrives, the buffer keeps its 30 bytes
    and the cursor ends inside it, at 0 after a parsed line; without a
    parsed line the state is untouched. *)
Theorem ReadSerial_cursor_in_buffer
  (incoming b : list Z) (c : nat) (r : Z) (regs : rtc_regs) (bSave : bool) (st : state)
  (st' : state) (b' : list Z) (c' : nat) (rest : list Z) (ok : bool) :
  length b = MAX_SERIAL ->
  ReadSerial incoming b c r regs bSave st = Some (st', b', c', rest, ok) ->
  length b' = MAX_SERIAL /\ (c' < MAX_SERIAL)%nat /\
  (ok = true -> c' = 0%nat) /\ (ok = false -> st' = st) /\
  exists k, rest = drop k incoming.
Proof.
  revert b c. induction incoming as [|x incoming IH]; intros b c Hb E.
  - change (ReadSerial [] b c r regs bSave st)
      with (Some (st, b, if (MAX_SERIAL <=? c)%nat then 0%nat else c, @nil Z, false)) in E.
    destruct (Nat.leb_spec MAX_SERIAL c) as [Hc|Hc]; injection E as <- <- <- <- <-;
      (repeat split; try done; try (by exists 0%nat); unfold MAX_SERIAL in *; lia).
  - destruct (Nat.lt_ge_cases c MAX_SERIAL) as [Hc|Hc].
    + rewrite ReadSerial_step in E by assumption. cbn zeta in E.
      destruct ((to_byte x =? 10) || (to_byte x =? 13)).
      * destruct (ParseSerial _ _ _ _ _ _) as [st1|]; [|discriminate].
        cbn [mbind option_bind] in E. injection E as <- <- <- <- <-.
        rewrite length_insert.
        repeat split; try done; try (by exists 1%nat); unfold MAX_SERIAL; lia.
      * apply IH in E; [|rewrite length_insert; exact Hb].
        destruct E as (H1 & H2 & H3 & H4 & k & H5).
        repeat split; try done. by exists (S k).
    + cbn [ReadSerial] in E.
      destruct (Nat.ltb_spec c MAX_SERIAL) as [|_]; [lia|].
      injection E as <- <- <- <- <-.
      repeat split; try done; try (by exists 0%nat); unfold MAX_SERIAL; lia.
Qed.

Lemma ReadSerial_parses_line_witness :
  ReadSerial (line_CE ++ 10 :: line_Z) (replicate 30 0) 0 0 monday_0700 true one_saved_event =
    let b' := <[(0 + length line_CE)%nat := 10]> (buffer_with line_CE 0 (replicate 30 0)) in
    st' ← ParseSerial b' (0 + length line_CE) 0 monday_0700 true one_saved_event;
    Some (st', b', 0%nat, line_Z, true).
Proof.
  apply (ReadSerial_parses_line line_CE line_Z (replicate 30 0) 10 0 0 monday_0700 true
           one_saved_event).
  - reflexivity.
  - repeat constructor; vm_compute; discriminate.
  - vm_compute. lia.
  - left. reflexivity.
Defined.

Lemma ReadSerial_drops_long_line_witness :
  ReadSerial (replicate 30 65 ++ line_CE ++ [10]) (replicate 30 0) 0 0 monday_0700 true
    one_saved_event =
    Some (one_saved_event, buffer_with (replicate 30 65) 0 (replicate 30 0), 0%nat,
          line_CE ++ [10], false).
Proof.
  apply (ReadSerial_drops_long_line (replicate 30 65) (line_CE ++ [10]) (replicate 30 0) 0 0
           monday_0700 true one_saved_event).
  - reflexivity.
  - repeat constructor; vm_compute; discriminate.
  - reflexivity.
Defined.

Lemma ReadSerial_cursor_in_buffer_witness :
  exists st' b' c' rest ok,
    ReadSerial (line_Z ++ [13; 10]) (replicate 30 0) 0 0 monday_0700 true blank_state
      = Some (st', b', c', rest, ok) /\
    length b' = MAX_SERIAL /\ (c' < MAX_SERIAL)%nat.
Proof.
  destruct (ReadSerial (line_Z ++ [13; 10]) (replicate 30 0) 0 0 monday_0700 true blank_state)
    as [[[[[st' b'] c'] rest] ok]|] eqn:E; [|vm_compute in E; discriminate].
  exists st', b', c', rest, ok. split; [reflexivity|].
  assert (Hb : length (replicate 30 0) = MAX_SERIAL) by reflexivity.
  destruct (ReadSerial_cursor_in_buffer _ _ _ _ _ _ _ _ _ _ _ _ Hb E) as (H1 & H2 & _).
  split; [exact H1 | exact H2].
Defined.

(** * The commands of the serial console *)

Lemma CharToHex_range c : 0 <= CharToHex c <= 15.
Proof.
  unfold CharToHex, to_byte.
  destruct (Z.ltb_spec 9 ((c - 48) mod 256)); cbv zeta;
    match goal with |- context [?a <? ?b] => destruct (Z.ltb_spec a b) end;
    Z.to_euclidean_division_equations; lia.
Qed.

Lemma address_byte hi lo :
  to_byte (Z.shiftl (CharToHex hi) 8 + CharToHex lo) = CharToHex lo.
Proof.
  pose proof (CharToHex_range lo). unfold to_byte. rewrite Z.shiftl_mul_pow2 by lia.
  change (2 ^ 8) with 256. Z.to_euclidean_division_equations. lia.
Qed.

(** ParseSerial, command S: of the two hexadecimal characters of every
    address byte only the second one counts - the first is shifted out of
    the byte - so every byte of the address passed to AddSensor is below
    16. *)
Theorem ParseSerial_sensor_address_low_nibbles
  (b : list Z) (nCursor : nat) (r : Z) (regs : rtc_regs) (bSave : bool) (st : state) :
  length b = MAX_SERIAL -> b !! 0%nat = Some 83 -> (20 <= nCursor)%nat ->
  exists data, ParseSerial_address b = Some data /\
    data = (fun i => CharToHex (default 0 (b !! (3 + i * 2)%nat))) <$> seq 0 8 /\
    Forall (fun x => 0 <= x <= 15) data /\
    ParseSerial b nCursor r regs bSave st
      = AddSensor data (to_byte (default 0 (b !! 19%nat) - 48)) r st.
Proof.
  intros Hb H0 Hc. buffer_cases b Hb.
  eexists. split; [|split; [reflexivity|split]].
  - unfold ParseSerial_address. cbn -[CharToHex to_byte Z.shiftl].
    rewrite !address_byte. reflexivity.
  - cbn -[CharToHex]. repeat constructor; apply CharToHex_range.
  - injection H0 as ->. unfold ParseSerial.
    cbn [lookup list_lookup mbind option_bind]. cbn [Z.eqb Pos.eqb].
    destruct (Nat.leb_spec 20 nCursor) as [_|]; [|lia].
    unfold ParseSerial_address. cbn -[CharToHex to_byte Z.shiftl AddSensor].
    rewrite !address_byte. reflexivity.
Qed.

Lemma ParseSerial_sensor_address_low_nibbles_witness :
  exists data, ParseSerial_address (in_buffer line_S) = Some data /\
    data = [8; 15; 10; 11; 12; 13; 14; 15].
Proof.
  destruct (ParseSerial_sensor_address_low_nibbles (in_buffer line_S) 20 2150 monday_0700
              true blank_state) as (data & E & Hdata & _).
  - reflexivity.
  - reflexivity.
  - lia.
  - exists data. split; [exact E|]. rewrite Hdata. reflexivity.
Defined.

(** ** The clear commands *)

(** The state but for the store. *)
Lemma set_EEPROM_twice f g st : set_EEPROM f (set_EEPROM g st) = set_EEPROM f st.
Proof. reflexivity. Qed.

Lemma set_EEPROM_same st : set_EEPROM (EEPROM st) st = st.
Proof. by destruct st. Qed.

(** A loop that writes a zero at [start + i * size] for [n] records. *)
Lemma clear_loop (size start : Z) n : forall i st,
  exists st',
    for_loop n i (fun i st => Some (EEPROM_write (Z.of_nat i * size + start) 0 st)) st
      = Some st' /\
    st' = set_EEPROM (EEPROM st') st /\
    (forall a, EEPROM st' a = 0 \/ EEPROM st' a = EEPROM st a) /\
    (forall j, (i <= j < i + n)%nat -> EEPROM st' (Z.of_nat j * size + start) = 0) /\
    (forall a, (forall j, (i <= j < i + n)%nat -> a <> Z.of_nat j * size + start) ->
       EEPROM st' a = EEPROM st a).
Proof.
  induction n as [|n IH]; intros i st.
  - exists st. split; [reflexivity|]. split; [by rewrite set_EEPROM_same|].
    split; [by right|]. split; [lia | reflexivity].
  - rewrite for_loop_S. cbn [mbind option_bind].
    destruct (IH (S i) (EEPROM_write (Z.of_nat i * size + start) 0 st))
      as (st' & E & Hst & Hor & Hzero & Hframe).
    exists st'. split; [exact E|]. split; [|split; [|split]].
    + rewrite Hst at 1. reflexivity.
    + intros a. destruct (Hor a) as [H|H]; [by left|]. rewrite H. cbn.
      destruct (a =? _); [by left | by right].
    + intros j Hj. destruct (decide (j = i)) as [->|Hne]; [|apply Hzero; lia].
      destruct (Hor (Z.of_nat i * size + start)) as [H|H]; [exact H|].
      rewrite H. cbn. by rewrite Z.eqb_refl.
    + intros a Ha. rewrite Hframe by (intros j Hj; apply Ha; lia). cbn.
      destruct (Z.eqb_spec a (Z.of_nat i * size + start)) as [->|]; [|reflexivity].
      exfalso. apply (Ha i); [lia | reflexivity].
Qed.

(** CE: the event count drops to 0 and the day byte of each of the 100
    event records in the store is zeroed; the records in memory, the
    next-event day, the sensors, the zones and every other byte of the
    store stay as they were, and a restart loads no event. *)
Theorem ParseSerial_clear_events_restart
  (b : list Z) (nCursor : nat) (r : Z) (regs : rtc_regs) (bSave : bool) (st : state) :
  b !! 0%nat = Some 67 -> b !! 1%nat = Some 69 -> (2 <= nCursor)%nat ->
  exists st', ParseSerial b nCursor r regs bSave st = Some st' /\
    g_nEventQuant st' = 0%nat /\ g_events st' = g_events st /\
    g_tsNextEvent st' = mk_timestamp 0 (ts_nDay (g_tsNextEvent st)) /\
    g_nSensorQuant st' = g_nSensorQuant st /\ g_sensors st' = g_sensors st /\
    g_zones st' = g_zones st /\
    (forall j, (j < MAX_EVENTS)%nat -> EEPROM st' (Z.of_nat j * 10 + 200) = 0) /\
    (forall a, (forall j, (j < MAX_EVENTS)%nat -> a <> Z.of_nat j * 10 + 200) ->
       EEPROM st' a = EEPROM st a) /\
    exists st'', setup (power_on (EEPROM st')) = Some st'' /\ g_nEventQuant st'' = 0%nat.
Proof.
  intros H0 H1 Hc. unfold ParseSerial. rewrite H0. cbn [mbind option_bind Z.eqb Pos.eqb].
  destruct (Nat.ltb_spec nCursor 2) as [|_]; [lia|].
  rewrite H1. cbn [mbind option_bind Z.eqb Pos.eqb].
  unfold ParseSerial_clear_events.
  set (st0 := set_g_tsNextEvent _ (set_g_nEventQuant 0 st)).
  destruct (clear_loop EEPROM_EVENT_SIZE EEPROM_EVENT_START MAX_EVENTS 0 st0)
    as (st' & E & Hst & _ & Hzero & Hframe).
  exists st'. split; [exact E|].
  rewrite Hst. cbn [g_nEventQuant g_events g_tsNextEvent g_nSensorQuant g_sensors g_zones
                    EEPROM set_EEPROM].
  do 6 (split; [reflexivity|]).
  split; [intros j Hj; apply Hzero; lia|].
  split; [intros a Ha; apply Hframe; intros j Hj; apply Ha; lia|].
  destruct (ReadConfig_loads _ (wf_power_on (EEPROM st')))
    as (st'' & E'' & _ & _ & _ & (_ & Hload & _) & _).
  exists st''. split; [exact E''|].
  destruct (g_nEventQuant st'') as [|q] eqn:Hq; [reflexivity|].
  destruct (Hload 0%nat ltac:(lia)) as [Hne _]. exfalso. apply Hne.
  cbn [EEPROM set_g_tsNextEvent power_on set_EEPROM]. apply (Hzero 0%nat).
  unfold MAX_EVENTS. lia.
Qed.

Lemma ParseSerial_clear_events_restart_witness :
  exists st', ParseSerial (in_buffer line_CE) 2 0 monday_0700 true one_saved_event = Some st' /\
    g_nEventQuant st' = 0%nat /\ g_events st' = g_events one_saved_event /\
    exists st'', setup (power_on (EEPROM st')) = Some st'' /\ g_nEventQuant st'' = 0%nat.
Proof.
  destruct (ParseSerial_clear_events_restart (in_buffer line_CE) 2 0 monday_0700 true
              one_saved_event eq_refl eq_refl (le_n 2))
    as (st' & E & Hq & Hev & _ & _ & _ & _ & _ & _ & Hrestart).
  exists st'. split; [exact E|]. split; [exact Hq|]. split; [exact Hev | exact Hrestart].
Defined.

(** CS: the sensor count drops to 0 and the first address byte of each of
    the 10 sensor records in the store is zeroed; the records in memory,
    the events, the zones and every other byte of the store stay as they
    were, and a restart loads no sensor. *)
Theorem ParseSerial_clear_sensors_restart
  (b : list Z) (nCursor : nat) (r : Z) (regs : rtc_regs) (bSave : bool) (st : state) :
  b !! 0%nat = Some 67 -> b !! 1%nat = Some 83 -> (2 <= nCursor)%nat ->
  exists st', ParseSerial b nCursor r regs bSave st = Some st' /\
    g_nSensorQuant st' = 0%nat /\ g_sensors st' = g_sensors st /\
    g_nEventQuant st' = g_nEventQuant st /\ g_events st' = g_events st /\
    g_tsNextEvent st' = g_tsNextEvent st /\ g_zones st' = g_zones st /\
    (forall j, (j < MAX_SENSORS)%nat -> EEPROM st' (Z.of_nat j * 10) = 0) /\
    (forall a, (forall j, (j < MAX_SENSORS)%nat -> a <> Z.of_nat j * 10) ->
       EEPROM st' a = EEPROM st a) /\
    exists st'', setup (power_on (EEPROM st')) = Some st'' /\ g_nSensorQuant st'' = 0%nat.
Proof.
  intros H0 H1 Hc. unfold ParseSerial. rewrite H0. cbn [mbind option_bind Z.eqb Pos.eqb].
  destruct (Nat.ltb_spec nCursor 2) as [|_]; [lia|].
  rewrite H1. cbn [mbind option_bind Z.eqb Pos.eqb].
  unfold ParseSerial_clear_sensors.
  destruct (clear_loop EEPROM_SENSOR_SIZE EEPROM_SENSOR_START MAX_SENSORS 0
              (set_g_nSensorQuant 0 st))
    as (st' & E & Hst & _ & Hzero & Hframe).
  exists st'. split; [exact E|].
  rewrite Hst. cbn [g_nEventQuant g_events g_tsNextEvent g_nSensorQuant g_sensors g_zones
                    EEPROM set_EEPROM].
  do 6 (split; [reflexivity|]).
  assert (Hz : forall j, (j < MAX_SENSORS)%nat -> EEPROM st' (Z.of_nat j * 10) = 0).
  { intros j Hj. rewrite <- (Hzero j) by lia. f_equal. unfold EEPROM_SENSOR_SIZE,
      EEPROM_SENSOR_START. lia. }
  split; [exact Hz|].
  split.
  { intros a Ha. apply Hframe. intros j Hj.
    unfold EEPROM_SENSOR_SIZE, EEPROM_SENSOR_START. specialize (Ha j ltac:(lia)). lia. }
  destruct (ReadConfig_loads _ (wf_power_on (EEPROM st')))
    as (st'' & E'' & _ & _ & (_ & Hload & _) & _).
  exists st''. split; [exact E''|].
  destruct (g_nSensorQuant st'') as [|q] eqn:Hq; [reflexivity|].
  destruct (Hload 0%nat ltac:(lia)) as [Hne _]. exfalso. apply Hne.
  cbn [EEPROM set_g_tsNextEvent power_on set_EEPROM]. apply (Hz 0%nat).
  unfold MAX_SENSORS. lia.
Qed.

Lemma ParseSerial_clear_sensors_restart_witness :
  exists st', ParseSerial (in_buffer line_CS) 2 0 monday_0700 true one_saved_sensor = Some st' /\
    g_nSensorQuant st' = 0%nat /\ g_sensors st' = g_sensors one_saved_sensor /\
    exists st'', setup (power_on (EEPROM st')) = Some st'' /\ g_nSensorQuant st'' = 0%nat.
Proof.
  destruct (ParseSerial_clear_sensors_restart (in_buffer line_CS) 2 0 monday_0700 true
              one_saved_sensor eq_refl eq_refl (le_n 2))
    as (st' & E & Hq & Hs & _ & _ & _ & _ & _ & _ & Hrestart).
  exists st'. split; [exact E|]. split; [exact Hq|]. split; [exact Hs | exact Hrestart].
Defined.

(** ** The zone command *)

Lemma to_byte_add_l x y : to_byte (to_byte x + y) = to_byte (x + y).
Proof. unfold to_byte. apply Z.add_mod_idemp_l. lia. Qed.

(** Z: a zone character outside 0-9 leaves the state as it is; for a zone
    0-9 the hysteresis becomes the two-digit number (as a byte) and the
    space flag is set unless its character is 0, the set-point and the
    call-for-heat state of the zone stay, and the two bytes of the zone's
    record in the store are written, and nothing else. *)
Theorem ParseSerial_zone
  (b : list Z) (nCursor : nat) (r : Z) (regs : rtc_regs) (bSave : bool) (st : state) :
  length b = MAX_SERIAL -> length (g_zones st) = MAX_ZONES ->
  b !! 0%nat = Some 90 -> (8 <= nCursor)%nat ->
  let c k := default 0 (b !! k) in
  let nZone := to_byte (c 2%nat - 48) in
  (9 < nZone -> ParseSerial b nCursor r regs bSave st = Some st) /\
  (nZone <= 9 ->
   exists zn st', g_zones st !! Z.to_nat nZone = Some zn /\
     ParseSerial b nCursor r regs bSave st = Some st' /\
     g_zones st' =
       <[Z.to_nat nZone :=
           mk_zone (zn_nSetpoint zn) (to_byte ((c 4%nat - 48) * 10 + (c 5%nat - 48)))
                   (zn_bOn zn) (negb (c 7%nat =? 48))]> (g_zones st) /\
     EEPROM st' (nZone * 2 + 100) = to_byte ((c 4%nat - 48) * 10 + (c 5%nat - 48)) /\
     EEPROM st' (nZone * 2 + 101) = (if c 7%nat =? 48 then 0 else 1) /\
     (forall a, a <> nZone * 2 + 100 -> a <> nZone * 2 + 101 -> EEPROM st' a = EEPROM st a) /\
     st' = set_EEPROM (EEPROM st') (set_g_zones (g_zones st') st)).
Proof.
  intros Hb Hzl H0 Hc c nZone. subst c nZone. buffer_cases b Hb.
  injection H0 as ->. unfold ParseSerial.
  cbn [lookup list_lookup mbind option_bind default id]. cbn [Z.eqb Pos.eqb].
  destruct (Nat.leb_spec 8 nCursor) as [_|]; [|lia].
  set (nZone := to_byte (z1 - 48)).
  assert (Hn : 0 <= nZone < 256) by (unfold nZone, to_byte; Z.to_euclidean_division_equations; lia).
  split.
  - intros Hgt. destruct (Z.ltb_spec 9 nZone); [reflexivity | lia].
  - intros Hle. destruct (Z.ltb_spec 9 nZone) as [|_]; [lia|].
    destruct (lookup_lt_is_Some_2 (g_zones st) (Z.to_nat nZone)) as [zn Hzn].
    { rewrite Hzl. unfold MAX_ZONES. lia. }
    exists zn. eexists. split; [exact Hzn|].
    unfold zone_update, SaveZone.
    rewrite Hzn. cbn [mbind option_bind g_zones set_g_zones].
    rewrite list_lookup_insert_eq by (rewrite Hzl; unfold MAX_ZONES; lia).
    cbn [mbind option_bind g_zones set_g_zones].
    rewrite list_lookup_insert_eq
      by (rewrite length_insert, Hzl; unfold MAX_ZONES; lia).
    cbn [mbind option_bind g_zones set_g_zones].
    rewrite list_lookup_insert_eq
      by (rewrite !length_insert, Hzl; unfold MAX_ZONES; lia).
    cbn [mbind option_bind with_nHyst with_bSpace zn_nHyst zn_nSetpoint zn_bOn zn_bSpace].
    rewrite !list_insert_insert_eq, to_byte_add_l.
    split; [reflexivity|].
    cbn [g_zones set_g_zones EEPROM EEPROM_write set_EEPROM].
    split; [reflexivity|].
    unfold EEPROM_ZONE_SIZE, EEPROM_ZONE_START. rewrite Z2Nat.id by lia.
    split; [|split; [|split; [|reflexivity]]].
    + destruct (Z.eqb_spec (nZone * 2 + 100) (nZone * 2 + 100 + 1)) as [|_]; [lia|].
      rewrite Z.eqb_refl. unfold to_byte. apply Z.mod_mod. lia.
    + replace (nZone * 2 + 101) with (nZone * 2 + 100 + 1) by lia. rewrite Z.eqb_refl.
      destruct (z6 =? 48); reflexivity.
    + intros a Ha1 Ha2.
      destruct (Z.eqb_spec a (nZone * 2 + 100 + 1)) as [|_]; [lia|].
      destruct (Z.eqb_spec a (nZone * 2 + 100)) as [|_]; [lia|]. reflexivity.
Qed.

Lemma ParseSerial_zone_witness :
  exists st', ParseSerial (in_buffer line_Z) 8 0 monday_0700 true blank_state = Some st' /\
    g_zones st' !! 3%nat = Some (mk_zone 0 15 false true) /\
    EEPROM st' 106 = 15 /\ EEPROM st' 107 = 1.
Proof.
  destruct (proj2 (ParseSerial_zone (in_buffer line_Z) 8 0 monday_0700 true blank_state
                     eq_refl eq_refl eq_refl (le_n 8)))
    as (zn & st' & Hzn & E & Hz & H1 & H2 & _).
  - vm_compute. discriminate.
  - exists st'. split; [exact E|]. split; [|split; [exact H1 | exact H2]].
    rewrite Hz. vm_compute in Hzn. injection Hzn as <-. reflexivity.
Defined.

(** ** The add-event command *)

Lemma to_int_small x : -32768 <= x < 32768 -> to_int x = x.
Proof. intros H. unfold to_int. rewrite Z.mod_small by lia. lia. Qed.

Lemma days_byte hi lo :
  to_byte (Z.shiftl (CharToHex hi) 4 + CharToHex lo) = CharToHex hi * 16 + CharToHex lo.
Proof.
  pose proof (CharToHex_range hi). pose proof (CharToHex_range lo).
  rewrite Z.shiftl_mul_pow2 by lia. change (2 ^ 4) with 16.
  apply to_byte_small. lia.
Qed.

Lemma ParseSerial_E_plus
  (b : list Z) (nCursor : nat) (r : Z) (regs : rtc_regs) (bSave : bool) (st : state) :
  length b = MAX_SERIAL -> b !! 0%nat = Some 69 -> b !! 1%nat = Some 43 ->
  (18 <= nCursor)%nat -> (g_nEventQuant st < MAX_EVENTS)%nat ->
  (forall k c, In k [6; 7; 9; 10; 15; 16; 17]%nat -> b !! k = Some c -> is_digit c) ->
  let e := ParseSerial_event b in
  ParseSerial b nCursor r regs bSave st =
    AddEvent (ev_nZone e) (ev_nDays e) (ev_nTime e) (ev_nValue e) bSave st ≫= ProcessEvents.
Proof.
  intros Hb H0 H1 Hc Hq Hd e. subst e. buffer_cases b Hb.
  injection H0 as ->. injection H1 as ->.
  assert (D6 := Hd 6%nat _ ltac:(simpl; tauto) eq_refl).
  assert (D7 := Hd 7%nat _ ltac:(simpl; tauto) eq_refl).
  assert (D9 := Hd 9%nat _ ltac:(simpl; tauto) eq_refl).
  assert (D10 := Hd 10%nat _ ltac:(simpl; tauto) eq_refl).
  assert (D15 := Hd 15%nat _ ltac:(simpl; tauto) eq_refl).
  assert (D16 := Hd 16%nat _ ltac:(simpl; tauto) eq_refl).
  assert (D17 := Hd 17%nat _ ltac:(simpl; tauto) eq_refl).
  clear Hd. unfold is_digit in *.
  unfold ParseSerial, ParseSerial_event.
  cbn [lookup list_lookup mbind option_bind default id ev_nZone ev_nDays ev_nTime ev_nValue].
  cbn [Z.eqb Pos.eqb negb].
  destruct (Nat.leb_spec 5 nCursor) as [_|]; [|lia].
  destruct (Nat.ltb_spec nCursor 18) as [|_]; [lia|].
  destruct (Nat.leb_spec MAX_EVENTS (g_nEventQuant st)) as [|_]; [lia|].
  rewrite days_byte.
  rewrite to_uint_small by lia.
  rewrite (to_int_small (_ + _ - 48)) by lia.
  match goal with |- context [if ?c =? 45 then _ else _] => destruct (c =? 45) end.
  - rewrite to_int_small by lia. repeat f_equal; lia.
  - repeat f_equal; lia.
Qed.

(** E+: with room in the table, the event the line spells - days from two
    hexadecimal characters, minutes from hh:mm, the zone character minus
    the character 0 whatever it is, the three digits negated after a minus
    sign - is appended at slot [g_nEventQuant], saved if [bSave], and the
    next event recomputed by [ProcessEvents]. *)
Theorem ParseSerial_add_event
  (b : list Z) (nCursor : nat) (r : Z) (regs : rtc_regs) (bSave : bool) (st : state) :
  length b = MAX_SERIAL -> b !! 0%nat = Some 69 -> b !! 1%nat = Some 43 ->
  (18 <= nCursor)%nat -> (g_nEventQuant st < MAX_EVENTS)%nat ->
  length (g_events st) = MAX_EVENTS ->
  (forall k c, In k [6; 7; 9; 10; 15; 16; 17]%nat -> b !! k = Some c -> is_digit c) ->
  let e := ParseSerial_event b in
  exists st1,
    g_nEventQuant st1 = S (g_nEventQuant st) /\
    g_events st1 = <[g_nEventQuant st := e]> (g_events st) /\
    (if bSave
     then stored_event e (EEPROM st1) (Z.of_nat (g_nEventQuant st) * 10 + 200)
     else EEPROM st1 = EEPROM st) /\
    g_zones st1 = g_zones st /\ g_tsNow st1 = g_tsNow st /\
    ParseSerial b nCursor r regs bSave st = ProcessEvents st1.
Proof.
  intros Hb H0 H1 Hc Hq Hlen Hd e.
  rewrite (ParseSerial_E_plus b nCursor r regs bSave st Hb H0 H1 Hc Hq Hd).
  fold e.
  destruct (AddEvent_appends (ev_nZone e) (ev_nDays e) (ev_nTime e) (ev_nValue e) bSave st
              Hq Hlen)
    as (st1 & E & Hq1 & Hev & Hrom & _ & _ & Hz & Hnow & _).
  exists st1. rewrite E. cbn [mbind option_bind].
  split; [exact Hq1|]. split; [rewrite Hev; by destruct e|].
  split; [|split; [exact Hz | split; [exact Hnow | reflexivity]]].
  destruct bSave; [|exact Hrom]. destruct Hrom as [Hrom _]. by destruct e.
Qed.

Lemma ParseSerial_add_event_witness :
  exists st1,
    g_nEventQuant st1 = 1%nat /\
    g_events st1 !! 0%nat = Some (mk_event 420 2 1 200) /\
    ParseSerial (in_buffer line_E_plus) 18 0 monday_0700 true blank_state
      = ProcessEvents st1.
Proof.
  destruct (ParseSerial_add_event (in_buffer line_E_plus) 18 0 monday_0700 true blank_state)
    as (st1 & Hq & Hev & _ & _ & _ & E).
  - reflexivity.
  - reflexivity.
  - reflexivity.
  - lia.
  - vm_compute. lia.
  - reflexivity.
  - intros k c Hk Hc. simpl in Hk.
    destruct Hk as [<-|[<-|[<-|[<-|[<-|[<-|[<-|[]]]]]]]];
      vm_compute in Hc; injection Hc as <-; unfold is_digit; lia.
  - exists st1. split; [exact Hq|]. split; [rewrite Hev; reflexivity | exact E].
Defined.

(** E+ does not check the zone character: a line that names a zone beyond
    9 and is due at this very minute makes the [ProcessEvents] call that
    ends the command write outside the ten slots of [g_zones]. *)
Theorem ParseSerial_add_event_unchecked_zone
  (b : list Z) (nCursor : nat) (r : Z) (regs : rtc_regs) (bSave : bool) (st : state) :
  length b = MAX_SERIAL -> b !! 0%nat = Some 69 -> b !! 1%nat = Some 43 ->
  (18 <= nCursor)%nat -> (g_nEventQuant st < MAX_EVENTS)%nat ->
  length (g_events st) = MAX_EVENTS -> length (g_zones st) = MAX_ZONES ->
  (forall k c, In k [6; 7; 9; 10; 15; 16; 17]%nat -> b !! k = Some c -> is_digit c) ->
  event_due (g_tsNow st) (ParseSerial_event b) = true ->
  9 < ev_nZone (ParseSerial_event b) ->
  ParseSerial b nCursor r regs bSave st = None.
Proof.
  intros Hb H0 H1 Hc Hq Hlen Hzl Hd Hdue Hzone.
  rewrite (ParseSerial_E_plus b nCursor r regs bSave st Hb H0 H1 Hc Hq Hd).
  set (e := ParseSerial_event b) in *.
  destruct (AddEvent_appends (ev_nZone e) (ev_nDays e) (ev_nTime e) (ev_nValue e) bSave st
              Hq Hlen)
    as (st1 & E & Hq1 & Hev & _ & _ & _ & Hz & Hnow & _).
  rewrite E. cbn [mbind option_bind]. unfold ProcessEvents.
  rewrite (ProcessEvents_loop_out_of_range _ _ _ (g_nEventQuant st) e); [reflexivity | | | |].
  - cbn [g_nEventQuant set_g_tsNextEvent]. rewrite Hq1. lia.
  - cbn [g_events set_g_tsNextEvent]. rewrite Hev.
    replace (mk_event _ _ _ _) with e by (by destruct e).
    apply list_lookup_insert_eq. rewrite Hlen. exact Hq.
  - cbn [g_tsNow set_g_tsNextEvent]. rewrite Hnow. exact Hdue.
  - cbn [g_zones set_g_tsNextEvent]. rewrite Hz, Hzl. unfold zone_index, MAX_ZONES. lia.
Qed.

Lemma ParseSerial_add_event_unchecked_zone_witness :
  ParseSerial (in_buffer line_E_plus_zone_10) 18 0 monday_0700 true blank_monday_0700 = None.
Proof.
  apply ParseSerial_add_event_unchecked_zone.
  - reflexivity.
  - reflexivity.
  - reflexivity.
  - lia.
  - vm_compute. lia.
  - reflexivity.
  - reflexivity.
  - intros k c Hk Hc. simpl in Hk.
    destruct Hk as [<-|[<-|[<-|[<-|[<-|[<-|[<-|[]]]]]]]];
      vm_compute in Hc; injection Hc as <-; unfold is_digit; lia.
  - reflexivity.
  - vm_compute. reflexivity.
Defined.

(** * Reading a sensor *)

Lemma lxor_low_ones x : 0 <= x < 65536 -> Z.lxor x 65535 = 65535 - x.
Proof.
  intros Hx.
  replace (65535 - x) with (Z.lnot x mod 2 ^ 16)
    by (unfold Z.lnot; change (2 ^ 16) with 65536; symmetry;
        apply (Z.mod_unique _ _ (-1)); lia).
  apply Z.bits_inj'. intros n Hn. rewrite Z.lxor_spec. change 65535 with (Z.ones 16).
  destruct (Z.lt_ge_cases n 16).
  - rewrite Z.ones_spec_low, Z.mod_pow2_bits_low, Z.lnot_spec by lia.
    destruct (Z.testbit x n); reflexivity.
  - rewrite Z.ones_spec_high, Z.mod_pow2_bits_high by lia.
    rewrite <- (Z.mod_small x (2 ^ 16)) by (change (2 ^ 16) with 65536; lia).
    rewrite Z.mod_pow2_bits_high by lia. reflexivity.
Qed.

Lemma sign_bit x : 0 <= x < 65536 -> (Z.land x 32768 =? 0) = (x <? 32768).
Proof.
  intros Hx.
  pose proof (bit_and_nonzero_day_bit x 15) as H. unfold bit_and_nonzero in H.
  change (day_bit 15) with 32768 in H.
  apply (f_equal negb) in H. rewrite negb_involutive in H. rewrite H.
  destruct (Z.ltb_spec x 32768) as [Hlt|Hge].
  - rewrite Z.bits_above_log2; [reflexivity | lia |].
    destruct (Z.eq_dec x 0) as [->|]; [simpl; lia|].
    apply Z.log2_lt_pow2; simpl; lia.
  - apply negb_false_iff. apply Z.testbit_true; [simpl; lia|].
    change (2 ^ Z.of_nat 15) with 32768. Z.to_euclidean_division_equations. lia.
Qed.

(** GetTemperature(address) loses the sign: for a sensor at [t] sixteenths
    of a degree, anywhere in the twelve bits of the device, and a good
    checksum, the result is the magnitude of [t] in hundredths - a reading
    below zero comes back as the same reading above zero - and so is never
    the -2000 that stands for a failed read. *)
Theorem GetTemperature_address_drops_sign (crc8 : list Z -> Z) (t : Z) (rest : list Z) :
  length rest = 6%nat -> -2048 <= t <= 2047 ->
  GetTemperature_address crc8 (scratchpad crc8 t rest) = Some (Z.abs t * 25 / 4) /\
  Z.abs t * 25 / 4 <> -2000.
Proof.
  intros Hrest Ht.
  do 6 (destruct rest as [|? rest]; [discriminate Hrest|]).
  destruct rest; [clear Hrest | discriminate Hrest].
  split; [|Z.to_euclidean_division_equations; lia].
  unfold GetTemperature_address, scratchpad.
  cbn [app lookup list_lookup mbind option_bind take].
  rewrite Z.eqb_refl.
  assert (Hv : to_int (to_byte t + Z.shiftl (to_byte (t / 256)) 8) = t).
  { rewrite Z.shiftl_mul_pow2 by lia. change (2 ^ 8) with 256.
    unfold to_int, to_byte. Z.to_euclidean_division_equations. lia. }
  rewrite Hv.
  assert (Hu : 0 <= to_uint t < 65536) by (unfold to_uint; Z.to_euclidean_division_equations; lia).
  rewrite (sign_bit _ Hu).
  destruct (Z.ltb_spec (to_uint t) 32768) as [Hlt|Hge]; cbn [negb].
  - assert (0 <= t) by (unfold to_uint in Hlt; Z.to_euclidean_division_equations; lia).
    rewrite Z.abs_eq by lia. unfold times_6_25.
    rewrite Z.quot_div_nonneg by lia.
    destruct (Z.leb_spec (-32768) (t * 25 / 4));
      destruct (Z.leb_spec (t * 25 / 4) 32767); cbn [andb]; try reflexivity;
      Z.to_euclidean_division_equations; lia.
  - assert (Hneg : t < 0) by (unfold to_uint in Hge; Z.to_euclidean_division_equations; lia).
    assert (Hut : to_uint t = t + 65536)
      by (unfold to_uint; Z.to_euclidean_division_equations; lia).
    rewrite (lxor_low_ones _ Hu), Hut.
    replace (65535 - (t + 65536) + 1) with (- t) by lia.
    rewrite (to_uint_small (- t)) by lia. rewrite to_int_small by lia.
    rewrite Z.abs_neq by lia. unfold times_6_25.
    rewrite Z.quot_div_nonneg by lia.
    destruct (Z.leb_spec (-32768) (- t * 25 / 4));
      destruct (Z.leb_spec (- t * 25 / 4) 32767); cbn [andb]; try reflexivity;
      Z.to_euclidean_division_equations; lia.
Qed.

Lemma GetTemperature_address_drops_sign_witness :
  GetTemperature_address sum_crc (scratchpad sum_crc (-162) [0; 0; 0; 0; 0; 0]) = Some 1012.
Proof.
  destruct (GetTemperature_address_drops_sign sum_crc (-162) [0; 0; 0; 0; 0; 0])
    as [H _]; [reflexivity | lia | exact H].
Defined.

(** * Buttons *)

Lemma getTime_frame regs st :
  fst (getTime regs st) = set_g_tsNow (g_tsNow (fst (getTime regs st))) st.
Proof. reflexivity. Qed.

Lemma ui_step_keeps (ev : ui_event) (u : ui) (st : state) :
  length (g_zones st) = MAX_ZONES -> ui_ok u ->
  exists u' st', ui_step ev (u, st) = Some (u', st') /\ ui_ok u' /\
    st' = set_g_tsNow (g_tsNow st') st.
Proof.
  intros Hzl [Hsel Hedit].
  assert (Hst : st = set_g_tsNow (g_tsNow st) st) by (by destruct st).
  destruct ev as [bState regs | bState | regs]; cbn [ui_step fst snd].
  - unfold OnButtonUp. destruct bState; [by exists u, st|].
    destruct (g_bEdit u) eqn:He.
    + unfold ToggleEdit. rewrite He. eexists _, st. split; [reflexivity|].
      split; [|exact Hst]. split; cbn; [right; auto | discriminate].
    + cbn [g_nSelectedZone g_bEdit].
      set (n := to_byte (g_nSelectedZone u + 1)).
      assert (Hn : 0 <= n < 256) by (unfold n, to_byte; Z.to_euclidean_division_equations; lia).
      destruct (Z.ltb_spec 9 n).
      * eexists _, _. split; [reflexivity|]. split; [|apply getTime_frame].
        split; cbn; [by left | discriminate].
      * destruct (lookup_lt_is_Some_2 (g_zones st) (Z.to_nat n)) as [zn Hzn].
        { rewrite Hzl. unfold MAX_ZONES. lia. }
        rewrite Hzn. cbn [mbind option_bind]. eexists _, st. split; [reflexivity|].
        split; [|exact Hst]. split; cbn; [right; lia | discriminate].
  - unfold OnButtonOk. eexists _, st. split; [reflexivity|]. split; [|exact Hst].
    destruct bState; [by split|].
    destruct (Z.eqb_spec (g_nSelectedZone u) 255) as [E|E]; [by split|].
    destruct (g_bEdit u); cbn [negb]; split; cbn; try discriminate; auto;
      intros _; destruct Hsel; [contradiction | assumption].
  - unfold ToggleEdit. destruct (g_bEdit u) eqn:He.
    + eexists _, st. split; [reflexivity|]. split; [|exact Hst].
      split; cbn; [right; auto | discriminate].
    + eexists _, _. split; [reflexivity|]. split; [|apply getTime_frame].
      split; cbn; [by left | congruence].
Qed.

(** Whatever the buttons and the display timer do, the selected zone stays
    one of the ten zones or the clock display, editing stays tied to a
    selected zone, the set-point read for the display is inside [g_zones],
    and of the controller's state only the clock reading changes. *)
Theorem ui_run_keeps_selection (evs : list ui_event) (u : ui) (st : state) :
  length (g_zones st) = MAX_ZONES -> ui_ok u ->
  exists u' st', ui_run evs (u, st) = Some (u', st') /\ ui_ok u' /\
    st' = set_g_tsNow (g_tsNow st') st.
Proof.
  revert u st. induction evs as [|ev evs IH]; intros u st Hzl Hok.
  - exists u, st. split; [reflexivity|]. split; [exact Hok | by destruct st].
  - destruct (ui_step_keeps ev u st Hzl Hok) as (u1 & st1 & E1 & Hok1 & Hst1).
    destruct (IH u1 st1) as (u2 & st2 & E2 & Hok2 & Hst2).
    { rewrite Hst1. exact Hzl. }
    { exact Hok1. }
    exists u2, st2. cbn [ui_run]. rewrite E1. cbn [mbind option_bind].
    split; [exact E2|]. split; [exact Hok2|].
    rewrite Hst2 at 1. rewrite Hst1. reflexivity.
Qed.

Lemma ui_run_keeps_selection_witness :
  exists u' st',
    ui_run [ButtonUp false monday_0700; ButtonOk false; DisplayTimeout monday_0701;
            DisplayTimeout monday_0701] (ui_power_on, blank_state) = Some (u', st') /\
    ui_ok u'.
Proof.
  destruct (ui_run_keeps_selection
              [ButtonUp false monday_0700; ButtonOk false; DisplayTimeout monday_0701;
               DisplayTimeout monday_0701] ui_power_on blank_state)
    as (u' & st' & E & Hok & _).
  - reflexivity.
  - split; [by left | discriminate].
  - exists u', st'. split; [exact E | exact Hok].
Defined.
